(** * Weather analytics API: validation, analytics engine and ingestion

    A shallow embedding of the Python sources under [app/]:
    - [app/utils/exceptions.py]   the domain error kinds,
    - [app/utils/validation.py]   the five validators,
    - [app/models.py]             the two tables,
    - [app/services/analytics_service.py]  the aggregation queries,
    - [app/services/weather_service.py]    fetch-and-save,
    - [app/routers/*.py]          the error mapping of the endpoints.

    Conventions of the embedding.
    - A Python [int] is a [Z].  A Python [float] and a value of a
      [double precision] column are binary64 numbers: the [float] of the
      kernel, with the IEEE operations.  [round(x, 2)] and [int / int],
      which CPython rounds correctly, are written out on the exact values.
    - A Python [str] is a [string] whose characters are read as the code
      points 0..255.
    - A function that can raise returns a [result]; an exception is its
      class together with its message.
    - A nullable column is an [option]; a dict is a [gmap].
    - The clock ([datetime.utcnow()]) and the provider's reply
      ([requests.get]) are inputs of the functions that read them.
    - [ORDER BY recorded_at] belongs to the storage handle: it returns the
      rows sorted, and the order of rows with equal timestamps is the
      engine's choice. *)

From stdpp Require Import gmap strings list sorting pretty.
From Stdlib Require Import Ascii String ZArith QArith Qround Qminmax Qabs Qpower
  Lqa.
From Stdlib Require Floats.
Import PrimFloat.

Open Scope Z_scope.
#[local] Set Warnings "-inexact-float".

(** ** Exceptions ([app/utils/exceptions.py], builtins, [requests]) *)

Inductive exc_class : Type :=
  (* app/utils/exceptions.py: WeatherAPIError and its four leaves *)
  | WeatherAPIError
  | CityNotFoundError
  | WeatherDataNotFoundError
  | ExternalAPIError
  | ValidationError
  (* builtins *)
  | ValueError
  | TypeError
  | AttributeError
  | IndexError
  | KeyError
  | ZeroDivisionError
  | OverflowError
  (* pydantic.ValidationError and sqlalchemy.exc.SQLAlchemyError *)
  | ResponseValidationError
  | SQLAlchemyError
  (* requests.exceptions *)
  | RequestException
  | Timeout
  | ConnectionError
  | HTTPError
  | JSONDecodeError.

Global Instance exc_class_eq_dec : EqDecision exc_class.
Proof. solve_decision. Defined.

Record exn : Type := MkExn { exn_class : exc_class; exn_msg : string }.

Global Instance exn_eq_dec : EqDecision exn.
Proof. solve_decision. Defined.

(** [issubclass c d]: the class hierarchy, reflexive.  Every class derives
    from [Exception], which is not represented. *)
Definition issubclass (c d : exc_class) : bool :=
  match d with
  | WeatherAPIError =>
      match c with
      | WeatherAPIError | CityNotFoundError | WeatherDataNotFoundError
      | ExternalAPIError | ValidationError => true
      | _ => false
      end
  | RequestException =>
      match c with
      | RequestException | Timeout | ConnectionError | HTTPError
      | JSONDecodeError => true
      | _ => false
      end
  | ValueError =>
      match c with
      | ValueError | JSONDecodeError => true
      | _ => false
      end
  | _ => bool_decide (c = d)
  end.

(** The leaves of the taxonomy that the API boundary knows. *)
Definition is_domain_error (c : exc_class) : bool :=
  issubclass c WeatherAPIError.

Inductive result (A : Type) : Type :=
  | Ok (a : A)
  | Raise (e : exn).
Arguments Ok {A} a.
Arguments Raise {A} e.

Definition raise {A} (c : exc_class) (msg : string) : result A :=
  Raise (MkExn c msg).

(** Sequencing: the first exception raised propagates. *)
Global Instance result_bind : MBind result := λ A B k m,
  match m with
  | Ok a => k a
  | Raise e => Raise e
  end.

Global Instance result_ret : MRet result := λ A a, Ok a.

Definition raised_class {A} (m : result A) : option exc_class :=
  match m with
  | Ok _ => None
  | Raise e => Some (exn_class e)
  end.

Definition is_ok {A} (m : result A) : bool :=
  match m with Ok _ => true | Raise _ => false end.

Definition returned {A} (m : result A) : option A :=
  match m with Ok a => Some a | Raise _ => None end.

(** ** Python values that reach the validators *)

Inductive pyval : Type :=
  | PyNone
  | PyBool (b : bool)
  | PyInt (z : Z)
  | PyFloat (x : float)
  | PyStr (s : string).

(** [isinstance(v, int)]: [bool] is a subclass of [int]. *)
Definition isinstance_int (v : pyval) : bool :=
  match v with
  | PyInt _ | PyBool _ => true
  | _ => false
  end.

(** The integer an [int] instance compares as. *)
Definition int_value (v : pyval) : Z :=
  match v with
  | PyInt z => z
  | PyBool true => 1
  | _ => 0
  end.

(** ** Strings: [str.strip] and the character class of the city pattern *)

Definition code (c : ascii) : Z := Z.of_nat (nat_of_ascii c).

(** [str.isspace] on the code points below 256. *)
Definition is_space (c : ascii) : bool :=
  let n := code c in
  ((9 <=? n) && (n <=? 13)) || ((28 <=? n) && (n <=? 32))
  || (n =? 133) || (n =? 160).

Definition is_ascii_letter (c : ascii) : bool :=
  let n := code c in
  ((65 <=? n) && (n <=? 90)) || ((97 <=? n) && (n <=? 122)).

Definition is_digit (c : ascii) : bool :=
  let n := code c in (48 <=? n) && (n <=? 57).

Fixpoint lstrip (s : string) : string :=
  match s with
  | EmptyString => EmptyString
  | String c s' => if is_space c then lstrip s' else s
  end.

Fixpoint rstrip (s : string) : string :=
  match s with
  | EmptyString => EmptyString
  | String c s' =>
      match rstrip s' with
      | EmptyString => if is_space c then EmptyString else String c EmptyString
      | r => String c r
      end
  end.

Definition strip (s : string) : string := rstrip (lstrip s).

Fixpoint string_forallb (p : ascii → bool) (s : string) : bool :=
  match s with
  | EmptyString => true
  | String c s' => p c && string_forallb p s'
  end.

(** One character of [[a-zA-Z\s\-']]. *)
Definition city_char (c : ascii) : bool :=
  is_ascii_letter c || is_space c || (code c =? 45) || (code c =? 39).

(** [re.match(r"^[a-zA-Z\s\-']+$", s)] is not [None].  The class contains
    the newline, so the [$] of the pattern can only succeed at the end. *)
Definition re_match_city (s : string) : bool :=
  match s with
  | EmptyString => false
  | _ => string_forallb city_char s
  end.

Definition len (s : string) : Z := Z.of_nat (String.length s).

(** ** [app/utils/validation.py] *)

Definition validate_city_name (city : string) : result string :=
  if bool_decide (city = "") then
    raise ValueError "City name cannot be empty"
  else
    let city := strip city in
    if len city <? 2 then
      raise ValueError "City name must be at least 2 characters"
    else if len city >? 100 then
      raise ValueError "City name must be less than 100 characters"
    else if negb (re_match_city city) then
      raise ValueError "City name contains invalid characters"
    else Ok city.

Definition validate_days (days : pyval) (min_days max_days : Z)
  : result pyval :=
  match days with
  | PyNone => Ok PyNone
  | _ =>
      if negb (isinstance_int days) then
        raise ValueError "Days must be an integer"
      else if int_value days <? min_days then
        raise ValueError ("Days must be at least " +:+ pretty min_days)
      else if int_value days >? max_days then
        raise ValueError ("Days must be at most " +:+ pretty max_days)
      else Ok days
  end.

Definition validate_weeks (weeks : pyval) (min_weeks max_weeks : Z)
  : result pyval :=
  if negb (isinstance_int weeks) then
    raise ValueError "Weeks must be an integer"
  else if int_value weeks <? min_weeks then
    raise ValueError ("Weeks must be at least " +:+ pretty min_weeks)
  else if int_value weeks >? max_weeks then
    raise ValueError ("Weeks must be at most " +:+ pretty max_weeks)
  else Ok weeks.

Definition validate_months (months : pyval) (min_months max_months : Z)
  : result pyval :=
  if negb (isinstance_int months) then
    raise ValueError "Months must be an integer"
  else if int_value months <? min_months then
    raise ValueError ("Months must be at least " +:+ pretty min_months)
  else if int_value months >? max_months then
    raise ValueError ("Months must be at most " +:+ pretty max_months)
  else Ok months.

(** The defaults of the signatures. *)
Definition default_min_days : Z := 1.
Definition default_max_days : Z := 365.
Definition default_min_weeks : Z := 1.
Definition default_max_weeks : Z := 52.
Definition default_min_months : Z := 1.
Definition default_max_months : Z := 24.

(** ** [datetime]: naive timestamps, as Python stores them *)

Record datetime : Type := MkDatetime {
  year : Z; month : Z; day : Z;
  hour : Z; minute : Z; second : Z; microsecond : Z
}.

Global Instance datetime_eq_dec : EqDecision datetime.
Proof. solve_decision. Defined.

(** A calendar date ([datetime.date], the value of SQL [date(...)]). *)
Record date : Type := MkDate { d_year : Z; d_month : Z; d_day : Z }.

Global Instance date_eq_dec : EqDecision date.
Proof. solve_decision. Defined.

Definition date_of (t : datetime) : date :=
  MkDate (year t) (month t) (day t).

Definition is_leap (y : Z) : bool :=
  (y mod 4 =? 0) && (negb (y mod 100 =? 0) || (y mod 400 =? 0)).

Definition days_in_month (y m : Z) : Z :=
  if m =? 2 then (if is_leap y then 29 else 28)
  else if (m =? 4) || (m =? 6) || (m =? 9) || (m =? 11) then 30
  else 31.

Definition valid_date (y m d : Z) : bool :=
  (1 <=? y) && (y <=? 9999) && (1 <=? m) && (m <=? 12)
  && (1 <=? d) && (d <=? days_in_month y m).

(** What the [datetime] constructor accepts. *)
Definition valid_datetime (t : datetime) : bool :=
  valid_date (year t) (month t) (day t)
  && (0 <=? hour t) && (hour t <=? 23)
  && (0 <=? minute t) && (minute t <=? 59)
  && (0 <=? second t) && (second t <=? 59)
  && (0 <=? microsecond t) && (microsecond t <=? 999999).

(** Comparison of datetimes and of dates is lexicographic on the fields. *)
Fixpoint lex_compare (a b : list Z) : comparison :=
  match a, b with
  | [], [] => Eq
  | [], _ :: _ => Lt
  | _ :: _, [] => Gt
  | x :: a', y :: b' =>
      match x ?= y with
      | Eq => lex_compare a' b'
      | c => c
      end
  end.

Definition datetime_fields (t : datetime) : list Z :=
  [year t; month t; day t; hour t; minute t; second t; microsecond t].

Definition date_fields (d : date) : list Z := [d_year d; d_month d; d_day d].

Definition datetime_compare (a b : datetime) : comparison :=
  lex_compare (datetime_fields a) (datetime_fields b).

Definition date_compare (a b : date) : comparison :=
  lex_compare (date_fields a) (date_fields b).

(** [a <= b], [a >= b] and [a > b] on datetimes. *)
Definition dt_leb (a b : datetime) : bool :=
  match datetime_compare a b with Gt => false | _ => true end.
Definition dt_geb (a b : datetime) : bool := dt_leb b a.
Definition dt_gtb (a b : datetime) : bool := negb (dt_leb a b).

Definition dt_le (a b : datetime) : Prop := dt_leb a b = true.
Definition date_ge (a b : date) : Prop := date_compare a b ≠ Lt.

Global Instance dt_le_dec a b : Decision (dt_le a b).
Proof. unfold dt_le. apply _. Defined.

Global Instance date_ge_dec a b : Decision (date_ge a b).
Proof. unfold date_ge. apply _. Defined.

(** *** The order on timestamps is total *)

Lemma lex_compare_refl (a : list Z) : lex_compare a a = Eq.
Proof.
  induction a as [|x a IH]; simpl; [reflexivity|].
  now rewrite Z.compare_refl.
Qed.

Lemma lex_compare_swap (a b : list Z) :
  lex_compare b a = CompOpp (lex_compare a b).
Proof.
  revert b; induction a as [|x a IH]; intros [|y b]; simpl; try reflexivity.
  rewrite (Z.compare_antisym x y).
  destruct (x ?= y); simpl; auto.
Qed.

Lemma lex_compare_eq (a b : list Z) :
  List.length a = List.length b → lex_compare a b = Eq → a = b.
Proof.
  revert b; induction a as [|x a IH]; intros [|y b]; simpl; try discriminate;
    auto.
  intros Hlen. destruct (Z.compare_spec x y) as [Hxy| |]; try discriminate.
  intros E. subst. f_equal. apply IH; auto.
Qed.

Lemma lex_compare_le_trans (a b c : list Z) :
  lex_compare a b ≠ Gt → lex_compare b c ≠ Gt → lex_compare a c ≠ Gt.
Proof.
  revert b c; induction a as [|x a IH]; intros [|y b] [|z c]; simpl;
    try congruence.
  destruct (Z.compare_spec x y), (Z.compare_spec y z), (Z.compare_spec x z);
    try congruence; try lia.
  apply IH.
Qed.

Lemma dt_le_iff (a b : datetime) : dt_le a b ↔ datetime_compare a b ≠ Gt.
Proof.
  unfold dt_le, dt_leb. destruct (datetime_compare a b); split; congruence.
Qed.

Global Instance dt_le_refl : Reflexive dt_le.
Proof.
  intros a. apply dt_le_iff. unfold datetime_compare.
  now rewrite lex_compare_refl.
Qed.

Global Instance dt_le_trans : Transitive dt_le.
Proof.
  intros a b c. rewrite !dt_le_iff. apply lex_compare_le_trans.
Qed.

Global Instance dt_le_total : Total dt_le.
Proof.
  intros a b. rewrite !dt_le_iff. unfold datetime_compare.
  rewrite (lex_compare_swap (datetime_fields a) (datetime_fields b)).
  destruct (lex_compare (datetime_fields a) (datetime_fields b)); simpl;
    [left | left | right]; congruence.
Qed.

Lemma dt_le_antisym (a b : datetime) : dt_le a b → dt_le b a → a = b.
Proof.
  rewrite !dt_le_iff. unfold datetime_compare.
  rewrite (lex_compare_swap (datetime_fields a) (datetime_fields b)).
  destruct (lex_compare (datetime_fields a) (datetime_fields b)) eqn:E;
    simpl; try congruence.
  intros _ _. apply lex_compare_eq in E; [|reflexivity].
  destruct a, b; simpl in *. inversion E; subst; reflexivity.
Qed.

Global Instance date_ge_trans : Transitive date_ge.
Proof.
  intros a b c. unfold date_ge, date_compare. intros H1 H2.
  rewrite lex_compare_swap in H1, H2 |- *.
  assert (G : lex_compare (date_fields c) (date_fields a) ≠ Gt).
  { apply lex_compare_le_trans with (date_fields b).
    - destruct (lex_compare (date_fields c) (date_fields b)); simpl in *;
        congruence.
    - destruct (lex_compare (date_fields b) (date_fields a)); simpl in *;
        congruence. }
  destruct (lex_compare (date_fields c) (date_fields a)); simpl; congruence.
Qed.

Global Instance date_ge_total : Total date_ge.
Proof.
  intros a b. unfold date_ge, date_compare.
  rewrite (lex_compare_swap (date_fields a) (date_fields b)).
  destruct (lex_compare (date_fields a) (date_fields b)); simpl;
    [left | right | left]; congruence.
Qed.

Lemma date_ge_antisym (a b : date) : date_ge a b → date_ge b a → a = b.
Proof.
  unfold date_ge, date_compare.
  rewrite (lex_compare_swap (date_fields a) (date_fields b)).
  destruct (lex_compare (date_fields a) (date_fields b)) eqn:E;
    simpl; try congruence.
  intros _ _. apply lex_compare_eq in E; [|reflexivity].
  destruct a, b; simpl in *. inversion E; subst; reflexivity.
Qed.

(** *** Ordinals, for [datetime - timedelta(days=n)] *)

Definition days_before_year (y : Z) : Z :=
  let y := y - 1 in y * 365 + y / 4 - y / 100 + y / 400.

Fixpoint days_before_month_aux (y : Z) (m : nat) : Z :=
  match m with
  | O => 0
  | S m' => days_before_month_aux y m' + days_in_month y (Z.of_nat m)
  end.

(** Days of year [y] before the first of month [m]. *)
Definition days_before_month (y m : Z) : Z :=
  days_before_month_aux y (Z.to_nat (m - 1)).

Definition ymd2ord (y m d : Z) : Z :=
  days_before_year y + days_before_month y m + d.

Definition DI400Y : Z := 146097.
Definition DI100Y : Z := 36524.
Definition DI4Y : Z := 1461.

(** [_ord2ymd] of CPython's [datetime]. *)
Definition ord2ymd (n : Z) : date :=
  let n := n - 1 in
  let n400 := n / DI400Y in let n := n mod DI400Y in
  let y := n400 * 400 + 1 in
  let n100 := n / DI100Y in let n := n mod DI100Y in
  let n4 := n / DI4Y in let n := n mod DI4Y in
  let n1 := n / 365 in let n := n mod 365 in
  let y := y + n100 * 100 + n4 * 4 + n1 in
  if (n1 =? 4) || (n100 =? 4) then MkDate (y - 1) 12 31
  else
    let leapyear := (n1 =? 3) && (negb (n4 =? 24) || (n100 =? 3)) in
    let m := Z.shiftr (n + 50) 5 in
    let preceding :=
      days_before_month 1 m + (if (m >? 2) && leapyear then 1 else 0) in
    if preceding >? n then
      let m := m - 1 in
      let preceding :=
        preceding
        - (days_in_month 1 m + (if (m =? 2) && leapyear then 1 else 0)) in
      MkDate y m (n - preceding + 1)
    else MkDate y m (n - preceding + 1).

Definition toordinal (t : datetime) : Z := ymd2ord (year t) (month t) (day t).

Definition max_ordinal : Z := 3652059.

(** [t - timedelta(days=n)]: the time of day is kept; a date outside the
    years 1..9999 is an [OverflowError]. *)
Definition sub_days (t : datetime) (n : Z) : result datetime :=
  let o := toordinal t - n in
  if (1 <=? o) && (o <=? max_ordinal) then
    let d := ord2ymd o in
    Ok (MkDatetime (d_year d) (d_month d) (d_day d)
          (hour t) (minute t) (second t) (microsecond t))
  else raise OverflowError "date value out of range".

(** *** Formatting *)

Definition digit_char (d : Z) : ascii :=
  ascii_of_nat (Z.to_nat (48 + d mod 10)).

(** [%02d] of a field in 0..99 and [%04d] of a year in 0..9999. *)
Definition pad2 (n : Z) : string :=
  String (digit_char (n / 10)) (String (digit_char n) "").

Definition pad4 (n : Z) : string :=
  String (digit_char (n / 1000)) (String (digit_char (n / 100)) (pad2 n)).

(** [d.isoformat()], which is [str(d)]. *)
Definition format_ymd (y m d : Z) : string :=
  pad4 y +:+ "-" +:+ pad2 m +:+ "-" +:+ pad2 d.

Definition date_str (d : date) : string :=
  format_ymd (d_year d) (d_month d) (d_day d).

(** [t.strftime("%Y-%m-%d")].  The [%Y] of the C library prints the years
    from 1000 on in four digits and leaves the earlier ones unpadded; the
    three [strftime] below are those of a timestamp from the year 1000 on,
    as every reading of [datetime.utcnow()] is. *)
Definition strftime_ymd (t : datetime) : string :=
  format_ymd (year t) (month t) (day t).

(** [t.strftime("%Y-%m-%d %H:%M:%S")]. *)
Definition strftime_ymd_hms (t : datetime) : string :=
  format_ymd (year t) (month t) (day t) +:+ " " +:+
  pad2 (hour t) +:+ ":" +:+ pad2 (minute t) +:+ ":" +:+ pad2 (second t).

(** The shape [YYYY-MM-DD HH:MM:SS], character by character. *)
Definition is_ymd_hms (s : string) : bool :=
  match list_ascii_of_string s with
  | [y1; y2; y3; y4; s1; m1; m2; s2; d1; d2; sp; h1; h2; c1; n1; n2; c2;
     e1; e2] =>
      forallb is_digit [y1; y2; y3; y4; m1; m2; d1; d2; h1; h2; n1; n2; e1; e2]
      && bool_decide ([s1; s2; sp; c1; c2] = ["-"; "-"; " "; ":"; ":"]%char)
  | _ => false
  end.

(** *** Parsing: [datetime.strptime(s, "%Y-%m-%d")]

    The directives compile to the regular expressions
    [\d\d\d\d], [1[0-2]|0[1-9]|[1-9]] and
    [3[01]|[12]\d|0[1-9]|[1-9]| [1-9]]; the whole input has to be consumed
    and the fields have to form a date. *)

Definition digit_val (c : ascii) : Z := code c - 48.

Definition parse_year (s : list ascii) : option (Z * list ascii) :=
  match s with
  | a :: b :: c :: d :: rest =>
      if is_digit a && is_digit b && is_digit c && is_digit d then
        Some (digit_val a * 1000 + digit_val b * 100 + digit_val c * 10
              + digit_val d, rest)
      else None
  | _ => None
  end.

Definition parse_month (s : list ascii) : option (Z * list ascii) :=
  match s with
  | a :: rest =>
      match rest with
      | b :: rest' =>
          if (code a =? 49) && is_digit b && (digit_val b <=? 2) then
            Some (10 + digit_val b, rest')
          else if (code a =? 48) && is_digit b && (1 <=? digit_val b) then
            Some (digit_val b, rest')
          else if is_digit a && (1 <=? digit_val a) then
            Some (digit_val a, rest)
          else None
      | [] =>
          if is_digit a && (1 <=? digit_val a) then Some (digit_val a, rest)
          else None
      end
  | [] => None
  end.

Definition parse_day (s : list ascii) : option (Z * list ascii) :=
  match s with
  | a :: rest =>
      match rest with
      | b :: rest' =>
          if (code a =? 51) && is_digit b && (digit_val b <=? 1) then
            Some (30 + digit_val b, rest')
          else if is_digit a && (1 <=? digit_val a) && (digit_val a <=? 2)
                  && is_digit b then
            Some (digit_val a * 10 + digit_val b, rest')
          else if (code a =? 48) && is_digit b && (1 <=? digit_val b) then
            Some (digit_val b, rest')
          else if is_digit a && (1 <=? digit_val a) then
            Some (digit_val a, rest)
          else if (code a =? 32) && is_digit b && (1 <=? digit_val b) then
            Some (digit_val b, rest')
          else None
      | [] =>
          if is_digit a && (1 <=? digit_val a) then Some (digit_val a, rest)
          else None
      end
  | [] => None
  end.

Definition expect (c : ascii) (s : list ascii) : option (list ascii) :=
  match s with
  | a :: rest => if bool_decide (a = c) then Some rest else None
  | [] => None
  end.

(** [None] stands for the [ValueError] of [strptime]. *)
Definition strptime_ymd (s : string) : option datetime :=
  '(y, s1) ← parse_year (list_ascii_of_string s);
  s2 ← expect "-"%char s1;
  '(m, s3) ← parse_month s2;
  s4 ← expect "-"%char s3;
  '(d, s5) ← parse_day s4;
  match s5 with
  | [] => if valid_date y m d then Some (MkDatetime y m d 0 0 0 0) else None
  | _ :: _ => None
  end.

Definition validate_date_format (date_str : string) : result datetime :=
  if bool_decide (date_str = "") then
    raise ValueError "Date cannot be empty"
  else
    match strptime_ymd date_str with
    | Some t => Ok t
    | None =>
        raise ValueError
          "Invalid date format. Use YYYY-MM-DD (e.g., 2026-01-19)"
    end.

(** ** Floats

    The arithmetic of Python's [float] is that of the machine: [+], [-],
    [/] and the comparisons below are the binary64 operations of the
    kernel.  Two operations of CPython are not machine instructions and are
    written out on exact values: [int / int], the float nearest to the
    quotient, and [round(x, 2)], the float nearest to the decimal that the
    exact value of [x] rounds to. *)

(** Round half to even, to an integer. *)
Definition round_half_even (x : Q) : Z :=
  let f := Qfloor x in
  match Qcompare (x - inject_Z f) (1 # 2) with
  | Lt => f
  | Gt => f + 1
  | Eq => if Z.even f then f else f + 1
  end.

(** The exact value of a finite float; an infinity and NaN, which have
    none, are given 0. *)
Definition SF2Q (x : SpecFloat.spec_float) : Q :=
  match x with
  | SpecFloat.S754_finite s m e =>
      ((if s then -1 else 1) * inject_Z (Z.pos m) * 2 ^ e)%Q
  | _ => 0%Q
  end.

Definition float_value (x : float) : Q := SF2Q (FloatOps.Prim2SF x).

(** The floats that have a value: the zeros and the finite numbers. *)
Definition SF_finite (x : SpecFloat.spec_float) : bool :=
  match x with
  | SpecFloat.S754_zero _ | SpecFloat.S754_finite _ _ _ => true
  | _ => false
  end.

Definition float_finite (x : float) : bool := SF_finite (FloatOps.Prim2SF x).

(** [floor(log2(a))] of a positive rational. *)
Definition Qlog2 (a : Q) : Z :=
  let k := Z.log2 (Qnum a) - Z.log2 (Z.pos (Qden a)) in
  if Qle_bool (2 ^ k) a then k else k - 1.

(** The binary64 number of sign [s] whose magnitude is nearest to [a >= 0],
    ties to the even mantissa: 53 bits, the last of them worth [2 ^ u] with
    [u] from -1074 (the subnormal numbers) to 971, beyond which the result
    is an infinity. *)
Definition nearest (s : bool) (a : Q) : SpecFloat.spec_float :=
  if Qle_bool a 0 then SpecFloat.S754_zero s
  else
    let u := Z.max (Qlog2 a - 52) (-1074) in
    let m := round_half_even (a / 2 ^ u) in
    let '(m, u) := if m =? 2 ^ 53 then (2 ^ 52, u + 1) else (m, u) in
    match m with
    | Z.pos p =>
        if u <=? 971 then SpecFloat.S754_finite s p u
        else SpecFloat.S754_infinity s
    | _ => SpecFloat.S754_zero s
    end.

(** [float(n)] of an int. *)
Definition float_of_Z (n : Z) : float :=
  FloatOps.SF2Prim (nearest (n <? 0) (inject_Z (Z.abs n))).

(** [round(x, 2)]: the exact value of [x] is rounded half to even to a
    multiple [n / 100] of one hundredth, and the result is the float nearest
    to that decimal, with the sign of [x]; a zero, an infinity and NaN are
    returned as they are. *)
Definition round2 (x : float) : float :=
  match FloatOps.Prim2SF x with
  | SpecFloat.S754_finite s m e =>
      let n := round_half_even (inject_Z (Z.pos m) * 2 ^ e * 100) in
      FloatOps.SF2Prim (nearest s (inject_Z n / 100))
  | _ => x
  end.

(** A float is falsy when it is zero. *)
Definition float_truthy (x : float) : bool := negb (x =? 0)%float.

(** [a / n] for a float [a] and a length [n], which is converted to a
    float first: [ZeroDivisionError] on an empty list. *)
Definition truediv (a : float) (n : nat) : result float :=
  match n with
  | O => raise ZeroDivisionError "float division by zero"
  | S _ => Ok (a / float_of_Z (Z.of_nat n))%float
  end.

(** [a / b] on ints: the float nearest to the quotient.  (Its
    [OverflowError], for a quotient of 2 ^ 1024 or more, is beyond the sums
    of an [Integer] column and is not represented: such a quotient is an
    infinity here.) *)
Definition int_truediv (a b : Z) : result float :=
  if b =? 0 then raise ZeroDivisionError "division by zero"
  else
    Ok (FloatOps.SF2Prim
          (nearest (xorb (a <? 0) (b <? 0))
             (Qabs (inject_Z a / inject_Z b)))).

(** A column value used as a number: [None] is a [TypeError]. *)
Definition require {A} (msg : string) (v : option A) : result A :=
  match v with
  | Some x => Ok x
  | None => raise TypeError msg
  end.

Fixpoint mapM {A B} (f : A → result B) (l : list A) : result (list B) :=
  match l with
  | [] => Ok []
  | x :: l' => y ← f x; ys ← mapM f l'; Ok (y :: ys)
  end.

(** [sum] of floats: the additions are made from left to right, starting
    from 0 (as CPython does up to version 3.11; later versions compensate
    the rounding errors of the additions). *)
Definition float_sum (l : list float) : float := foldl add 0%float l.
Definition Zsum (l : list Z) : Z := foldl Z.add 0 l.

(** One step of [min] and of [max]: the item replaces the current value
    when [item < value], respectively [item > value]. *)
Definition float_min (value item : float) : float :=
  if (item <? value)%float then item else value.
Definition float_max (value item : float) : float :=
  if (value <? item)%float then item else value.

(** [sum], [min] and [max] of a list of nullable floats. *)
Definition py_sum (l : list (option float)) : result float :=
  xs ← mapM (require "unsupported operand type(s) for +") l;
  Ok (float_sum xs).

Definition py_min (l : list (option float)) : result float :=
  xs ← mapM (require "'<' not supported for 'NoneType'") l;
  match xs with
  | [] => raise ValueError "min() arg is an empty sequence"
  | x :: r => Ok (foldl float_min x r)
  end.

Definition py_max (l : list (option float)) : result float :=
  xs ← mapM (require "'>' not supported for 'NoneType'") l;
  match xs with
  | [] => raise ValueError "max() arg is an empty sequence"
  | x :: r => Ok (foldl float_max x r)
  end.

(** [sum(l) / len(l) if l else 0] on nullable floats. *)
Definition mean_or_zero (l : list (option float)) : result float :=
  match l with
  | [] => Ok 0%float
  | _ :: _ => s ← py_sum l; truediv s (List.length l)
  end.

(** ** The two tables ([app/models.py]) *)

Module City.
Record t : Type := mk {
  id : Z;
  name : string;
  country : option string;
  lat : option float;
  lon : option float;
  created_at : datetime
}.
End City.

Module WeatherRecord.
Record t : Type := mk {
  id : Z;
  city_id : Z;
  temperature : option float;
  humidity : option Z;
  pressure : option Z;
  weather_main : option string;
  recorded_at : datetime
}.
End WeatherRecord.

(** The order of [ORDER BY recorded_at] and that of its [DESC]. *)
Definition rec_le (a b : WeatherRecord.t) : Prop :=
  dt_le (WeatherRecord.recorded_at a) (WeatherRecord.recorded_at b).

Global Instance rec_le_dec a b : Decision (rec_le a b).
Proof. unfold rec_le. apply _. Defined.

Definition rec_ge (a b : WeatherRecord.t) : Prop := rec_le b a.

Global Instance rec_ge_dec a b : Decision (rec_ge a b).
Proof. unfold rec_ge. apply _. Defined.

Global Instance rec_le_trans : Transitive rec_le.
Proof. intros a b c. unfold rec_le. apply dt_le_trans. Qed.

Global Instance rec_le_total : Total rec_le.
Proof. intros a b. unfold rec_le. apply dt_le_total. Qed.

Global Instance rec_ge_trans : Transitive rec_ge.
Proof. intros a b c H1 H2. unfold rec_ge in *. etransitivity; eauto. Qed.

Global Instance rec_ge_total : Total rec_ge.
Proof. intros a b. unfold rec_ge. destruct (rec_le_total a b); auto. Qed.

(** The storage handle: the rows of each table, in the order in which a
    query without [order_by] yields them, and the two [ORDER BY] that the
    queries use, [.order_by(WeatherRecord.recorded_at)] and
    [.order_by(WeatherRecord.recorded_at.desc())].  Of these only the
    contract is known: the rows come back sorted, each as often as it was
    given.  Which of two rows with the same timestamp comes first is the
    choice of the engine. *)
Record Session : Type := mkSession {
  cities : list City.t;
  weather_records : list WeatherRecord.t;
  order_by_recorded_at : list WeatherRecord.t → list WeatherRecord.t;
  order_by_recorded_at_desc : list WeatherRecord.t → list WeatherRecord.t;
  ascending_Permutation : ∀ l, order_by_recorded_at l ≡ₚ l;
  ascending_Sorted : ∀ l, Sorted rec_le (order_by_recorded_at l);
  descending_Permutation : ∀ l, order_by_recorded_at_desc l ≡ₚ l;
  descending_Sorted : ∀ l, Sorted rec_ge (order_by_recorded_at_desc l)
}.

(** [db.query(City).filter(City.name == n).first()]. *)
Definition city_by_name (db : Session) (n : string) : option City.t :=
  head (filter (λ c, City.name c = n) (cities db)).

(** [db.query(WeatherRecord).filter(WeatherRecord.city_id == cid).all()]. *)
Definition records_of (db : Session) (cid : Z) : list WeatherRecord.t :=
  filter (λ r, WeatherRecord.city_id r = cid) (weather_records db).

(** ** [app/services/analytics_service.py] *)

(** *** Historical export *)

Module Historical.
Record t : Type := mk {
  id : Z;
  recorded_at : string;
  temperature : option float;
  humidity : option Z;
  pressure : option Z;
  weather_main : option string
}.
End Historical.

Definition in_bounds (start_date end_date : option datetime)
  (r : WeatherRecord.t) : bool :=
  match start_date with
  | Some s => dt_geb (WeatherRecord.recorded_at r) s
  | None => true
  end
  && match end_date with
     | Some e => dt_leb (WeatherRecord.recorded_at r) e
     | None => true
     end.

Definition export_row (r : WeatherRecord.t) : Historical.t :=
  Historical.mk (WeatherRecord.id r)
    (strftime_ymd_hms (WeatherRecord.recorded_at r))
    (WeatherRecord.temperature r) (WeatherRecord.humidity r)
    (WeatherRecord.pressure r) (WeatherRecord.weather_main r).

Definition export_records (db : Session) (city_id : Z)
  (start_date end_date : option datetime) : list WeatherRecord.t :=
  order_by_recorded_at db
    (filter (λ r, in_bounds start_date end_date r = true)
       (records_of db city_id)).

Definition export_historical_data (db : Session) (city_id : Z)
  (start_date end_date : option datetime) : list Historical.t :=
  export_row <$> export_records db city_id start_date end_date.

(** *** Daily average *)

Module DailyAverage.
Record t : Type := mk {
  date : string;
  avg_temperature : float;
  record_count : Z
}.
End DailyAverage.

(** SQL [avg] on a [double precision] column: nulls are skipped and the
    average of no value is null.  The aggregate keeps the number [N] of the
    values and their sum [Sx], two binary64 numbers that start at 0 and are
    updated row by row, and returns [Sx / N]. *)
Definition float8_count (l : list float) : float :=
  foldl (λ n _, n + 1)%float 0%float l.

Definition sql_avg (l : list (option float)) : option float :=
  match omap id l with
  | [] => None
  | xs => Some (float_sum xs / float8_count xs)%float
  end.

(** [if days:] on an optional int: [None] and [0] are falsy. *)
Definition int_truthy (days : option Z) : option Z :=
  match days with
  | Some 0 => None
  | _ => days
  end.

Definition rec_date (r : WeatherRecord.t) : date :=
  date_of (WeatherRecord.recorded_at r).

(** The rows the daily query aggregates: those of the city, from
    [start_date] on when the window is given. *)
Definition daily_rows (db : Session) (city_id : Z) (start_date : option datetime)
  : list WeatherRecord.t :=
  filter (λ r, in_bounds start_date None r = true) (records_of db city_id).

(** [GROUP BY date(recorded_at) ORDER BY date(recorded_at) DESC]: the
    distinct dates, latest first. *)
Definition group_dates (rows : list WeatherRecord.t) : list date :=
  merge_sort date_ge (remove_dups (rec_date <$> rows)).

Definition rows_on (d : date) (rows : list WeatherRecord.t)
  : list WeatherRecord.t :=
  filter (λ r, rec_date r = d) rows.

(** One element of the returned list; [float(None)] is a [TypeError]. *)
Definition daily_item (rows : list WeatherRecord.t) (d : date)
  : result DailyAverage.t :=
  let group := rows_on d rows in
  a ← require "float() argument must be a string or a real number"
        (sql_avg (WeatherRecord.temperature <$> group));
  Ok (DailyAverage.mk (date_str d) (round2 a) (Z.of_nat (List.length group))).

Definition get_daily_average_temperature (db : Session) (city_id : Z)
  (days : option Z) (now : datetime) : result (list DailyAverage.t) :=
  start_date ←
    match int_truthy days with
    | Some d => s ← sub_days now d; Ok (Some s)
    | None => Ok None
    end;
  let rows := daily_rows db city_id start_date in
  mapM (daily_item rows) (group_dates rows).

(** *** Trend analysis *)

Module TrendPoint.
Record t : Type := mk {
  date : string;
  temperature : option float;
  humidity : option Z;
  pressure : option Z
}.
End TrendPoint.

Module Trend.
Record t : Type := mk {
  avg_temperature : float;
  min_temperature : float;
  max_temperature : float;
  temperature_change : float;
  trend_direction : string;
  record_count : Z;
  daily_data : list TrendPoint.t
}.
End Trend.

Definition trend_records (db : Session) (city_id : Z)
  (start_date end_date : datetime) : list WeatherRecord.t :=
  order_by_recorded_at db
    (filter (λ r, in_bounds (Some start_date) (Some end_date) r = true)
       (records_of db city_id)).

(** [if temp_change > 0.5: ... elif temp_change < -0.5: ... else: ...]. *)
Definition classify (temp_change : float) : string :=
  if (0.5 <? temp_change)%float then "increasing"
  else if (temp_change <? -0.5)%float then "decreasing"
  else "stable".

Definition trend_point (r : WeatherRecord.t) : TrendPoint.t :=
  TrendPoint.mk (strftime_ymd (WeatherRecord.recorded_at r))
    (WeatherRecord.temperature r) (WeatherRecord.humidity r)
    (WeatherRecord.pressure r).

Definition halfway {A} (l : list A) : nat := (List.length l / 2)%nat.

(** The body of [get_weather_trend] once the records are fetched. *)
Definition trend_of (records : list WeatherRecord.t) : result (option Trend.t) :=
  match records with
  | [] => Ok None
  | _ :: _ =>
      let temperatures := WeatherRecord.temperature <$> records in
      s ← py_sum temperatures;
      avg_temp ← truediv s (List.length temperatures);
      min_temp ← py_min temperatures;
      max_temp ← py_max temperatures;
      let first_half := take (halfway temperatures) temperatures in
      let second_half := drop (halfway temperatures) temperatures in
      first_avg ← mean_or_zero first_half;
      second_avg ← mean_or_zero second_half;
      let temp_change := (second_avg - first_avg)%float in
      let trend_direction := classify temp_change in
      let daily_data := trend_point <$> records in
      Ok (Some (Trend.mk (round2 avg_temp) (round2 min_temp) (round2 max_temp)
                  (round2 temp_change) trend_direction
                  (Z.of_nat (List.length records)) daily_data))
  end.

Definition get_weather_trend (db : Session) (city_id : Z) (days : Z)
  (now : datetime) : result (option Trend.t) :=
  let end_date := now in
  start_date ← sub_days end_date days;
  trend_of (trend_records db city_id start_date end_date).

(** *** Humidity and pressure patterns *)

Module IntStats.
Record t : Type := mk { average : float; min : Z; max : Z }.
End IntStats.

Module Patterns.
Record t : Type := mk {
  humidity : IntStats.t;
  pressure : IntStats.t;
  weather_conditions : gmap string Z;
  total_records : Z
}.
End Patterns.

(** [[x for x in column if x]] on ints, floats and strings. *)
Definition truthy_ints (l : list (option Z)) : list Z :=
  filter (λ z, z ≠ 0) (omap id l).

Definition truthy_floats (l : list (option float)) : list float :=
  filter (λ x, float_truthy x = true) (omap id l).

Definition truthy_strings (l : list (option string)) : list string :=
  filter (λ s, s ≠ "") (omap id l).

Definition int_min (l : list Z) : result Z :=
  match l with
  | [] => raise ValueError "min() arg is an empty sequence"
  | x :: r => Ok (foldl Z.min x r)
  end.

Definition int_max (l : list Z) : result Z :=
  match l with
  | [] => raise ValueError "max() arg is an empty sequence"
  | x :: r => Ok (foldl Z.max x r)
  end.

(** The dictionary
    [{"average": round(sum(xs) / len(xs), 2) if xs else 0,
      "min": min(xs) if xs else 0, "max": max(xs) if xs else 0}]. *)
Definition int_stats (xs : list Z) : result IntStats.t :=
  match xs with
  | [] => Ok (IntStats.mk 0%float 0 0)
  | _ :: _ =>
      a ← int_truediv (Zsum xs) (Z.of_nat (List.length xs));
      lo ← int_min xs;
      hi ← int_max xs;
      Ok (IntStats.mk (round2 a) lo hi)
  end.

(** [condition_counts[c] = condition_counts.get(c, 0) + 1]. *)
Definition count_condition (counts : gmap string Z) (c : string)
  : gmap string Z :=
  <[c := default 0 (counts !! c) + 1]> counts.

Definition patterns_of (records : list WeatherRecord.t)
  : result (option Patterns.t) :=
  match records with
  | [] => Ok None
  | _ :: _ =>
      let humidities := truthy_ints (WeatherRecord.humidity <$> records) in
      let pressures := truthy_ints (WeatherRecord.pressure <$> records) in
      let weather_conditions :=
        truthy_strings (WeatherRecord.weather_main <$> records) in
      humidity_stats ← int_stats humidities;
      pressure_stats ← int_stats pressures;
      let condition_counts := foldl count_condition ∅ weather_conditions in
      Ok (Some (Patterns.mk humidity_stats pressure_stats condition_counts
                  (Z.of_nat (List.length records))))
  end.

Definition get_humidity_pressure_patterns (db : Session) (city_id : Z)
  : result (option Patterns.t) :=
  patterns_of (records_of db city_id).

(** *** Multi-city comparison *)

Module FloatStats.
Record t : Type := mk { average : float; min : float; max : float }.
End FloatStats.

Module Comparison.
Record t : Type := mk {
  city_id : Z;
  country : option string;
  temperature : FloatStats.t;
  humidity : IntStats.t;
  pressure : IntStats.t;
  total_records : Z;
  latest_record : option string
}.
End Comparison.

Definition float_stats (xs : list float) : result FloatStats.t :=
  match xs with
  | [] => Ok (FloatStats.mk 0%float 0%float 0%float)
  | x :: r =>
      a ← truediv (float_sum xs) (List.length xs);
      Ok (FloatStats.mk (round2 a) (round2 (foldl float_min x r))
            (round2 (foldl float_max x r)))
  end.

(** [records[-1]]. *)
Definition last_record (records : list WeatherRecord.t)
  : result WeatherRecord.t :=
  match last records with
  | Some r => Ok r
  | None => raise IndexError "list index out of range"
  end.

(** The value stored under one city name. *)
Definition comparison_entry (city_obj : City.t)
  (records : list WeatherRecord.t) : result Comparison.t :=
  let temperatures := truthy_floats (WeatherRecord.temperature <$> records) in
  let humidities := truthy_ints (WeatherRecord.humidity <$> records) in
  let pressures := truthy_ints (WeatherRecord.pressure <$> records) in
  t ← float_stats temperatures;
  h ← int_stats humidities;
  p ← int_stats pressures;
  latest ←
    match records with
    | [] => Ok None
    | _ :: _ =>
        r ← last_record records;
        Ok (Some (strftime_ymd_hms (WeatherRecord.recorded_at r)))
    end;
  Ok (Comparison.mk (City.id city_obj) (City.country city_obj) t h p
        (Z.of_nat (List.length records)) latest).

Fixpoint compare_loop (db : Session) (city_names : list string)
  (comparison_data : gmap string Comparison.t)
  : result (gmap string Comparison.t) :=
  match city_names with
  | [] => Ok comparison_data
  | city_name :: rest =>
      match city_by_name db city_name with
      | None => compare_loop db rest comparison_data
      | Some city_obj =>
          match records_of db (City.id city_obj) with
          | [] => compare_loop db rest comparison_data
          | records =>
              entry ← comparison_entry city_obj records;
              compare_loop db rest (<[city_name := entry]> comparison_data)
          end
      end
  end.

Definition compare_cities (db : Session) (city_names : list string)
  : result (gmap string Comparison.t) :=
  compare_loop db city_names ∅.

(** ** The endpoints ([app/routers/analytics.py]) *)

Inductive http (A : Type) : Type :=
  | Http200 (body : A)
  | HTTPException (status_code : Z) (detail : string).
Arguments Http200 {A} body.
Arguments HTTPException {A} status_code detail.

Definition status_code {A} (r : http A) : Z :=
  match r with
  | Http200 _ => 200
  | HTTPException c _ => c
  end.

(** The [except] clauses that close every analytics endpoint:
    [ValidationError] is a 400, the classes of [not_found] are a 404 and
    any other [Exception] is a 500. *)
Definition respond {A} (not_found : list exc_class) (r : result A) : http A :=
  match r with
  | Ok body => Http200 body
  | Raise e =>
      if issubclass (exn_class e) ValidationError then
        HTTPException 400 (exn_msg e)
      else if existsb (issubclass (exn_class e)) not_found then
        HTTPException 404 (exn_msg e)
      else HTTPException 500 ("Internal server error: " +:+ exn_msg e)
  end.

(** [if s:] on an optional query string. *)
Definition str_truthy (s : option string) : option string :=
  match s with
  | Some "" => None
  | _ => s
  end.

Definition find_city (db : Session) (city : string) : result City.t :=
  match city_by_name db city with
  | Some c => Ok c
  | None => raise CityNotFoundError ("City '" +:+ city +:+ "' not found")
  end.

Module HistoricalDataResponse.
Record t : Type := mk {
  city : string;
  total_records : Z;
  start_date : option string;
  end_date : option string;
  records : list Historical.t
}.
End HistoricalDataResponse.

(** [HistoricalRecord(...)]: the schema has no optional field. *)
Definition historical_record (r : Historical.t) : result Historical.t :=
  if bool_decide (is_Some (Historical.temperature r))
     && bool_decide (is_Some (Historical.humidity r))
     && bool_decide (is_Some (Historical.pressure r))
     && bool_decide (is_Some (Historical.weather_main r))
  then Ok r
  else raise ResponseValidationError "validation error for HistoricalRecord".

Definition parse_optional_date (s : option string) : result (option datetime) :=
  match str_truthy s with
  | Some s => t ← validate_date_format s; Ok (Some t)
  | None => Ok None
  end.

Definition export_historical_body (db : Session) (city : string)
  (start_date end_date : option string) : result HistoricalDataResponse.t :=
  city ← validate_city_name city;
  start_dt ← parse_optional_date start_date;
  end_dt ← parse_optional_date end_date;
  _ ← match start_dt, end_dt with
      | Some s, Some e =>
          if dt_gtb s e then
            raise ValidationError
              "start_date must be before or equal to end_date"
          else Ok ()
      | _, _ => Ok ()
      end;
  city_obj ← find_city db city;
  let records := export_historical_data db (City.id city_obj) start_dt end_dt in
  match records with
  | [] =>
      raise WeatherDataNotFoundError
        ("No weather records found for '" +:+ city +:+ "'" +:+
         match str_truthy start_date, str_truthy end_date with
         | None, None => ""
         | _, _ =>
             " between " +:+ default "None" start_date +:+ " and " +:+
             default "None" end_date
         end)
  | _ :: _ =>
      rs ← mapM historical_record records;
      Ok (HistoricalDataResponse.mk (City.name city_obj)
            (Z.of_nat (List.length records)) start_date end_date rs)
  end.

(** [GET /analytics/export]. *)
Definition export_historical (db : Session) (city : string)
  (start_date end_date : option string) : http HistoricalDataResponse.t :=
  respond [CityNotFoundError; WeatherDataNotFoundError]
    (export_historical_body db city start_date end_date).

(** [s.split(",")]. *)
Fixpoint split_comma (s : string) : list string :=
  match s with
  | EmptyString => [EmptyString]
  | String c s' =>
      if bool_decide (c = ","%char) then EmptyString :: split_comma s'
      else
        match split_comma s' with
        | w :: ws => String c w :: ws
        | [] => [String c EmptyString]
        end
  end.

(** The loop that validates each name of a comparison: the [ValueError] of
    [validate_city_name] is turned into a [ValidationError]. *)
Definition validate_compared (city : string) : result string :=
  match validate_city_name city with
  | Ok c => Ok c
  | Raise e =>
      if issubclass (exn_class e) ValueError then
        raise ValidationError
          ("Invalid city name '" +:+ city +:+ "': " +:+ exn_msg e)
      else Raise e
  end.

(** [CityComparisonData(...)]: [country] is a required string. *)
Definition comparison_data_ok (c : Comparison.t) : bool :=
  bool_decide (is_Some (Comparison.country c)).

Definition compare_cities_body (db : Session) (cities : string)
  : result (gmap string Comparison.t) :=
  if bool_decide (cities = "") || bool_decide (strip cities = "") then
    raise ValidationError "At least one city must be provided"
  else
    let city_names :=
      filter (λ c, c ≠ "") (strip <$> split_comma cities) in
    match city_names with
    | [] => raise ValidationError "At least one valid city must be provided"
    | _ :: _ =>
        if (10 <? Z.of_nat (List.length city_names)) then
          raise ValidationError "Maximum 10 cities can be compared at once"
        else
          validated_cities ← mapM validate_compared city_names;
          comparison_data ← compare_cities db validated_cities;
          if bool_decide (comparison_data = ∅) then
            raise CityNotFoundError "No valid cities found for comparison"
          else if bool_decide (map_Forall (λ _ c, comparison_data_ok c = true)
                                 comparison_data)
          then Ok comparison_data
          else raise ResponseValidationError
                 "validation error for CityComparisonResponse"
    end.

(** [GET /analytics/compare]. *)
Definition compare_cities_endpoint (db : Session) (cities : string)
  : http (gmap string Comparison.t) :=
  respond [CityNotFoundError] (compare_cities_body db cities).

(** ** Ingestion ([app/services/weather_service.py]) *)

(** What [response.json()] yields. *)
#[local] Set Warnings "-register-all".
Inductive json : Type :=
  | JNull
  | JBool (b : bool)
  | JInt (z : Z)
  | JFloat (x : float)
  | JStr (s : string)
  | JArr (items : list json)
  | JObj (fields : list (string * json)).

(** The outcome of [requests.get(url, params=params, timeout=10)]: an
    exception, or a response with its status and its body ([None] when the
    body is not JSON). *)
Inductive reply : Type :=
  | GetRaises (e : exn)
  | Response (status_code : Z) (body : option json).

(** A key of a dict built from a JSON object: the last binding wins. *)
Fixpoint obj_lookup (k : string) (fields : list (string * json)) : option json :=
  match fields with
  | [] => None
  | (k', v) :: rest =>
      match obj_lookup k rest with
      | Some v' => Some v'
      | None => if bool_decide (k' = k) then Some v else None
      end
  end.

Definition is_substring (k s : string) : bool :=
  bool_decide (is_Some (String.index 0 k s)).

Definition is_JStr (k : string) (v : json) : bool :=
  match v with
  | JStr s => bool_decide (s = k)
  | _ => false
  end.

(** [k in data]. *)
Definition py_contains (k : string) (data : json) : result bool :=
  match data with
  | JObj fields => Ok (bool_decide (is_Some (obj_lookup k fields)))
  | JArr items => Ok (existsb (is_JStr k) items)
  | JStr s => Ok (is_substring k s)
  | _ => raise TypeError "argument is not iterable"
  end.

(** [data.get(k, default)]. *)
Definition py_get (data : json) (k : string) (default : json) : result json :=
  match data with
  | JObj fields =>
      Ok (match obj_lookup k fields with Some v => v | None => default end)
  | _ => raise AttributeError "object has no attribute 'get'"
  end.

(** [data[0]]. *)
Definition py_first (data : json) : result json :=
  match data with
  | JArr (x :: _) => Ok x
  | JArr [] => raise IndexError "list index out of range"
  | JStr (String c _) => Ok (JStr (String c EmptyString))
  | JStr EmptyString => raise IndexError "string index out of range"
  | JObj _ => raise KeyError "0"
  | _ => raise TypeError "object is not subscriptable"
  end.

Definition json_truthy (v : json) : bool :=
  match v with
  | JNull => false
  | JBool b => b
  | JInt z => negb (z =? 0)
  | JFloat x => float_truthy x
  | JStr s => negb (bool_decide (s = ""))
  | JArr l => negb (bool_decide (List.length l = 0%nat))
  | JObj l => negb (bool_decide (List.length l = 0%nat))
  end.

Definition is_JNull (v : json) : bool :=
  match v with JNull => true | _ => false end.

(** [response.raise_for_status()]: an [HTTPError] for 4xx and 5xx. *)
Definition raise_for_status (status_code : Z) : result unit :=
  if (400 <=? status_code) && (status_code <? 500) then
    raise HTTPError (pretty status_code +:+ " Client Error")
  else if (500 <=? status_code) && (status_code <? 600) then
    raise HTTPError (pretty status_code +:+ " Server Error")
  else Ok ().

Definition response_json (body : option json) : result json :=
  match body with
  | Some data => Ok data
  | None => raise JSONDecodeError "Expecting value"
  end.

(** [if k not in data: raise ExternalAPIError(...)]. *)
Definition require_key (k : string) (data : json) : result unit :=
  match py_contains k data with
  | Raise e => Raise e
  | Ok true => Ok ()
  | Ok false => raise ExternalAPIError "Invalid response from weather API"
  end.

(** The [try] block of [fetch_weather_from_api]. *)
Definition fetch_try (city_name : string) (r : reply) : result json :=
  match r with
  | GetRaises e => Raise e
  | Response status_code body =>
      if status_code =? 404 then
        raise ValidationError
          ("City '" +:+ city_name +:+
           "' not found. Please check the city name.")
      else if status_code =? 401 then
        raise ExternalAPIError "Invalid OpenWeather API key"
      else
        _ ← raise_for_status status_code;
        data ← response_json body;
        _ ← require_key "main" data;
        _ ← require_key "weather" data;
        Ok data
  end.

(** Its [except] clauses, in their order. *)
Definition fetch_except (r : result json) : result json :=
  match r with
  | Ok data => Ok data
  | Raise e =>
      if issubclass (exn_class e) Timeout then
        raise ExternalAPIError
          "Weather API request timed out. Please try again later."
      else if issubclass (exn_class e) ConnectionError then
        raise ExternalAPIError
          "Failed to connect to weather API. Please check your internet connection."
      else if issubclass (exn_class e) ValidationError then Raise e
      else if issubclass (exn_class e) RequestException then
        raise ExternalAPIError ("Failed to fetch weather data: " +:+ exn_msg e)
      else Raise e
  end.

(** [api_key] is [OPENWEATHER_API_KEY] of [app/config.py]. *)
Definition fetch_weather_from_api (api_key : option string)
  (city_name : string) (r : reply) : result json :=
  match str_truthy api_key with
  | None => raise ExternalAPIError "OpenWeather API key is not configured"
  | Some _ => fetch_except (fetch_try city_name r)
  end.

(** [db.query(City).filter(City.name == city_name).first()] with the name
    the provider sent: the comparison of the text column with a value that
    is not a string is rejected by the database. *)
Definition city_lookup (db : Session) (city_name : json)
  : result (option City.t) :=
  match city_name with
  | JStr s => Ok (city_by_name db s)
  | _ => raise SQLAlchemyError "operator does not exist"
  end.

Section Storage.

(** The two inserts ([db.add], [db.commit], [db.refresh]) belong to the
    storage engine: each returns the stored row and the new state, or
    raises.  [insert_city db name country lat lon created_at] and
    [insert_record db city_id temperature humidity pressure weather_main
    recorded_at] take the values as the provider sent them.  The clock
    readings of one call are identified. *)
Variable insert_city :
  Session → json → json → json → json → datetime
  → result (Session * City.t).
Variable insert_record :
  Session → Z → json → json → json → json → datetime
  → result (Session * WeatherRecord.t).

Definition get_or_create_city (db : Session) (city_name lat lon country : json)
  (now : datetime) : result (Session * City.t) :=
  found ← city_lookup db city_name;
  match found with
  | Some city => Ok (db, city)
  | None => insert_city db city_name country lat lon now
  end.

Definition save_weather_record (db : Session) (city_id : Z)
  (weather_data : json) (now : datetime)
  : result (Session * WeatherRecord.t) :=
  main_data ← py_get weather_data "main" (JObj []);
  weather ← py_get weather_data "weather" (JArr [JObj []]);
  weather_info ← py_first weather;
  temp ← py_get main_data "temp" JNull;
  humidity ← py_get main_data "humidity" JNull;
  pressure ← py_get main_data "pressure" JNull;
  weather_main ← py_get weather_info "main" JNull;
  insert_record db city_id temp humidity pressure weather_main now.

(** The [try] block of [fetch_and_save_weather]. *)
Definition fetch_and_save_try (api_key : option string) (db : Session)
  (city_name : string) (r : reply) (now : datetime)
  : result (Session * WeatherRecord.t) :=
  weather_data ← fetch_weather_from_api api_key city_name r;
  city_name_from_api ← py_get weather_data "name" JNull;
  coord ← py_get weather_data "coord" (JObj []);
  lat ← py_get coord "lat" JNull;
  lon ← py_get coord "lon" JNull;
  sys ← py_get weather_data "sys" (JObj []);
  country ← py_get sys "country" JNull;
  if negb (json_truthy city_name_from_api) || is_JNull lat || is_JNull lon
  then raise ExternalAPIError "Invalid weather data received from API"
  else
    '(db, city) ← get_or_create_city db city_name_from_api lat lon country now;
    save_weather_record db (City.id city) weather_data now.

(** Its [except] clauses. *)
Definition fetch_and_save_except {A} (r : result A) : result A :=
  match r with
  | Ok a => Ok a
  | Raise e =>
      if issubclass (exn_class e) ExternalAPIError
         || issubclass (exn_class e) ValidationError
      then Raise e
      else raise ExternalAPIError
             ("Unexpected error while fetching weather: " +:+ exn_msg e)
  end.

Definition fetch_and_save_weather (api_key : option string) (db : Session)
  (city_name : string) (r : reply) (now : datetime)
  : result (Session * WeatherRecord.t) :=
  fetch_and_save_except (fetch_and_save_try api_key db city_name r now).

End Storage.

(** *** A sample storage engine

    [ORDER BY] is a merge sort, ids are assigned in sequence and a value of
    the wrong type for its column is rejected. *)

Definition sample_session (cities : list City.t)
  (weather_records : list WeatherRecord.t) : Session :=
  mkSession cities weather_records (merge_sort rec_le) (merge_sort rec_ge)
    (merge_sort_Permutation rec_le) (Sorted_merge_sort rec_le)
    (merge_sort_Permutation rec_ge) (Sorted_merge_sort rec_ge).

(** The same engine with other rows. *)
Definition with_cities (db : Session) (cities : list City.t) : Session :=
  mkSession cities (weather_records db)
    (order_by_recorded_at db) (order_by_recorded_at_desc db)
    (ascending_Permutation db) (ascending_Sorted db)
    (descending_Permutation db) (descending_Sorted db).

Definition with_weather_records (db : Session)
  (weather_records : list WeatherRecord.t) : Session :=
  mkSession (cities db) weather_records
    (order_by_recorded_at db) (order_by_recorded_at_desc db)
    (ascending_Permutation db) (ascending_Sorted db)
    (descending_Permutation db) (descending_Sorted db).

Definition float_column (v : json) : result (option float) :=
  match v with
  | JNull => Ok None
  | JInt z => Ok (Some (float_of_Z z))
  | JFloat x => Ok (Some x)
  | _ => raise SQLAlchemyError "invalid input for a float column"
  end.

Definition int_column (v : json) : result (option Z) :=
  match v with
  | JNull => Ok None
  | JInt z => Ok (Some z)
  | _ => raise SQLAlchemyError "invalid input for an integer column"
  end.

Definition text_column (v : json) : result (option string) :=
  match v with
  | JNull => Ok None
  | JStr s => Ok (Some s)
  | _ => raise SQLAlchemyError "invalid input for a text column"
  end.

Definition next_id (ids : list Z) : Z := foldl Z.max 0 ids + 1.

Definition sample_insert_city (db : Session) (name country lat lon : json)
  (created_at : datetime) : result (Session * City.t) :=
  name ← text_column name;
  country ← text_column country;
  lat ← float_column lat;
  lon ← float_column lon;
  let city :=
    City.mk (next_id (City.id <$> cities db)) (default "" name) country lat lon
      created_at in
  Ok (with_cities db (cities db ++ [city]), city).

Definition sample_insert_record (db : Session) (city_id : Z)
  (temperature humidity pressure weather_main : json) (recorded_at : datetime)
  : result (Session * WeatherRecord.t) :=
  temperature ← float_column temperature;
  humidity ← int_column humidity;
  pressure ← int_column pressure;
  weather_main ← text_column weather_main;
  let record :=
    WeatherRecord.mk (next_id (WeatherRecord.id <$> weather_records db))
      city_id temperature humidity pressure weather_main recorded_at in
  Ok (with_weather_records db (weather_records db ++ [record]), record).

(** ** Sample data *)

Definition at_time (d h m : Z) : datetime := MkDatetime 2026 1 d h m 0 0.

Definition sample_record (id city_id : Z) (temperature : float) (humidity : Z)
  (condition : string) (t : datetime) : WeatherRecord.t :=
  WeatherRecord.mk id city_id (Some temperature) (Some humidity) (Some 1013)
    (Some condition) t.

Definition tokyo : City.t :=
  City.mk 1 "Tokyo" (Some "JP") (Some 35.68%float) (Some 139.69%float)
    (at_time 1 0 0).

Definition london : City.t :=
  City.mk 2 "London" (Some "GB") (Some 51.51%float) (Some (-0.13)%float)
    (at_time 1 0 0).

(** Tokyo has four records on the 19th, London a single one, taken at
    14:30 on the 19th. *)
Definition sample_db : Session :=
  sample_session [tokyo; london]
    [ sample_record 1 1 10 40 "Clear" (at_time 19 1 0);
      sample_record 2 1 10 60 "Clear" (at_time 19 2 0);
      sample_record 3 2 5 80 "Rain" (at_time 19 14 30);
      sample_record 4 1 20 40 "Rain" (at_time 19 3 0);
      sample_record 5 1 20 60 "Clear" (at_time 19 4 0) ].

Definition sample_now : datetime := at_time 20 0 0.

Definition sample_payload : json :=
  JObj [ ("coord", JObj [("lon", JFloat 139.69); ("lat", JFloat 35.68)]);
         ("weather", JArr [JObj [("id", JInt 800); ("main", JStr "Clear")]]);
         ("main", JObj [("temp", JFloat 21.5); ("humidity", JInt 40);
                        ("pressure", JInt 1013)]);
         ("sys", JObj [("country", JStr "JP")]);
         ("name", JStr "Tokyo") ].

(** ** Weekly and monthly averages ([app/services/analytics_service.py]) *)

(** [a >= b] on datetimes, the order of [.desc()]. *)
Definition dt_ge (a b : datetime) : Prop := dt_le b a.

Global Instance dt_ge_dec a b : Decision (dt_ge a b).
Proof. unfold dt_ge. apply _. Defined.

Global Instance dt_ge_trans : Transitive dt_ge.
Proof. intros a b c H1 H2. unfold dt_ge in *. etransitivity; eauto. Qed.

Global Instance dt_ge_total : Total dt_ge.
Proof. intros a b. unfold dt_ge. destruct (dt_le_total a b); auto. Qed.

(** [date.weekday()]: Monday is 0. *)
Definition weekday (t : datetime) : Z := (toordinal t + 6) mod 7.

(** SQL [date_trunc('week', t)]: midnight of the Monday of the week. *)
Definition date_trunc_week (t : datetime) : datetime :=
  let d := ord2ymd (toordinal t - weekday t) in
  MkDatetime (d_year d) (d_month d) (d_day d) 0 0 0 0.

(** SQL [date_trunc('month', t)]: midnight of the first of the month. *)
Definition date_trunc_month (t : datetime) : datetime :=
  MkDatetime (year t) (month t) 1 0 0 0 0.

(** [t.strftime("%Y-%m")]. *)
Definition strftime_ym (t : datetime) : string :=
  pad4 (year t) +:+ "-" +:+ pad2 (month t).

(** The order of [double precision] in SQL: NaN is above every number. *)
Definition float8_lt (a b : float) : bool :=
  negb (is_nan a) && (is_nan b || (a <? b)%float).

Definition float8_gt (a b : float) : bool := float8_lt b a.

(** SQL [min] and [max]: nulls are skipped, null when nothing is left; the
    state is replaced by the new value unless it is below (above) it. *)
Definition float8smaller (state value : float) : float :=
  if float8_lt state value then state else value.

Definition float8larger (state value : float) : float :=
  if float8_gt state value then state else value.

Definition sql_min (l : list (option float)) : option float :=
  match omap id l with
  | [] => None
  | x :: r => Some (foldl float8smaller x r)
  end.

Definition sql_max (l : list (option float)) : option float :=
  match omap id l with
  | [] => None
  | x :: r => Some (foldl float8larger x r)
  end.

(** [GROUP BY date_trunc(unit, recorded_at) ORDER BY ... DESC]: the
    distinct buckets, latest first, and the rows of one bucket. *)
Definition bucket_keys (trunc : datetime → datetime)
  (rows : list WeatherRecord.t) : list datetime :=
  merge_sort dt_ge
    (remove_dups ((λ r, trunc (WeatherRecord.recorded_at r)) <$> rows)).

Definition rows_in (trunc : datetime → datetime) (k : datetime)
  (rows : list WeatherRecord.t) : list WeatherRecord.t :=
  filter (λ r, trunc (WeatherRecord.recorded_at r) = k) rows.

Module WeeklyAverage.
Record t : Type := mk {
  week_start : string;
  avg_temperature : float;
  min_temperature : float;
  max_temperature : float;
  record_count : Z
}.
End WeeklyAverage.

Module MonthlyAverage.
Record t : Type := mk {
  month_start : string;
  avg_temperature : float;
  min_temperature : float;
  max_temperature : float;
  record_count : Z
}.
End MonthlyAverage.

(** [float(v)] of an aggregate. *)
Definition float_of (v : option float) : result float :=
  require "float() argument must be a string or a real number" v.

Definition weekly_item (rows : list WeatherRecord.t) (k : datetime)
  : result WeeklyAverage.t :=
  let group := rows_in date_trunc_week k rows in
  let temps := WeatherRecord.temperature <$> group in
  a ← float_of (sql_avg temps);
  lo ← float_of (sql_min temps);
  hi ← float_of (sql_max temps);
  Ok (WeeklyAverage.mk (strftime_ymd k) (round2 a) (round2 lo) (round2 hi)
        (Z.of_nat (List.length group))).

(** [timedelta(weeks=weeks)] is [7 * weeks] days. *)
Definition get_weekly_average_temperature (db : Session) (city_id weeks : Z)
  (now : datetime) : result (list WeeklyAverage.t) :=
  let end_date := now in
  start_date ← sub_days end_date (7 * weeks);
  let rows := daily_rows db city_id (Some start_date) in
  mapM (weekly_item rows) (bucket_keys date_trunc_week rows).

Definition monthly_item (rows : list WeatherRecord.t) (k : datetime)
  : result MonthlyAverage.t :=
  let group := rows_in date_trunc_month k rows in
  let temps := WeatherRecord.temperature <$> group in
  a ← float_of (sql_avg temps);
  lo ← float_of (sql_min temps);
  hi ← float_of (sql_max temps);
  Ok (MonthlyAverage.mk (strftime_ym k) (round2 a) (round2 lo) (round2 hi)
        (Z.of_nat (List.length group))).

(** The window is [months * 30] days. *)
Definition get_monthly_average_temperature (db : Session) (city_id months : Z)
  (now : datetime) : result (list MonthlyAverage.t) :=
  let end_date := now in
  start_date ← sub_days end_date (months * 30);
  let rows := daily_rows db city_id (Some start_date) in
  mapM (monthly_item rows) (bucket_keys date_trunc_month rows).

(** ** The other endpoints of [app/routers/analytics.py] *)

(** [validate_days(days, max_days=365) if days else None] on the query
    parameter [days: int = None]. *)
Definition optional_days (days : option Z) : result (option Z) :=
  match int_truthy days with
  | Some d =>
      v ← validate_days (PyInt d) default_min_days 365;
      Ok (Some (int_value v))
  | None => Ok None
  end.

Module DailyAverageResponse.
Record t : Type := mk {
  city : string;
  daily_averages : list DailyAverage.t
}.
End DailyAverageResponse.

Definition get_daily_average_body (db : Session) (city : string)
  (days : option Z) (now : datetime) : result DailyAverageResponse.t :=
  city ← validate_city_name city;
  days ← optional_days days;
  city_obj ← find_city db city;
  daily_averages ←
    get_daily_average_temperature db (City.id city_obj) days now;
  Ok (DailyAverageResponse.mk (City.name city_obj) daily_averages).

(** [GET /analytics/daily-average]. *)
Definition get_daily_average (db : Session) (city : string)
  (days : option Z) (now : datetime) : http DailyAverageResponse.t :=
  respond [CityNotFoundError] (get_daily_average_body db city days now).

(** The fields of [trend_data] are copied into the response one by one;
    they are kept together here. *)
Module TrendResponse.
Record t : Type := mk {
  city : string;
  period_days : Z;
  trend : Trend.t
}.
End TrendResponse.

(** [DailyTrendData(...)]: the schema has no optional field. *)
Definition daily_trend_data (p : TrendPoint.t) : result TrendPoint.t :=
  if bool_decide (is_Some (TrendPoint.temperature p))
     && bool_decide (is_Some (TrendPoint.humidity p))
     && bool_decide (is_Some (TrendPoint.pressure p))
  then Ok p
  else raise ResponseValidationError "validation error for DailyTrendData".

Definition get_trend_body (db : Session) (city : string) (days : Z)
  (now : datetime) : result TrendResponse.t :=
  city ← validate_city_name city;
  days ← (v ← validate_days (PyInt days) default_min_days 365;
          Ok (int_value v));
  city_obj ← find_city db city;
  trend_data ← get_weather_trend db (City.id city_obj) days now;
  match trend_data with
  | None =>
      raise WeatherDataNotFoundError
        ("No weather records found for '" +:+ city +:+ "' in the last " +:+
         pretty days +:+ " days")
  | Some t =>
      _ ← mapM daily_trend_data (Trend.daily_data t);
      Ok (TrendResponse.mk (City.name city_obj) days t)
  end.

(** [GET /analytics/trend]. *)
Definition get_trend (db : Session) (city : string) (days : Z)
  (now : datetime) : http TrendResponse.t :=
  respond [CityNotFoundError; WeatherDataNotFoundError]
    (get_trend_body db city days now).

Module PatternsResponse.
Record t : Type := mk {
  city : string;
  patterns : Patterns.t
}.
End PatternsResponse.

Definition get_patterns_body (db : Session) (city : string)
  : result PatternsResponse.t :=
  city ← validate_city_name city;
  city_obj ← find_city db city;
  patterns_data ← get_humidity_pressure_patterns db (City.id city_obj);
  match patterns_data with
  | None =>
      raise WeatherDataNotFoundError
        ("No weather records found for '" +:+ city +:+ "'")
  | Some p => Ok (PatternsResponse.mk (City.name city_obj) p)
  end.

(** [GET /analytics/patterns]. *)
Definition get_patterns (db : Session) (city : string)
  : http PatternsResponse.t :=
  respond [CityNotFoundError; WeatherDataNotFoundError]
    (get_patterns_body db city).

Definition get_weekly_average_body (db : Session) (city : string) (weeks : Z)
  (now : datetime) : result (string * list WeeklyAverage.t) :=
  city ← validate_city_name city;
  weeks ← (v ← validate_weeks (PyInt weeks) default_min_weeks 52;
           Ok (int_value v));
  city_obj ← find_city db city;
  weekly_averages ←
    get_weekly_average_temperature db (City.id city_obj) weeks now;
  Ok (City.name city_obj, weekly_averages).

(** [GET /analytics/weekly-average]. *)
Definition get_weekly_average (db : Session) (city : string) (weeks : Z)
  (now : datetime) : http (string * list WeeklyAverage.t) :=
  respond [CityNotFoundError] (get_weekly_average_body db city weeks now).

Definition get_monthly_average_body (db : Session) (city : string)
  (months : Z) (now : datetime) : result (string * list MonthlyAverage.t) :=
  city ← validate_city_name city;
  months ← (v ← validate_months (PyInt months) default_min_months 24;
            Ok (int_value v));
  city_obj ← find_city db city;
  monthly_averages ←
    get_monthly_average_temperature db (City.id city_obj) months now;
  Ok (City.name city_obj, monthly_averages).

(** [GET /analytics/monthly-average]. *)
Definition get_monthly_average (db : Session) (city : string) (months : Z)
  (now : datetime) : http (string * list MonthlyAverage.t) :=
  respond [CityNotFoundError] (get_monthly_average_body db city months now).

(** ** The endpoints of [app/routers/weather.py] *)


(** [WeatherRecordResponse.from_orm] and [CityResponse.from_orm]: the
    schemas have no optional field. *)
Definition weather_record_response (r : WeatherRecord.t)
  : result WeatherRecord.t :=
  if bool_decide (is_Some (WeatherRecord.temperature r))
     && bool_decide (is_Some (WeatherRecord.humidity r))
     && bool_decide (is_Some (WeatherRecord.pressure r))
     && bool_decide (is_Some (WeatherRecord.weather_main r))
  then Ok r
  else raise ResponseValidationError "validation error for WeatherRecordResponse".

Definition city_response (c : option City.t) : result City.t :=
  match c with
  | Some c =>
      if bool_decide (is_Some (City.country c))
         && bool_decide (is_Some (City.lat c))
         && bool_decide (is_Some (City.lon c))
      then Ok c
      else raise ResponseValidationError "validation error for CityResponse"
  | None => raise ResponseValidationError "validation error for CityResponse"
  end.



(** The [except] clauses of [get_current_weather]. *)
Definition respond_current {A} (r : result A) : http A :=
  match r with
  | Ok body => Http200 body
  | Raise e =>
      if issubclass (exn_class e) ValidationError then
        HTTPException 400 (exn_msg e)
      else if issubclass (exn_class e) ExternalAPIError then
        HTTPException 503 (exn_msg e)
      else HTTPException 500 ("Internal server error: " +:+ exn_msg e)
  end.

(** [weather_record.city]: the row the foreign key points to. *)
Definition city_by_id (db : Session) (id : Z) : option City.t :=
  head (filter (λ c, City.id c = id) (cities db)).

Definition get_current_weather_body
  (insert_city :
     Session → json → json → json → json → datetime → result (Session * City.t))
  (insert_record :
     Session → Z → json → json → json → json → datetime
     → result (Session * WeatherRecord.t))
  (api_key : option string) (db : Session) (city : string) (r : reply)
  (now : datetime) : result (City.t * WeatherRecord.t) :=
  city ← validate_city_name city;
  '(db, weather_record) ←
    fetch_and_save_weather insert_city insert_record api_key db city r now;
  let city_obj := city_by_id db (WeatherRecord.city_id weather_record) in
  city_response ← city_response city_obj;
  weather_response ← weather_record_response weather_record;
  Ok (city_response, weather_response).

(** [GET /weather/current]. *)
Definition get_current_weather
  (insert_city :
     Session → json → json → json → json → datetime → result (Session * City.t))
  (insert_record :
     Session → Z → json → json → json → json → datetime
     → result (Session * WeatherRecord.t))
  (api_key : option string) (db : Session) (city : string) (r : reply)
  (now : datetime) : http (City.t * WeatherRecord.t) :=
  respond_current
    (get_current_weather_body insert_city insert_record api_key db city r now).

(** ** Vocabulary of the statements and further sample data *)

(** A name resolves when the first city of that name has a record: a row
    of the table [weather_records] whose [city_id] is the id of that
    city. *)
Definition has_data (db : Session) (n : string) : Prop :=
  ∃ c r, city_by_name db n = Some c
         ∧ r ∈ weather_records db
         ∧ WeatherRecord.city_id r = City.id c.

(** London is a city without records. *)
Definition quiet_db : Session :=
  sample_session [tokyo; london]
    [ sample_record 1 1 10 40 "Clear" (at_time 19 1 0) ].

(** A database whose rows are not stored in the order of their
    timestamps: the record of the 21st was stored before that of the
    20th. *)
Definition unordered_db : Session :=
  sample_session [tokyo]
    [ sample_record 1 1 10 40 "Clear" (at_time 21 9 0);
      sample_record 2 1 12 45 "Clear" (at_time 20 9 0) ].

(** What the statistics of a column say about its kept values [xs]: the
    average is [round(mean, 2)] of the float [mean] that Python's division
    of the sum by the number of values yields, and the two bounds are the
    least and the greatest value. *)
Definition describes (xs : list Z) (st : IntStats.t) : Prop :=
  (∃ mean, int_truediv (Zsum xs) (Z.of_nat (List.length xs)) = Ok mean
           ∧ IntStats.average st = round2 mean)
  ∧ IntStats.min st ∈ xs ∧ (∀ x, x ∈ xs → IntStats.min st ≤ x)
  ∧ IntStats.max st ∈ xs ∧ (∀ x, x ∈ xs → x ≤ IntStats.max st).

(** A value of an [Integer] column: null or a 32-bit integer. *)
Definition int32 (v : option Z) : Prop :=
  ∀ z, v = Some z → - 2 ^ 31 ≤ z < 2 ^ 31.

(** The number of rows whose condition is [s]. *)
Definition occurrences (s : string) (records : list WeatherRecord.t) : Z :=
  Z.of_nat
    (List.length (filter (λ r, WeatherRecord.weather_main r = Some s) records)).

(** The number of elements of [l] equal to [s]. *)
Definition occurrences_in (s : string) (l : list string) : Z :=
  Z.of_nat (List.length (filter (λ c, c = s) l)).

(** Two records with the humidities 40 and 60. *)
Definition humid_db : Session :=
  sample_session [tokyo]
    [ sample_record 1 1 10 40 "Clear" (at_time 19 1 0);
      sample_record 2 1 12 60 "Rain" (at_time 19 2 0) ].

(** A record whose condition label is the empty string, and one without
    humidity and pressure. *)
Definition blank_db : Session :=
  sample_session [tokyo]
    [ WeatherRecord.mk 1 1 (Some 10%float) None (Some 0) (Some "")
        (at_time 19 1 0);
      WeatherRecord.mk 2 1 (Some 12%float) (Some 0) None (Some "Rain")
        (at_time 19 2 0) ].

(** One record of Tokyo for each humidity of the list. *)
Definition humidity_db (humidities : list Z) : Session :=
  sample_session [tokyo]
    (imap (λ i h, sample_record (Z.of_nat i + 1) 1 10 h "Clear"
                    (at_time 19 1 0))
       humidities).

(** The average of the humidity statistics of a city. *)
Definition humidity_average (db : Session) (city_id : Z) : option float :=
  match get_humidity_pressure_patterns db city_id with
  | Ok (Some p) => Some (IntStats.average (Patterns.humidity p))
  | _ => None
  end.

(** The mean of a list of floats as Python computes it, the sum divided by
    the length, and 0 for the empty list. *)
Definition mean0 (l : list float) : float :=
  match l with
  | [] => 0%float
  | _ :: _ => (float_sum l / float_of_Z (Z.of_nat (List.length l)))%float
  end.

(** The change and the direction of the trend of the last seven days. *)
Definition trend_summary (db : Session) : option (float * string) :=
  match get_weather_trend db 1 7 sample_now with
  | Ok (Some t) => Some (Trend.temperature_change t, Trend.trend_direction t)
  | _ => None
  end.

(** Two records whose temperatures are 0.502 degrees apart. *)
Definition drift_db : Session :=
  sample_session [tokyo]
    [ sample_record 1 1 10 40 "Clear" (at_time 19 1 0);
      sample_record 2 1 10.502 40 "Clear" (at_time 19 2 0) ].

(** One record of Tokyo for each temperature of the list, an hour apart. *)
Definition temperature_db (temperatures : list float) : Session :=
  sample_session [tokyo]
    (imap (λ i t, sample_record (Z.of_nat i + 1) 1 t 40 "Clear"
                    (at_time 19 (Z.of_nat i) 0))
       temperatures).



(** A single record, of June 2020. *)
Definition old_db : Session :=
  sample_session [tokyo]
    [ sample_record 1 1 10 40 "Clear" (MkDatetime 2020 6 1 12 0 0 0) ].



(** A row of the city that is not older than the start of the window,
    when there is one. *)
Definition in_window (city_id : Z) (start_date : option datetime)
  (r : WeatherRecord.t) : Prop :=
  WeatherRecord.city_id r = city_id
  ∧ ∀ s, start_date = Some s → dt_le s (WeatherRecord.recorded_at r).

Global Instance in_window_dec city_id start_date r :
  Decision (in_window city_id start_date r).
Proof.
  unfold in_window. destruct start_date as [s|].
  - destruct (decide (WeatherRecord.city_id r = city_id
                      ∧ dt_le s (WeatherRecord.recorded_at r))) as [H|H].
    + left. split; [tauto|]. intros ? [= <-]. tauto.
    + right. intros [H1 H2]. apply H. auto.
  - destruct (decide (WeatherRecord.city_id r = city_id)) as [H|H].
    + left. split; [exact H | discriminate].
    + right. tauto.
Defined.

(** The names a comparison request lists. *)
Definition listed_names (cities : string) : list string :=
  filter (λ c, c ≠ "") (strip <$> split_comma cities).


(** A storage engine whose city insert appends the row under the name it
    was given. *)
Definition appends_city
  (insert_city :
     Session → json → json → json → json → datetime → result (Session * City.t))
  : Prop :=
  ∀ db s country lat lon t db' c,
    insert_city db (JStr s) country lat lon t = Ok (db', c) →
    City.name c = s ∧ cities db' = cities db ++ [c].

Definition named (s : string) (l : list City.t) : list City.t :=
  filter (λ c, City.name c = s) l.

(** * Properties *)

(** ** Formatting yields the advertised shape *)

Lemma digit_char_is_digit (d : Z) : is_digit (digit_char d) = true.
Proof.
  unfold is_digit, digit_char, code.
  assert (H : 0 ≤ d mod 10 < 10) by (apply Z.mod_pos_bound; lia).
  rewrite nat_ascii_embedding by lia.
  rewrite Z2Nat.id by lia.
  apply andb_true_intro; split; apply Z.leb_le; lia.
Qed.

Lemma strftime_ymd_hms_shape (t : datetime) :
  is_ymd_hms (strftime_ymd_hms t) = true.
Proof.
  unfold is_ymd_hms, strftime_ymd_hms, format_ymd, pad4, pad2. simpl.
  rewrite !digit_char_is_digit. reflexivity.
Qed.

(** ** Validation *)

Lemma validate_city_name_raises (city : string) (e : exn) :
  validate_city_name city = Raise e → exn_class e = ValueError.
Proof.
  unfold validate_city_name, raise.
  repeat case_match; intros Heq; inversion Heq; reflexivity.
Qed.

Lemma validate_date_format_raises (s : string) (e : exn) :
  validate_date_format s = Raise e → exn_class e = ValueError.
Proof.
  unfold validate_date_format, raise.
  repeat case_match; intros Heq; inversion Heq; reflexivity.
Qed.

Lemma validate_days_raises (v : pyval) (lo hi : Z) (e : exn) :
  validate_days v lo hi = Raise e → exn_class e = ValueError.
Proof.
  unfold validate_days, raise.
  repeat case_match; intros Heq; inversion Heq; reflexivity.
Qed.

Lemma validate_weeks_raises (v : pyval) (lo hi : Z) (e : exn) :
  validate_weeks v lo hi = Raise e → exn_class e = ValueError.
Proof.
  unfold validate_weeks, raise.
  repeat case_match; intros Heq; inversion Heq; reflexivity.
Qed.

Lemma validate_months_raises (v : pyval) (lo hi : Z) (e : exn) :
  validate_months v lo hi = Raise e → exn_class e = ValueError.
Proof.
  unfold validate_months, raise.
  repeat case_match; intros Heq; inversion Heq; reflexivity.
Qed.

(** A [ValueError] is caught by no clause written for the domain kinds. *)
Lemma ValueError_is_generic :
  issubclass ValueError ValidationError = false
  ∧ is_domain_error ValueError = false.
Proof. split; reflexivity. Qed.

(** Every endpoint of the analytics router answers 500 when the body raises
    a [ValueError]. *)
Lemma respond_ValueError {A} (not_found : list exc_class) (msg : string) :
  Forall (λ c, is_domain_error c = true) not_found →
  respond (A := A) not_found (raise ValueError msg)
  = HTTPException 500 ("Internal server error: " +:+ msg).
Proof.
  intros H. unfold respond, raise. simpl.
  replace (existsb (issubclass ValueError) not_found) with false; [done|].
  symmetry. induction H as [|c l Hc Hl IH]; simpl; [done|].
  rewrite IH. destruct c; simpl in *; try discriminate; reflexivity.
Qed.

(** C1 (evaluation).  Each of the five validators, on an input it rejects,
    raises the builtin [ValueError], which is not the domain kind
    [ValidationError]: the export endpoint answers 500 to the city name
    "Tokyo1", whereas the comparison endpoint, which converts the
    [ValueError] itself, answers 400 to the same name. *)
Theorem validators_raise_ValueError :
  raised_class (validate_city_name "Tokyo1") = Some ValueError
  ∧ raised_class (validate_date_format "19-01-2026") = Some ValueError
  ∧ raised_class (validate_days (PyInt 0) default_min_days default_max_days)
    = Some ValueError
  ∧ raised_class (validate_weeks (PyInt 53) default_min_weeks default_max_weeks)
    = Some ValueError
  ∧ raised_class
      (validate_months (PyInt 25) default_min_months default_max_months)
    = Some ValueError
  ∧ issubclass ValueError ValidationError = false
  ∧ status_code (export_historical sample_db "Tokyo1" None None) = 500
  ∧ status_code (compare_cities_endpoint sample_db "Tokyo1") = 400.
Proof. repeat split; vm_compute; reflexivity. Qed.

(** C8.  With the default bounds, [validate_days] returns every instance of
    [int] whose value lies in 1..365 unchanged, raises for every instance of
    [int] below 1 or above 365 (0 and 366 among them) and for every value
    that is neither [None] nor an instance of [int], and returns [None] for
    [None]. *)
Theorem validate_days_contract :
  (∀ v : pyval, isinstance_int v = true → 1 ≤ int_value v ≤ 365 →
     validate_days v default_min_days default_max_days = Ok v)
  ∧ (∀ d : Z, 1 ≤ d ≤ 365 →
       validate_days (PyInt d) default_min_days default_max_days
       = Ok (PyInt d))
  ∧ (∀ v : pyval, isinstance_int v = true →
       int_value v < 1 ∨ 365 < int_value v →
       raised_class (validate_days v default_min_days default_max_days)
       = Some ValueError)
  ∧ (∀ v : pyval, v ≠ PyNone → isinstance_int v = false →
       raised_class (validate_days v default_min_days default_max_days)
       = Some ValueError)
  ∧ validate_days PyNone default_min_days default_max_days = Ok PyNone
  ∧ is_ok (validate_days (PyInt 0) default_min_days default_max_days) = false
  ∧ is_ok (validate_days (PyInt 366) default_min_days default_max_days)
    = false.
Proof.
  assert (A : ∀ v : pyval, isinstance_int v = true → 1 ≤ int_value v ≤ 365 →
     validate_days v default_min_days default_max_days = Ok v).
  { intros v Hi [H1 H2]. unfold validate_days, default_min_days,
      default_max_days.
    destruct v; try discriminate; simpl in *.
    - destruct b; simpl in *; [reflexivity | lia].
    - destruct (Z.ltb_spec z 1); [lia|].
      destruct (Z.gtb_spec z 365); [lia | reflexivity]. }
  split; [exact A|]. split.
  { intros d Hd. apply A; [reflexivity | exact Hd]. }
  split.
  { intros v Hi H. unfold validate_days, default_min_days, default_max_days.
    destruct v; try discriminate; simpl in *.
    - destruct b; simpl in *; [lia | reflexivity].
    - destruct (Z.ltb_spec z 1); [reflexivity|].
      destruct (Z.gtb_spec z 365); [reflexivity | lia]. }
  split.
  { intros v Hn Hi. destruct v; try discriminate; try reflexivity.
    contradiction. }
  repeat split; reflexivity.
Qed.

Lemma validate_days_contract_witness :
  validate_days (PyInt 7) default_min_days default_max_days = Ok (PyInt 7)
  ∧ raised_class (validate_days (PyInt 400) default_min_days default_max_days)
    = Some ValueError
  ∧ raised_class
      (validate_days (PyStr "7") default_min_days default_max_days)
    = Some ValueError.
Proof.
  destruct validate_days_contract as (_ & H1 & H2 & H3 & _).
  split; [apply (H1 7); lia|].
  split; [apply (H2 (PyInt 400)); [reflexivity | right; simpl; lia]|].
  apply (H3 (PyStr "7")); [discriminate | reflexivity].
Defined.

(** ** Sequencing *)

Lemma bind_Ok {A B} (a : A) (k : A → result B) : (Ok a ≫= k) = k a.
Proof. reflexivity. Qed.

Lemma bind_Raise {A B} (e : exn) (k : A → result B) :
  (Raise e ≫= k) = Raise e.
Proof. reflexivity. Qed.

(** ** Historical export *)

Lemma in_bounds_spec (s e : option datetime) (r : WeatherRecord.t) :
  in_bounds s e r = true ↔
  (∀ s', s = Some s' → dt_le s' (WeatherRecord.recorded_at r))
  ∧ (∀ e', e = Some e' → dt_le (WeatherRecord.recorded_at r) e').
Proof.
  unfold in_bounds, dt_geb, dt_le. rewrite andb_true_iff.
  destruct s as [s0|], e as [e0|]; split; intros [H1 H2]; split;
    try done; intros; simplify_eq; auto.
Qed.

Lemma elem_of_records_of (db : Session) (cid : Z) (r : WeatherRecord.t) :
  r ∈ records_of db cid ↔
  r ∈ weather_records db ∧ WeatherRecord.city_id r = cid.
Proof. unfold records_of. rewrite list_elem_of_filter. tauto. Qed.

Lemma elem_of_order_by (db : Session) (l : list WeatherRecord.t)
  (r : WeatherRecord.t) :
  r ∈ order_by_recorded_at db l ↔ r ∈ l.
Proof. now rewrite ascending_Permutation. Qed.

(** The service function, read as a query on timestamps: the rows it
    returns are the rows of the city whose [recorded_at] lies between the
    two bounds (bounds included, a missing bound dropped), each as often as
    it is stored, in ascending order of [recorded_at], and every
    [recorded_at] is printed as [YYYY-MM-DD HH:MM:SS]. *)
Lemma export_historical_data_interval (db : Session) (city_id : Z)
  (start_date end_date : option datetime) :
  export_historical_data db city_id start_date end_date
  = export_row <$> export_records db city_id start_date end_date
  ∧ export_records db city_id start_date end_date
    ≡ₚ filter (λ r, in_bounds start_date end_date r = true)
         (records_of db city_id)
  ∧ (∀ r, r ∈ export_records db city_id start_date end_date ↔
          r ∈ weather_records db ∧ WeatherRecord.city_id r = city_id
          ∧ (∀ s, start_date = Some s → dt_le s (WeatherRecord.recorded_at r))
          ∧ (∀ e, end_date = Some e → dt_le (WeatherRecord.recorded_at r) e))
  ∧ Sorted rec_le (export_records db city_id start_date end_date)
  ∧ Forall (λ h, is_ymd_hms (Historical.recorded_at h) = true)
      (export_historical_data db city_id start_date end_date).
Proof.
  split; [reflexivity|]. split.
  { unfold export_records. apply ascending_Permutation. }
  split.
  { intros r. unfold export_records.
    rewrite elem_of_order_by, list_elem_of_filter, elem_of_records_of,
      in_bounds_spec. tauto. }
  split; [apply ascending_Sorted|].
  unfold export_historical_data. apply Forall_fmap, Forall_forall.
  intros r _. apply strftime_ymd_hms_shape.
Qed.

(** With both bounds at the midnight that a date string parses to, only a
    record stamped at that very instant is exported. *)
Lemma export_same_day_only_midnight (db : Session) (city_id : Z)
  (t : datetime) (r : WeatherRecord.t) :
  r ∈ export_records db city_id (Some t) (Some t) →
  WeatherRecord.recorded_at r = t.
Proof.
  intros H.
  apply (proj1 (proj2 (proj2 (export_historical_data_interval db city_id
                                (Some t) (Some t))))) in H
    as (_ & _ & Hs & He).
  apply dt_le_antisym; auto.
Qed.

(** A city name that the validator rejects makes the export endpoint
    answer 500. *)
Lemma export_historical_invalid_city (db : Session) (city : string)
  (start_date end_date : option string) (e : exn) :
  validate_city_name city = Raise e →
  export_historical db city start_date end_date
  = HTTPException 500 ("Internal server error: " +:+ exn_msg e).
Proof.
  intros H. pose proof (validate_city_name_raises city e H) as Hc.
  unfold export_historical, export_historical_body. rewrite H.
  destruct e as [c msg]. simpl in Hc. subst c. reflexivity.
Qed.

(** C2 (evaluation).  London's only record was taken on 2026-01-19 at
    14:30.  Both bounds "2026-01-19" parse to midnight of that day, the
    service keeps the rows with [recorded_at <= 2026-01-19 00:00:00], and the
    export of that single day is empty: the endpoint answers 404.  With the
    end bound one day later the record is returned. *)
Theorem export_single_day_misses_record :
  (WeatherRecord.recorded_at <$> records_of sample_db (City.id london))
  = [MkDatetime 2026 1 19 14 30 0 0]
  ∧ validate_date_format "2026-01-19" = Ok (MkDatetime 2026 1 19 0 0 0 0)
  ∧ export_historical_data sample_db (City.id london)
      (Some (MkDatetime 2026 1 19 0 0 0 0))
      (Some (MkDatetime 2026 1 19 0 0 0 0)) = []
  ∧ export_historical sample_db "London" (Some "2026-01-19")
      (Some "2026-01-19")
    = HTTPException 404
        "No weather records found for 'London' between 2026-01-19 and 2026-01-19"
  ∧ (Historical.recorded_at <$>
       export_historical_data sample_db (City.id london)
         (Some (MkDatetime 2026 1 19 0 0 0 0))
         (Some (MkDatetime 2026 1 20 0 0 0 0)))
    = ["2026-01-19 14:30:00"].
Proof. repeat split; vm_compute; reflexivity. Qed.

(** ** Statistics never raise *)

Lemma float_stats_ok (xs : list float) : ∃ s, float_stats xs = Ok s.
Proof. destruct xs; eexists; reflexivity. Qed.

Lemma int_stats_ok (xs : list Z) : ∃ s, int_stats xs = Ok s.
Proof. destruct xs; eexists; reflexivity. Qed.

(** ** Multi-city comparison *)

Lemma comparison_entry_ok (c : City.t) (rs : list WeatherRecord.t) :
  rs ≠ [] →
  ∃ e r, comparison_entry c rs = Ok e
         ∧ last rs = Some r
         ∧ Comparison.latest_record e
           = Some (strftime_ymd_hms (WeatherRecord.recorded_at r))
         ∧ Comparison.city_id e = City.id c
         ∧ Comparison.total_records e = Z.of_nat (List.length rs).
Proof.
  intros Hne. unfold comparison_entry.
  destruct (float_stats_ok
              (truthy_floats (WeatherRecord.temperature <$> rs))) as [t ->].
  destruct (int_stats_ok (truthy_ints (WeatherRecord.humidity <$> rs)))
    as [h ->].
  destruct (int_stats_ok (truthy_ints (WeatherRecord.pressure <$> rs)))
    as [p ->].
  rewrite !bind_Ok.
  destruct rs as [|r0 rs']; [done|].
  unfold last_record.
  destruct (last (r0 :: rs')) as [r|] eqn:Hl.
  - rewrite !bind_Ok. eexists _, r. repeat split; reflexivity.
  - apply last_None in Hl. discriminate.
Qed.

(** A city has a row in the table exactly when the query of its rows
    returns one. *)
Lemma has_data_records_of (db : Session) (n : string) :
  has_data db n ↔
  ∃ c, city_by_name db n = Some c ∧ records_of db (City.id c) ≠ [].
Proof.
  unfold has_data. split.
  - intros (c & r & Hc & Hr & Hid). exists c. split; [exact Hc|].
    intros E. assert (Hin : r ∈ records_of db (City.id c))
      by (apply elem_of_records_of; auto).
    rewrite E in Hin. inversion Hin.
  - intros (c & Hc & Hne). exists c.
    destruct (records_of db (City.id c)) as [|r rs] eqn:E; [done|].
    assert (Hin : r ∈ records_of db (City.id c)) by (rewrite E; left).
    apply elem_of_records_of in Hin as [Hin Hid]. eauto.
Qed.

(** What the loop leaves under each key. *)
Lemma compare_loop_lookup (db : Session) (city_names : list string) :
  ∀ acc : gmap string Comparison.t,
  ∃ m, compare_loop db city_names acc = Ok m
       ∧ ∀ n,
           (n ∈ city_names ∧ has_data db n
            → ∃ c e, city_by_name db n = Some c
                     ∧ comparison_entry c (records_of db (City.id c)) = Ok e
                     ∧ m !! n = Some e)
           ∧ (¬ (n ∈ city_names ∧ has_data db n) → m !! n = acc !! n).
Proof.
  induction city_names as [|a names IH]; intros acc.
  { exists acc. split; [reflexivity|]. intros n. split.
    - intros [Hin _]. inversion Hin.
    - reflexivity. }
  simpl.
  destruct (city_by_name db a) as [c|] eqn:Hc.
  2:{ destruct (IH acc) as (m & Hm & Hl). exists m. split; [exact Hm|].
      intros n. destruct (Hl n) as [Hl1 Hl2]. split.
      - intros [Hin Hd]. apply Hl1. split; [|exact Hd].
        apply elem_of_cons in Hin as [->|Hin]; [|exact Hin].
        apply has_data_records_of in Hd as (c & Hc' & _). congruence.
      - intros Hn. apply Hl2. intros [Hin Hd]. apply Hn.
        split; [right; exact Hin | exact Hd]. }
  destruct (records_of db (City.id c)) as [|r0 rs] eqn:Hr.
  { destruct (IH acc) as (m & Hm & Hl). exists m. split; [exact Hm|].
    intros n. destruct (Hl n) as [Hl1 Hl2]. split.
    - intros [Hin Hd]. apply Hl1. split; [|exact Hd].
      apply elem_of_cons in Hin as [->|Hin]; [|exact Hin].
      apply has_data_records_of in Hd as (c' & Hc' & Hne). congruence.
    - intros Hn. apply Hl2. intros [Hin Hd]. apply Hn.
      split; [right; exact Hin | exact Hd]. }
  destruct (comparison_entry_ok c (r0 :: rs)) as (e & r & He & _); [done|].
  rewrite He, bind_Ok.
  destruct (IH (<[a := e]> acc)) as (m & Hm & Hl). exists m.
  split; [exact Hm|].
  intros n. destruct (Hl n) as [Hl1 Hl2]. split.
  - intros [Hin Hd]. destruct (decide (n ∈ names)) as [Hn|Hn].
    + apply Hl1. split; assumption.
    + apply elem_of_cons in Hin as [->|Hin]; [|contradiction].
      exists c, e. rewrite Hr. repeat split; [exact Hc | exact He |].
      rewrite Hl2 by tauto. apply lookup_insert_eq.
  - intros Hn. rewrite Hl2.
    + apply lookup_insert_ne. intros ->. apply Hn. split; [left|].
      apply has_data_records_of. exists c. split; [exact Hc|].
      rewrite Hr. done.
    + intros [Hin Hd]. apply Hn. split; [right; exact Hin | exact Hd].
Qed.

Lemma compare_cities_lookup (db : Session) (city_names : list string) :
  ∃ m, compare_cities db city_names = Ok m
       ∧ ∀ n,
           (n ∈ city_names ∧ has_data db n
            → ∃ c e, city_by_name db n = Some c
                     ∧ comparison_entry c (records_of db (City.id c)) = Ok e
                     ∧ m !! n = Some e)
           ∧ (¬ (n ∈ city_names ∧ has_data db n) → m !! n = None).
Proof.
  destruct (compare_loop_lookup db city_names ∅) as (m & Hm & Hl).
  exists m. split; [exact Hm|]. intros n. destruct (Hl n) as [H1 H2].
  split; [exact H1|]. intros Hn. rewrite H2 by exact Hn. apply lookup_empty.
Qed.

Lemma has_data_dec (db : Session) (n : string) : Decision (has_data db n).
Proof.
  destruct (city_by_name db n) as [c|] eqn:Ec.
  - destruct (records_of db (City.id c)) as [|r rs] eqn:E.
    + right. intros Hd.
      apply has_data_records_of in Hd as (c' & Hc & Hne). congruence.
    + left. apply has_data_records_of. exists c. split; [exact Ec|].
      rewrite E. done.
  - right. intros Hd.
    apply has_data_records_of in Hd as (c' & Hc & _). congruence.
Defined.

(** C5.  For every list of names the comparison returns a map, raising
    nothing, whose keys are exactly the names of the list whose city exists
    and has at least one record, a row of the table with the id of that
    city; in particular two distinct names with data and one name without a
    city give a map of exactly two keys.  In [sample_db] the names Tokyo,
    London and Atlantis give the keys Tokyo and London; in [quiet_db], where
    London has no record, they give the key Tokyo. *)
Theorem compare_cities_keys (db : Session) (city_names : list string) :
  (∃ m, compare_cities db city_names = Ok m
        ∧ (∀ n, n ∈ dom m ↔ n ∈ city_names ∧ has_data db n)
        ∧ (∀ a b c, city_names = [a; b; c] → a ≠ b →
             has_data db a → has_data db b → city_by_name db c = None →
             size m = 2%nat))
  ∧ dom <$> returned (compare_cities sample_db ["Tokyo"; "London"; "Atlantis"])
    = Some ({["Tokyo"; "London"]} : gset string)
  ∧ dom <$> returned (compare_cities quiet_db ["Tokyo"; "London"; "Atlantis"])
    = Some ({["Tokyo"]} : gset string).
Proof.
  split; [|split; vm_compute; reflexivity].
  destruct (compare_cities_lookup db city_names) as (m & Hm & Hl).
  exists m. split; [exact Hm|].
  assert (Hdom : ∀ n, n ∈ dom m ↔ n ∈ city_names ∧ has_data db n).
  { intros n. rewrite elem_of_dom. destruct (Hl n) as [H1 H2]. split.
    - intros [e He]. destruct (decide (n ∈ city_names)) as [Hin|Hin].
      + destruct (has_data_dec db n) as [Hd|Hd]; [tauto|].
        rewrite H2 in He by tauto. discriminate.
      + rewrite H2 in He by tauto. discriminate.
    - intros H. destruct (H1 H) as (c & e & _ & _ & He). eauto. }
  split; [exact Hdom|].
  intros a b c -> Hab Ha Hb Hc.
  rewrite <- size_dom.
  assert (E : dom m = {[a; b]}).
  { apply set_eq. intros n. rewrite Hdom, elem_of_union, !elem_of_singleton.
    split.
    - intros [Hin Hd]. apply elem_of_cons in Hin as [->|Hin]; [tauto|].
      apply elem_of_cons in Hin as [->|Hin]; [tauto|].
      apply list_elem_of_singleton in Hin as ->.
      destruct Hd as (c' & r' & Hc' & _). congruence.
    - intros [->| ->]; (split; [|assumption]).
      + left.
      + right; left. }
  rewrite E, size_union by set_solver.
  rewrite !size_singleton. reflexivity.
Qed.

Lemma compare_cities_keys_witness :
  ∃ m, compare_cities sample_db ["Tokyo"; "London"; "Atlantis"] = Ok m
       ∧ size m = 2%nat.
Proof.
  destruct (proj1 (compare_cities_keys sample_db
                     ["Tokyo"; "London"; "Atlantis"]))
    as (m & Hm & _ & Hsize).
  exists m. split; [exact Hm|].
  apply (Hsize "Tokyo" "London" "Atlantis").
  - reflexivity.
  - discriminate.
  - exists tokyo, (sample_record 1 1 10 40 "Clear" (at_time 19 1 0)).
    split; [reflexivity|]. split; [left | reflexivity].
  - exists london, (sample_record 3 2 5 80 "Rain" (at_time 19 14 30)).
    split; [reflexivity|]. split; [right; right; left | reflexivity].
  - reflexivity.
Defined.

(** C6.  Whatever a comparison returns under a name, its [latest_record]
    is the [recorded_at] of the last row of that city in the order in which
    the rows are retrieved, printed as [YYYY-MM-DD HH:MM:SS]; this is not the
    maximum of [recorded_at]: in [unordered_db] the latest record is that of
    the 21st and the field shows the 20th. *)
Theorem compare_cities_latest_record :
  (∀ (db : Session) (city_names : list string) m n e,
     compare_cities db city_names = Ok m → m !! n = Some e →
     ∃ c r, city_by_name db n = Some c
            ∧ last (records_of db (City.id c)) = Some r
            ∧ Comparison.latest_record e
              = Some (strftime_ymd_hms (WeatherRecord.recorded_at r))
            ∧ is_ymd_hms (strftime_ymd_hms (WeatherRecord.recorded_at r))
              = true)
  ∧ (∃ m e, compare_cities unordered_db ["Tokyo"] = Ok m
            ∧ m !! "Tokyo" = Some e
            ∧ Comparison.latest_record e = Some "2026-01-20 09:00:00"
            ∧ Exists (λ r, WeatherRecord.recorded_at r = at_time 21 9 0)
                (records_of unordered_db 1)).
Proof.
  split.
  - intros db city_names m n e Hm He.
    destruct (compare_cities_lookup db city_names) as (m' & Hm' & Hl).
    rewrite Hm in Hm'. injection Hm' as <-.
    destruct (Hl n) as [H1 H2].
    destruct (decide (n ∈ city_names)) as [Hin|Hin];
      [destruct (has_data_dec db n) as [Hd|Hd]|].
    + destruct (H1 (conj Hin Hd)) as (c & e' & Hc & He' & Hn).
      rewrite He in Hn. injection Hn as <-.
      apply has_data_records_of in Hd as (c' & Hc' & Hne).
      rewrite Hc in Hc'. injection Hc' as <-.
      destruct (comparison_entry_ok c _ Hne) as (e2 & r & He2 & Hlast & Hlat & _).
      rewrite He' in He2. injection He2 as <-.
      exists c, r. repeat split; try assumption.
      apply strftime_ymd_hms_shape.
    + rewrite H2 in He by tauto. discriminate.
    + rewrite H2 in He by tauto. discriminate.
  - destruct (compare_cities_lookup unordered_db ["Tokyo"]) as (m & Hm & Hl).
    destruct (Hl "Tokyo") as [H1 _].
    destruct H1 as (c & e & Hc & He & Hn).
    { split; [left|]. apply has_data_records_of. exists tokyo.
      split; [reflexivity|]. vm_compute. discriminate. }
    exists m, e. split; [exact Hm|]. split; [exact Hn|].
    vm_compute in Hc. injection Hc as <-.
    vm_compute in He. injection He as <-.
    split; [reflexivity|].
    apply Exists_cons_hd. reflexivity.
Qed.

Lemma compare_cities_latest_record_witness :
  ∃ m e, compare_cities sample_db ["London"] = Ok m
         ∧ m !! "London" = Some e
         ∧ Comparison.latest_record e = Some "2026-01-19 14:30:00".
Proof.
  destruct (compare_cities_lookup sample_db ["London"]) as (m & Hm & Hl).
  destruct (Hl "London") as [H1 _].
  destruct H1 as (c & e & Hc & He & Hn).
  { split; [left|]. apply has_data_records_of. exists london.
    split; [reflexivity|]. vm_compute. discriminate. }
  exists m, e. split; [exact Hm|]. split; [exact Hn|].
  destruct (proj1 compare_cities_latest_record sample_db ["London"] m
              "London" e Hm Hn) as (c' & r & Hc' & Hlast & Hlat & _).
  rewrite Hlat. vm_compute in Hc'. injection Hc' as <-.
  vm_compute in Hlast. injection Hlast as <-. reflexivity.
Defined.

(** ** Humidity and pressure patterns *)

Lemma omap_id_fmap {A B} (f : A → option B) (l : list A) :
  omap id (f <$> l) = omap f l.
Proof.
  induction l as [|x l IH]; [reflexivity|].
  cbn. destruct (f x); cbn; [f_equal|]; exact IH.
Qed.

Lemma truthy_ints_fmap {A} (f : A → option Z) (l : list A) :
  truthy_ints (f <$> l) = filter (λ x, x ≠ 0) (omap f l).
Proof. unfold truthy_ints. now rewrite omap_id_fmap. Qed.

Lemma elem_of_truthy_ints (l : list (option Z)) (x : Z) :
  x ∈ truthy_ints l ↔ Some x ∈ l ∧ x ≠ 0.
Proof.
  unfold truthy_ints. rewrite list_elem_of_filter, list_elem_of_omap.
  split.
  - intros [Hx (o & Ho & Heq)]. simpl in Heq. subst. tauto.
  - intros [Hin Hx]. split; [exact Hx|]. exists (Some x). tauto.
Qed.

Lemma truthy_ints_nil (l : list (option Z)) :
  Forall (λ o, o = None ∨ o = Some 0) l → truthy_ints l = [].
Proof.
  induction 1 as [|o l Ho Hl IH]; [reflexivity|].
  unfold truthy_ints in *. destruct Ho as [->| ->]; simpl; [exact IH|].
  rewrite filter_cons_False by (intros H; apply H; reflexivity). exact IH.
Qed.

Lemma foldl_Zmin_spec (r : list Z) (x : Z) :
  foldl Z.min x r ∈ x :: r ∧ ∀ y, y ∈ x :: r → foldl Z.min x r ≤ y.
Proof.
  revert x; induction r as [|z r IH]; intros x; simpl.
  { split; [left|]. intros y Hy. apply list_elem_of_singleton in Hy. lia. }
  destruct (IH (Z.min x z)) as [Hin Hle]. split.
  - apply elem_of_cons in Hin as [Heq|Hin].
    + rewrite Heq. destruct (Z.min_spec x z) as [[_ ->]|[_ ->]];
        [left | right; left].
    + right; right; exact Hin.
  - intros y Hy. apply elem_of_cons in Hy as [Hy|Hy].
    + specialize (Hle (Z.min x z) ltac:(left)). lia.
    + apply elem_of_cons in Hy as [Hy|Hy].
      * specialize (Hle (Z.min x z) ltac:(left)). lia.
      * apply Hle. right; exact Hy.
Qed.

Lemma foldl_Zmax_spec (r : list Z) (x : Z) :
  foldl Z.max x r ∈ x :: r ∧ ∀ y, y ∈ x :: r → y ≤ foldl Z.max x r.
Proof.
  revert x; induction r as [|z r IH]; intros x; simpl.
  { split; [left|]. intros y Hy. apply list_elem_of_singleton in Hy. lia. }
  destruct (IH (Z.max x z)) as [Hin Hle]. split.
  - apply elem_of_cons in Hin as [Heq|Hin].
    + rewrite Heq. destruct (Z.max_spec x z) as [[_ ->]|[_ ->]];
        [right; left | left].
    + right; right; exact Hin.
  - intros y Hy. apply elem_of_cons in Hy as [Hy|Hy].
    + specialize (Hle (Z.max x z) ltac:(left)). lia.
    + apply elem_of_cons in Hy as [Hy|Hy].
      * specialize (Hle (Z.max x z) ltac:(left)). lia.
      * apply Hle. right; exact Hy.
Qed.

Lemma int_stats_spec (xs : list Z) :
  ∃ st, int_stats xs = Ok st
        ∧ (xs = [] → st = IntStats.mk 0%float 0 0)
        ∧ (xs ≠ [] → describes xs st).
Proof.
  destruct xs as [|x r].
  { eexists. split; [reflexivity|]. split; [reflexivity | done]. }
  eexists. split; [reflexivity|]. split; [discriminate|]. intros _.
  destruct (foldl_Zmin_spec r x) as [H1 H2].
  destruct (foldl_Zmax_spec r x) as [H3 H4].
  unfold describes. split; [eexists; split; reflexivity|].
  simpl. repeat split; assumption.
Qed.

Lemma foldl_count_condition (l : list string) :
  ∀ (acc : gmap string Z) (s : string),
    foldl count_condition acc l !! s
    = if decide (occurrences_in s l = 0) then acc !! s
      else Some (default 0 (acc !! s) + occurrences_in s l).
Proof.
  unfold occurrences_in.
  induction l as [|c l IH]; intros acc s; simpl; [reflexivity|].
  rewrite IH. unfold count_condition.
  destruct (decide (c = s)) as [->|Hne].
  - rewrite filter_cons_True by reflexivity. simpl.
    rewrite lookup_insert_eq. simpl.
    repeat case_decide; try lia; f_equal; lia.
  - rewrite filter_cons_False by exact Hne.
    rewrite lookup_insert_ne by exact Hne. reflexivity.
Qed.

Lemma truthy_strings_occurrences (records : list WeatherRecord.t) (s : string) :
  s ≠ "" →
  occurrences_in s (truthy_strings (WeatherRecord.weather_main <$> records))
  = occurrences s records.
Proof.
  intros Hs. unfold occurrences_in, occurrences, truthy_strings. f_equal.
  induction records as [|r rs IH]; [reflexivity|].
  rewrite fmap_cons. destruct (WeatherRecord.weather_main r) as [c|] eqn:E.
  - simpl. destruct (decide (c = s)) as [->|Hne].
    + rewrite (filter_cons_True (λ r, WeatherRecord.weather_main r = Some s))
        by exact E.
      rewrite (filter_cons_True (λ s0 : string, s0 ≠ "")) by exact Hs.
      rewrite (filter_cons_True (λ c, c = s)) by reflexivity.
      simpl. f_equal. exact IH.
    + rewrite (filter_cons_False (λ r, WeatherRecord.weather_main r = Some s))
        by congruence.
      destruct (decide (c = "")) as [->|Hc].
      * rewrite (filter_cons_False (λ s0 : string, s0 ≠ ""))
          by (intros H; apply H; reflexivity).
        exact IH.
      * rewrite (filter_cons_True (λ s0 : string, s0 ≠ "")) by exact Hc.
        rewrite (filter_cons_False (λ c, c = s)) by exact Hne. exact IH.
  - simpl.
    rewrite (filter_cons_False (λ r, WeatherRecord.weather_main r = Some s))
      by congruence.
    exact IH.
Qed.

Lemma truthy_strings_no_empty (l : list (option string)) :
  occurrences_in "" (truthy_strings l) = 0.
Proof.
  unfold occurrences_in, truthy_strings.
  replace (filter (λ c : string, c = "") (filter (λ s : string, s ≠ "") (omap id l)))
    with (@nil string); [reflexivity|].
  symmetry. induction (omap id l) as [|c cs IH]; [reflexivity|].
  destruct (decide (c = "")) as [->|Hc].
  - rewrite (filter_cons_False (λ s : string, s ≠ ""))
      by (intros H; apply H; reflexivity).
    exact IH.
  - rewrite (filter_cons_True (λ s : string, s ≠ "")) by exact Hc.
    rewrite (filter_cons_False (λ c, c = "")) by exact Hc. exact IH.
Qed.

(** The whole result of the patterns operation. *)
Lemma patterns_of_spec (records : list WeatherRecord.t) :
  records ≠ [] →
  ∃ p, patterns_of records = Ok (Some p)
       ∧ int_stats (truthy_ints (WeatherRecord.humidity <$> records))
         = Ok (Patterns.humidity p)
       ∧ int_stats (truthy_ints (WeatherRecord.pressure <$> records))
         = Ok (Patterns.pressure p)
       ∧ (∀ s, Patterns.weather_conditions p !! s
               = if decide (s ≠ "" ∧ occurrences s records ≠ 0)
                 then Some (occurrences s records) else None)
       ∧ Patterns.total_records p = Z.of_nat (List.length records).
Proof.
  intros Hne. destruct records as [|r0 rs]; [done|].
  unfold patterns_of.
  destruct (int_stats_ok
              (truthy_ints (WeatherRecord.humidity <$> r0 :: rs))) as [h Hh].
  destruct (int_stats_ok
              (truthy_ints (WeatherRecord.pressure <$> r0 :: rs))) as [p Hp].
  rewrite Hh, Hp, !bind_Ok.
  eexists. split; [reflexivity|].
  cbn [Patterns.humidity Patterns.pressure Patterns.weather_conditions
       Patterns.total_records].
  repeat split; try reflexivity.
  intros s. rewrite foldl_count_condition, lookup_empty.
  cbn [default from_option].
  destruct (decide (s = "")) as [->|Hs].
  - rewrite truthy_strings_no_empty.
    rewrite decide_True by reflexivity.
    rewrite decide_False by tauto. reflexivity.
  - rewrite truthy_strings_occurrences by exact Hs.
    repeat case_decide; try tauto; reflexivity.
Qed.

(** C7 (as stated, refuted).  The empty label is a [weather_main] value of
    one record of [blank_db], and the frequency map has no key for it. *)
Lemma patterns_skip_empty_label :
  ∃ p, get_humidity_pressure_patterns blank_db 1 = Ok (Some p)
       ∧ occurrences "" (records_of blank_db 1) = 1
       ∧ Patterns.weather_conditions p !! "" = None
       ∧ Patterns.weather_conditions p !! "Rain" = Some 1.
Proof.
  eexists. split; [vm_compute; reflexivity|].
  split; [reflexivity|]. split; vm_compute; reflexivity.
Qed.

(** C7 (amended).  Let [rows] be the rows of the table whose [city_id] is
    that of the city.  Without such rows the patterns operation returns
    [None] and raises nothing.  With rows it returns statistics of the
    humidities that are neither null nor zero (the average as Python
    computes it, the sum divided by the count in double precision and then
    [round(., 2)]; the least and the greatest value as integers), the same
    for the pressures, for every non-empty label the number of rows that
    carry it (null and empty labels have no key), and the number of all
    rows.  The humidities 40 and 60 give 50.0, 40 and 60; 1, 2, 2 give the
    average 1.67; seven 1 and one 2 give 1.12 (the tie 1.125 goes to the
    even digit); 37 times 30 and 3 times 31 give 30.07 (the double
    nearest to 30.075 is below it). *)
Theorem patterns_contract (db : Session) (city_id : Z) :
  let rows :=
    filter (λ r, WeatherRecord.city_id r = city_id) (weather_records db) in
  let hs := filter (λ x, x ≠ 0) (omap WeatherRecord.humidity rows) in
  let ps := filter (λ x, x ≠ 0) (omap WeatherRecord.pressure rows) in
  (rows = [] → get_humidity_pressure_patterns db city_id = Ok None)
  ∧ (rows ≠ [] →
     ∃ p, get_humidity_pressure_patterns db city_id = Ok (Some p)
          ∧ (hs ≠ [] → describes hs (Patterns.humidity p))
          ∧ (ps ≠ [] → describes ps (Patterns.pressure p))
          ∧ (∀ s, Patterns.weather_conditions p !! s
                  = if decide (s ≠ "" ∧ occurrences s rows ≠ 0)
                    then Some (occurrences s rows) else None)
          ∧ Patterns.total_records p = Z.of_nat (List.length rows))
  ∧ (∃ p, get_humidity_pressure_patterns humid_db 1 = Ok (Some p)
          ∧ Patterns.humidity p = IntStats.mk 50%float 40 60)
  ∧ humidity_average (humidity_db [1; 2; 2]) 1 = Some 1.67%float
  ∧ humidity_average (humidity_db [1; 1; 1; 1; 1; 1; 1; 2]) 1
    = Some 1.12%float
  ∧ humidity_average (humidity_db (replicate 37 30 ++ replicate 3 31)) 1
    = Some 30.07%float.
Proof.
  intros rows hs ps. split; [|split; [|split]].
  - unfold get_humidity_pressure_patterns.
    change (records_of db city_id) with rows. intros ->. reflexivity.
  - intros Hne. unfold get_humidity_pressure_patterns.
    change (records_of db city_id) with rows.
    destruct (patterns_of_spec rows Hne) as (p & Hp & Hh & Hpr & Hc & Ht).
    exists p. split; [exact Hp|].
    rewrite truthy_ints_fmap in Hh, Hpr. fold hs in Hh. fold ps in Hpr.
    split.
    { intros Hhs. destruct (int_stats_spec hs) as (st & Hst & _ & Hd).
      rewrite Hh in Hst. injection Hst as <-. auto. }
    split.
    { intros Hps. destruct (int_stats_spec ps) as (st & Hst & _ & Hd).
      rewrite Hpr in Hst. injection Hst as <-. auto. }
    split; assumption.
  - eexists. split; vm_compute; reflexivity.
  - repeat split; vm_compute; reflexivity.
Qed.

Lemma patterns_contract_witness :
  ∃ p, get_humidity_pressure_patterns sample_db 1 = Ok (Some p)
       ∧ describes [40; 60; 40; 60] (Patterns.humidity p)
       ∧ IntStats.average (Patterns.humidity p) = 50%float
       ∧ Patterns.weather_conditions p !! "Clear" = Some 3
       ∧ Patterns.total_records p = 4.
Proof.
  destruct (patterns_contract sample_db 1) as (_ & H & _).
  destruct H as (p & Hp & Hh & _ & Hc & Ht); [vm_compute; discriminate|].
  exists p. split; [exact Hp|].
  split; [apply Hh; vm_compute; discriminate|].
  split; [|split; [rewrite Hc | rewrite Ht]; reflexivity].
  vm_compute in Hp. injection Hp as <-. reflexivity.
Defined.

(** C10.  When the table holds rows of the city but the humidity of each
    of them is null or zero, the humidity statistics are the zeros
    [{average: 0, min: 0, max: 0}]; the same holds for the pressures;
    [total_records] counts every row of the table whose [city_id] is that of
    the city. *)
Theorem patterns_zero_placeholder (db : Session) (city_id : Z) :
  let rows :=
    filter (λ r, WeatherRecord.city_id r = city_id) (weather_records db) in
  rows ≠ [] →
  ∃ p, get_humidity_pressure_patterns db city_id = Ok (Some p)
       ∧ Patterns.total_records p = Z.of_nat (List.length rows)
       ∧ (Forall (λ r, WeatherRecord.humidity r = None
                       ∨ WeatherRecord.humidity r = Some 0) rows
          → Patterns.humidity p = IntStats.mk 0%float 0 0)
       ∧ (Forall (λ r, WeatherRecord.pressure r = None
                       ∨ WeatherRecord.pressure r = Some 0) rows
          → Patterns.pressure p = IntStats.mk 0%float 0 0).
Proof.
  intros rows Hne. unfold get_humidity_pressure_patterns.
  change (records_of db city_id) with rows.
  destruct (patterns_of_spec _ Hne) as (p & Hp & Hh & Hpr & _ & Ht).
  exists p. split; [exact Hp|]. split; [exact Ht|]. split.
  - intros Hall. rewrite truthy_ints_nil in Hh.
    + simpl in Hh. congruence.
    + apply Forall_fmap. exact Hall.
  - intros Hall. rewrite truthy_ints_nil in Hpr.
    + simpl in Hpr. congruence.
    + apply Forall_fmap. exact Hall.
Qed.

Lemma patterns_zero_placeholder_witness :
  ∃ p, get_humidity_pressure_patterns blank_db 1 = Ok (Some p)
       ∧ Patterns.total_records p = 2
       ∧ Patterns.humidity p = IntStats.mk 0%float 0 0
       ∧ Patterns.pressure p = IntStats.mk 0%float 0 0.
Proof.
  destruct (patterns_zero_placeholder blank_db 1) as (p & Hp & Ht & Hh & Hpr);
    [vm_compute; discriminate|].
  exists p. split; [exact Hp|]. split; [exact Ht|].
  split.
  - apply Hh. constructor; [left; reflexivity|].
    constructor; [right; reflexivity|]. constructor.
  - apply Hpr. constructor; [right; reflexivity|].
    constructor; [left; reflexivity|]. constructor.
Defined.

(** ** Trend analysis *)

Lemma mapM_require_Some {A} (msg : string) (xs : list A) :
  mapM (require msg) (Some <$> xs) = Ok xs.
Proof.
  induction xs as [|x xs IH]; [reflexivity|].
  rewrite fmap_cons. cbn [mapM require]. rewrite bind_Ok, IH. reflexivity.
Qed.

Lemma py_sum_Some (xs : list float) :
  py_sum (Some <$> xs) = Ok (float_sum xs).
Proof. unfold py_sum. now rewrite mapM_require_Some. Qed.

Lemma mean_or_zero_Some (xs : list float) :
  mean_or_zero (Some <$> xs) = Ok (mean0 xs).
Proof.
  destruct xs as [|x r]; [reflexivity|].
  unfold mean_or_zero. rewrite fmap_cons. rewrite <- fmap_cons.
  rewrite py_sum_Some, bind_Ok, length_fmap. reflexivity.
Qed.

(** No float is above 0.5 and below -0.5. *)
Lemma thresholds_exclusive (c : float) :
  (c <? -0.5)%float = true → (0.5 <? c)%float = false.
Proof.
  rewrite !FloatAxioms.ltb_spec.
  change (FloatOps.Prim2SF (-0.5)%float)
    with (SpecFloat.S754_finite true 4503599627370496 (-53)).
  change (FloatOps.Prim2SF 0.5%float)
    with (SpecFloat.S754_finite false 4503599627370496 (-53)).
  destruct (FloatOps.Prim2SF c) as [[]|[]| |[] m e];
    try reflexivity; try discriminate.
Qed.

Lemma classify_increasing (c : float) :
  classify c = "increasing" ↔ (0.5 <? c)%float = true.
Proof.
  unfold classify. destruct (0.5 <? c)%float; [tauto|].
  destruct (c <? -0.5)%float; split; discriminate.
Qed.

Lemma classify_decreasing (c : float) :
  classify c = "decreasing" ↔ (c <? -0.5)%float = true.
Proof.
  unfold classify. pose proof (thresholds_exclusive c) as Hex.
  destruct (c <? -0.5)%float.
  - rewrite (Hex eq_refl). tauto.
  - destruct (0.5 <? c)%float; split; discriminate.
Qed.

Lemma classify_stable (c : float) :
  classify c = "stable"
  ↔ (0.5 <? c)%float = false ∧ (c <? -0.5)%float = false.
Proof.
  unfold classify. destruct (0.5 <? c)%float.
  - split; [discriminate | intros [? _]; discriminate].
  - destruct (c <? -0.5)%float.
    + split; [discriminate | intros [_ ?]; discriminate].
    + tauto.
Qed.

Lemma trend_records_spec (db : Session) (city_id : Z) (s e : datetime) :
  Sorted rec_le (trend_records db city_id s e)
  ∧ ∀ r, r ∈ trend_records db city_id s e ↔
         r ∈ weather_records db ∧ WeatherRecord.city_id r = city_id
         ∧ dt_le s (WeatherRecord.recorded_at r)
         ∧ dt_le (WeatherRecord.recorded_at r) e.
Proof.
  split; [apply ascending_Sorted|].
  intros r. unfold trend_records.
  rewrite elem_of_order_by, list_elem_of_filter, elem_of_records_of,
    in_bounds_spec.
  split.
  - intros [[Hs He] [Hin Hc]]. repeat split; auto.
  - intros (Hin & Hc & Hs & He).
    split; [split; intros ? [= <-]; assumption | split; assumption].
Qed.

(** The result of the trend computation on records whose temperatures
    are the floats [ts]. *)
Lemma trend_of_spec (records : list WeatherRecord.t) (ts : list float) :
  records ≠ [] →
  WeatherRecord.temperature <$> records = Some <$> ts →
  ∃ t, trend_of records = Ok (Some t)
       ∧ Trend.temperature_change t
         = round2 (mean0 (drop (halfway ts) ts) - mean0 (take (halfway ts) ts))
       ∧ Trend.trend_direction t
         = classify (mean0 (drop (halfway ts) ts) - mean0 (take (halfway ts) ts))
       ∧ Trend.avg_temperature t = round2 (mean0 ts)
       ∧ Trend.record_count t = Z.of_nat (List.length records).
Proof.
  intros Hne Hts.
  assert (Hlen : List.length ts = List.length records).
  { rewrite <- (length_fmap Some ts), <- Hts. apply length_fmap. }
  destruct records as [|r0 rs]; [done|].
  destruct ts as [|x xs]; [discriminate|].
  unfold trend_of. rewrite Hts.
  rewrite py_sum_Some, bind_Ok.
  rewrite length_fmap. cbn [truediv List.length]. rewrite bind_Ok.
  unfold py_min, py_max. rewrite !mapM_require_Some, !bind_Ok.
  assert (Hh : halfway (Some <$> x :: xs) = halfway (x :: xs)).
  { unfold halfway. now rewrite length_fmap. }
  rewrite Hh, <- fmap_take, <- fmap_drop, !mean_or_zero_Some, !bind_Ok.
  eexists. split; [reflexivity|].
  repeat split; reflexivity.
Qed.

(** C3 (as stated, refuted).  For the temperatures 10 and 10.502 the
    returned [temperature_change] is 0.5, which is not above 0.5, and the
    direction is "increasing": the direction is decided before the change is
    rounded. *)
Lemma trend_direction_ignores_rounding :
  ∃ t, get_weather_trend drift_db 1 7 sample_now = Ok (Some t)
       ∧ Trend.temperature_change t = 0.5%float
       ∧ (0.5 <? Trend.temperature_change t)%float = false
       ∧ Trend.trend_direction t = "increasing".
Proof.
  eexists. split; [vm_compute; reflexivity|].
  repeat split; vm_compute; reflexivity.
Qed.

(** C3 (amended).  When the window [now - days, now] holds records, all
    with a temperature, trend analysis takes them in ascending order of
    [recorded_at] (whichever order the engine gives to equal timestamps),
    splits their temperatures [ts] at index [len(ts) / 2], and with [change]
    the mean of the second half minus the mean of the first half, taken in
    double precision (an empty half has mean 0), it returns
    [temperature_change = round(change, 2)] and the direction "increasing"
    iff the unrounded [change > 0.5], "decreasing" iff [change < -0.5],
    "stable" otherwise.  The temperatures 10, 10, 20, 20 give 10.0 and
    "increasing"; 0.3 and 0.8, whose difference is 0.5 in double precision,
    give 0.5 and "stable"; 0 and 1.667 give 1.67 and "increasing"; 1.125
    and 0 give -1.12 (the tie goes to the even digit) and "decreasing". *)
Theorem trend_contract (db : Session) (city_id days : Z) (now start : datetime)
  (ts : list float) :
  let records := trend_records db city_id start now in
  let first_half := take (List.length ts / 2) ts in
  let second_half := drop (List.length ts / 2) ts in
  let change := (mean0 second_half - mean0 first_half)%float in
  (sub_days now days = Ok start →
   records ≠ [] →
   WeatherRecord.temperature <$> records = Some <$> ts →
   ∃ t, get_weather_trend db city_id days now = Ok (Some t)
        ∧ Sorted rec_le records
        ∧ records
          ≡ₚ filter (λ r, WeatherRecord.city_id r = city_id
                          ∧ dt_le start (WeatherRecord.recorded_at r)
                          ∧ dt_le (WeatherRecord.recorded_at r) now)
               (weather_records db)
        ∧ first_half ++ second_half = ts
        ∧ Trend.temperature_change t = round2 change
        ∧ (Trend.trend_direction t = "increasing"
           ↔ (0.5 <? change)%float = true)
        ∧ (Trend.trend_direction t = "decreasing"
           ↔ (change <? -0.5)%float = true)
        ∧ (Trend.trend_direction t = "stable"
           ↔ (0.5 <? change)%float = false ∧ (change <? -0.5)%float = false))
  ∧ trend_summary (temperature_db [10; 10; 20; 20]%float)
    = Some (10%float, "increasing")
  ∧ trend_summary (temperature_db [0.3; 0.8]%float)
    = Some (0.5%float, "stable")
  ∧ trend_summary (temperature_db [0; 1.667]%float)
    = Some (1.67%float, "increasing")
  ∧ trend_summary (temperature_db [1.125; 0]%float)
    = Some ((-1.12)%float, "decreasing").
Proof.
  intros records first_half second_half change.
  split; [|repeat split; vm_compute; reflexivity].
  intros Hstart Hne Hts.
  unfold get_weather_trend. rewrite Hstart, bind_Ok. fold records.
  destruct (trend_of_spec records ts Hne Hts) as (t & Ht & Hc & Hd & _).
  destruct (trend_records_spec db city_id start now) as [Hsorted _].
  exists t. split; [exact Ht|]. split; [exact Hsorted|].
  split.
  { unfold records, trend_records, records_of.
    rewrite ascending_Permutation, list_filter_filter.
    erewrite list_filter_iff; [reflexivity|].
    intros r. cbn beta. rewrite in_bounds_spec. split.
    - intros [[Hs He] Hcity]. auto.
    - intros (Hcity & Hs & He).
      split; [split; intros ? [= <-]; assumption | assumption]. }
  split; [apply take_drop|].
  fold (halfway ts) in first_half, second_half.
  split; [exact Hc|]. rewrite Hd.
  split; [apply classify_increasing|].
  split; [apply classify_decreasing | apply classify_stable].
Qed.

Lemma trend_contract_witness :
  ∃ t, get_weather_trend sample_db 1 7 sample_now = Ok (Some t)
       ∧ Trend.temperature_change t = 10%float
       ∧ Trend.trend_direction t = "increasing".
Proof.
  destruct (proj1 (trend_contract sample_db 1 7 sample_now (at_time 13 0 0)
                     [10; 10; 20; 20]%float))
    as (t & Ht & _ & _ & _ & Hc & Hinc & _).
  - reflexivity.
  - vm_compute. discriminate.
  - vm_compute. reflexivity.
  - exists t. split; [exact Ht|].
    split; [rewrite Hc | apply Hinc]; vm_compute; reflexivity.
Defined.

(** ** Daily average *)







(** ** Ingestion *)

Lemma fetch_and_save_except_classes {A} (r : result A) :
  is_ok (fetch_and_save_except r) = true
  ∨ raised_class (fetch_and_save_except r) = Some ValidationError
  ∨ raised_class (fetch_and_save_except r) = Some ExternalAPIError.
Proof.
  destruct r as [a|[c msg]]; [left; reflexivity|].
  right. destruct c; simpl; auto.
Qed.

Lemma fetch_and_save_except_wraps {A} (r : result A) (e : exn) :
  r = Raise e → exn_class e ≠ ValidationError →
  raised_class (fetch_and_save_except r) = Some ExternalAPIError.
Proof.
  intros -> Hc. destruct e as [c msg]. destruct c; simpl in *; congruence.
Qed.

Lemma fetch_and_save_except_validation {A} (r : result A) (msg : string) :
  r = raise ValidationError msg →
  fetch_and_save_except r = raise ValidationError msg.
Proof. intros ->. reflexivity. Qed.

Lemma fetch_except_wraps (e : exn) :
  exn_class e ≠ ValidationError →
  ∃ e', fetch_except (Raise e) = Raise e' ∧ exn_class e' ≠ ValidationError.
Proof.
  intros Hc. destruct e as [c msg].
  destruct c; simpl in *; try congruence; eexists; split;
    try reflexivity; simpl; congruence.
Qed.

Lemma raise_for_status_spec (s : Z) :
  (400 ≤ s < 600 → ∃ msg, raise_for_status s = raise HTTPError msg)
  ∧ (¬ 400 ≤ s < 600 → raise_for_status s = Ok ()).
Proof.
  unfold raise_for_status.
  destruct (Z.leb_spec 400 s), (Z.ltb_spec s 500), (Z.leb_spec 500 s),
    (Z.ltb_spec s 600); simpl; split; intros; try lia; eauto.
Qed.

Lemma require_key_raises (k : string) (data : json) :
  py_contains k data ≠ Ok true →
  ∃ e, require_key k data = Raise e ∧ exn_class e ≠ ValidationError.
Proof.
  unfold require_key. intros H.
  destruct (py_contains k data) as [[|]|[c msg]] eqn:E.
  - congruence.
  - eexists. split; [reflexivity | discriminate].
  - exists (MkExn c msg). split; [reflexivity|].
    destruct data; simpl in E |- *; unfold raise in E; congruence.
Qed.

Lemma require_key_class (k : string) (data : json) (e : exn) :
  require_key k data = Raise e → exn_class e ≠ ValidationError.
Proof.
  unfold require_key. destruct data; simpl; unfold raise;
    repeat case_match; intros Heq; inversion Heq; discriminate.
Qed.

(** The failures of the provider call that do not come out as
    [ValidationError]. *)
Lemma fetch_try_raises (city_name : string) (r : reply) :
  (∃ e, r = GetRaises e ∧ exn_class e ≠ ValidationError)
  ∨ (∃ s body, r = Response s body ∧ 400 ≤ s < 600 ∧ s ≠ 404)
  ∨ (∃ s, r = Response s None ∧ s ≠ 404)
  ∨ (∃ s data, r = Response s (Some data) ∧ s ≠ 404
               ∧ (py_contains "main" data ≠ Ok true
                  ∨ py_contains "weather" data ≠ Ok true)) →
  ∃ e, fetch_try city_name r = Raise e ∧ exn_class e ≠ ValidationError.
Proof.
  intros [(e & -> & He)|[(s & body & -> & Hs & H404)|[(s & -> & H404)|
    (s & data & -> & H404 & Hmiss)]]].
  - exists e. split; [reflexivity | exact He].
  - unfold fetch_try. destruct (Z.eqb_spec s 404); [contradiction|].
    destruct (Z.eqb_spec s 401).
    { eexists. split; [reflexivity | discriminate]. }
    destruct (proj1 (raise_for_status_spec s) Hs) as [msg ->].
    eexists. split; [reflexivity | discriminate].
  - unfold fetch_try. destruct (Z.eqb_spec s 404); [contradiction|].
    destruct (Z.eqb_spec s 401).
    { eexists. split; [reflexivity | discriminate]. }
    destruct (raise_for_status s) as [[]|e] eqn:E.
    + eexists. split; [reflexivity | discriminate].
    + exists e. split; [reflexivity|].
      unfold raise_for_status, raise in E.
      repeat case_match; inversion E; discriminate.
  - unfold fetch_try. destruct (Z.eqb_spec s 404); [contradiction|].
    destruct (Z.eqb_spec s 401).
    { eexists. split; [reflexivity | discriminate]. }
    destruct (raise_for_status s) as [[]|e] eqn:E.
    + rewrite bind_Ok. cbn [response_json]. rewrite bind_Ok.
      destruct (require_key "main" data) as [[]|e1] eqn:E1.
      * rewrite bind_Ok. destruct Hmiss as [Hm|Hw].
        { destruct (require_key_raises _ _ Hm) as (e' & He' & _).
          congruence. }
        destruct (require_key_raises _ _ Hw) as (e' & -> & Hc).
        exists e'. split; [reflexivity | exact Hc].
      * exists e1. split; [reflexivity|].
        eapply require_key_class; exact E1.
    + exists e. split; [reflexivity|].
      unfold raise_for_status, raise in E.
      repeat case_match; inversion E; discriminate.
Qed.

Lemma fetch_weather_from_api_raises (api_key : option string)
  (city_name : string) (r : reply) (e : exn) :
  fetch_try city_name r = Raise e → exn_class e ≠ ValidationError →
  ∃ e', fetch_weather_from_api api_key city_name r = Raise e'
        ∧ exn_class e' ≠ ValidationError.
Proof.
  intros Ht Hc. unfold fetch_weather_from_api.
  destruct (str_truthy api_key).
  - rewrite Ht. apply fetch_except_wraps. exact Hc.
  - eexists. split; [reflexivity | discriminate].
Qed.

(** C4 (as stated, refuted).  A reply with status 300, which is not a 2xx
    status, and a complete payload is accepted: the record is stored and
    nothing is raised. *)
Lemma fetch_and_save_accepts_status_300 :
  raise_for_status 300 = Ok ()
  ∧ is_ok (fetch_and_save_weather sample_insert_city sample_insert_record
             (Some "key") sample_db "Tokyo"
             (Response 300 (Some sample_payload)) sample_now) = true.
Proof. split; vm_compute; reflexivity. Qed.

Lemma fetch_and_save_try_raises
  (insert_city :
     Session → json → json → json → json → datetime → result (Session * City.t))
  (insert_record :
     Session → Z → json → json → json → json → datetime
     → result (Session * WeatherRecord.t))
  (api_key : option string) (db : Session) (city_name : string) (r : reply)
  (now : datetime) (e : exn) :
  fetch_weather_from_api api_key city_name r = Raise e →
  fetch_and_save_try insert_city insert_record api_key db city_name r now
  = Raise e.
Proof. intros H. unfold fetch_and_save_try. rewrite H. reflexivity. Qed.

(** C4 (amended).  Whatever the storage engine does, [fetch_and_save]
    returns or raises [ValidationError] or [ExternalAPIError], nothing else.
    With a configured key a provider 404 raises [ValidationError].  A 401,
    any other status from 400 to 599, a timeout, a connection failure and
    any other exception of the request, a body that is not JSON and a
    payload in which [main] or [weather] is missing all raise
    [ExternalAPIError]; the timeout and the connection failure carry their
    own messages. *)
Theorem fetch_and_save_error_kinds
  (insert_city :
     Session → json → json → json → json → datetime → result (Session * City.t))
  (insert_record :
     Session → Z → json → json → json → json → datetime
     → result (Session * WeatherRecord.t))
  (api_key : option string) (db : Session) (city_name : string) (r : reply)
  (now : datetime) :
  let outcome :=
    fetch_and_save_weather insert_city insert_record api_key db city_name r now
  in
  (is_ok outcome = true
   ∨ raised_class outcome = Some ValidationError
   ∨ raised_class outcome = Some ExternalAPIError)
  ∧ (∀ body, is_Some (str_truthy api_key) → r = Response 404 body →
       raised_class outcome = Some ValidationError)
  ∧ (∀ s body, r = Response s body → 400 ≤ s < 600 → s ≠ 404 →
       raised_class outcome = Some ExternalAPIError)
  ∧ (∀ e, r = GetRaises e → exn_class e ≠ ValidationError →
       raised_class outcome = Some ExternalAPIError)
  ∧ (∀ msg, is_Some (str_truthy api_key) → r = GetRaises (MkExn Timeout msg) →
       outcome
       = raise ExternalAPIError
           "Weather API request timed out. Please try again later.")
  ∧ (∀ msg, is_Some (str_truthy api_key) →
       r = GetRaises (MkExn ConnectionError msg) →
       outcome
       = raise ExternalAPIError
           "Failed to connect to weather API. Please check your internet connection.")
  ∧ (∀ s, r = Response s None → s ≠ 404 →
       raised_class outcome = Some ExternalAPIError)
  ∧ (∀ s data, r = Response s (Some data) → s ≠ 404 →
       py_contains "main" data ≠ Ok true
       ∨ py_contains "weather" data ≠ Ok true →
       raised_class outcome = Some ExternalAPIError).
Proof.
  intros outcome.
  assert (Hwrap : (∃ e, fetch_try city_name r = Raise e
                        ∧ exn_class e ≠ ValidationError) →
                  raised_class outcome = Some ExternalAPIError).
  { intros (e & He & Hc).
    destruct (fetch_weather_from_api_raises api_key city_name r e He Hc)
      as (e' & He' & Hc').
    unfold outcome, fetch_and_save_weather.
    eapply fetch_and_save_except_wraps; [|exact Hc'].
    apply fetch_and_save_try_raises. exact He'. }
  split; [apply fetch_and_save_except_classes|].
  split.
  { intros body [k Hk] ->. unfold outcome, fetch_and_save_weather,
      fetch_and_save_try, fetch_weather_from_api. rewrite Hk. reflexivity. }
  split.
  { intros s body -> Hs H404. apply Hwrap, fetch_try_raises.
    right; left. eauto 10. }
  split.
  { intros e -> He. apply Hwrap, fetch_try_raises. left. eauto. }
  split.
  { intros msg [k Hk] ->. unfold outcome, fetch_and_save_weather,
      fetch_and_save_try, fetch_weather_from_api. rewrite Hk. reflexivity. }
  split.
  { intros msg [k Hk] ->. unfold outcome, fetch_and_save_weather,
      fetch_and_save_try, fetch_weather_from_api. rewrite Hk. reflexivity. }
  split.
  { intros s -> H404. apply Hwrap, fetch_try_raises.
    right; right; left. eauto. }
  intros s data -> H404 Hmiss. apply Hwrap, fetch_try_raises.
  right; right; right. eauto 10.
Qed.

Lemma fetch_and_save_error_kinds_witness :
  raised_class
    (fetch_and_save_weather sample_insert_city sample_insert_record
       (Some "key") sample_db "Atlantis" (Response 404 None) sample_now)
  = Some ValidationError
  ∧ raised_class
      (fetch_and_save_weather sample_insert_city sample_insert_record
         (Some "key") sample_db "Tokyo" (Response 503 None) sample_now)
    = Some ExternalAPIError
  ∧ raised_class
      (fetch_and_save_weather sample_insert_city sample_insert_record
         (Some "key") sample_db "Tokyo"
         (Response 200 (Some (JObj [("main", JObj [])]))) sample_now)
    = Some ExternalAPIError.
Proof.
  split; [|split].
  - destruct (fetch_and_save_error_kinds sample_insert_city
                sample_insert_record (Some "key") sample_db "Atlantis"
                (Response 404 None) sample_now) as (_ & H & _).
    apply (H None); [eexists; reflexivity | reflexivity].
  - destruct (fetch_and_save_error_kinds sample_insert_city
                sample_insert_record (Some "key") sample_db "Tokyo"
                (Response 503 None) sample_now) as (_ & _ & H & _).
    apply (H 503 None); [reflexivity | lia | discriminate].
  - destruct (fetch_and_save_error_kinds sample_insert_city
                sample_insert_record (Some "key") sample_db "Tokyo"
                (Response 200 (Some (JObj [("main", JObj [])]))) sample_now)
      as (_ & _ & _ & _ & _ & _ & _ & H).
    apply (H 200 (JObj [("main", JObj [])])); [reflexivity | discriminate |].
    right. vm_compute. discriminate.
Defined.

(** * Further properties of the code *)

(** ** [validate_city_name] *)

Lemma lstrip_head (s : string) (c : ascii) (s' : string) :
  lstrip s = String c s' → is_space c = false.
Proof.
  induction s as [|a s IH]; simpl; [discriminate|].
  destruct (is_space a) eqn:E; [exact IH|].
  intros [= <- <-]. exact E.
Qed.

Lemma lstrip_fixed (s : string) :
  (∀ c s', s = String c s' → is_space c = false) → lstrip s = s.
Proof.
  destruct s as [|a s]; [reflexivity|]. intros H. simpl.
  now rewrite (H a s eq_refl).
Qed.

Lemma rstrip_idem (s : string) : rstrip (rstrip s) = rstrip s.
Proof.
  induction s as [|a s IH]; [reflexivity|]. simpl.
  destruct (rstrip s) as [|b r] eqn:E.
  - destruct (is_space a) eqn:Ea; [reflexivity|]. simpl. now rewrite Ea.
  - cbn [rstrip] in IH |- *. rewrite IH. reflexivity.
Qed.

Lemma rstrip_head (c : ascii) (s : string) :
  is_space c = false → ∃ r, rstrip (String c s) = String c r.
Proof.
  intros Hc. simpl. destruct (rstrip s); [rewrite Hc|]; eauto.
Qed.

Lemma rstrip_last (s : string) (b : ascii) :
  last (list_ascii_of_string (rstrip s)) = Some b → is_space b = false.
Proof.
  induction s as [|a s IH]; simpl; [discriminate|].
  destruct (rstrip s) as [|c r] eqn:E.
  - destruct (is_space a) eqn:Ea; simpl; [discriminate|].
    intros [= <-]. exact Ea.
  - intros H. apply IH. exact H.
Qed.

Lemma strip_idem (s : string) : strip (strip s) = strip s.
Proof.
  unfold strip. destruct (lstrip s) as [|c s'] eqn:E; [reflexivity|].
  pose proof (lstrip_head _ _ _ E) as Hc.
  destruct (rstrip_head c s' Hc) as [r Hr]. rewrite Hr.
  rewrite lstrip_fixed by (intros ? ? [= <- <-]; exact Hc).
  rewrite <- Hr. apply rstrip_idem.
Qed.

Lemma strip_ends (s : string) :
  (∀ a, head (list_ascii_of_string (strip s)) = Some a → is_space a = false)
  ∧ (∀ b, last (list_ascii_of_string (strip s)) = Some b → is_space b = false).
Proof.
  split; [|intros b; apply rstrip_last].
  unfold strip. destruct (lstrip s) as [|c s'] eqn:E; [discriminate|].
  pose proof (lstrip_head _ _ _ E) as Hc.
  destruct (rstrip_head c s' Hc) as [r ->]. intros a [= <-]. exact Hc.
Qed.

Lemma validate_city_name_Ok (city c : string) :
  validate_city_name city = Ok c ↔
  city ≠ "" ∧ c = strip city ∧ 2 ≤ len c ≤ 100
  ∧ re_match_city c = true.
Proof.
  unfold validate_city_name, raise.
  destruct (bool_decide_reflect (city = "")) as [->|Hne].
  { split; [discriminate | intros [H _]; done]. }
  destruct (Z.ltb_spec (len (strip city)) 2).
  { split; [discriminate | intros (_ & -> & ? & _); lia]. }
  destruct (Z.gtb_spec (len (strip city)) 100).
  { split; [discriminate | intros (_ & -> & ? & _); lia]. }
  destruct (re_match_city (strip city)) eqn:E; simpl.
  - split; [intros [= <-]; repeat split; auto; lia | intros (_ & -> & _); done].
  - split; [discriminate | intros (_ & -> & _ & ?); congruence].
Qed.

(** X1.  What [validate_city_name] returns is the input without its
    leading and trailing whitespace: it has 2 to 100 characters, each of
    them a letter, a whitespace, a hyphen or an apostrophe, and neither its
    first nor its last character is a whitespace. *)
Theorem validate_city_name_sound (city c : string) :
  validate_city_name city = Ok c →
  c = strip city
  ∧ 2 ≤ len c ≤ 100
  ∧ string_forallb city_char c = true
  ∧ (∀ a, head (list_ascii_of_string c) = Some a → is_space a = false)
  ∧ (∀ b, last (list_ascii_of_string c) = Some b → is_space b = false).
Proof.
  intros H. apply validate_city_name_Ok in H as (_ & -> & Hlen & Hre).
  split; [reflexivity|]. split; [exact Hlen|]. split.
  - unfold re_match_city in Hre. destruct (strip city); [discriminate|].
    exact Hre.
  - apply strip_ends.
Qed.

Lemma validate_city_name_sound_witness :
  validate_city_name "  New York " = Ok "New York"
  ∧ 2 ≤ len "New York" ≤ 100.
Proof.
  split; [reflexivity|].
  apply (validate_city_name_sound "  New York " "New York"). reflexivity.
Defined.

(** X2.  Validation is idempotent: a name that [validate_city_name]
    returned is accepted again and returned unchanged. *)
Theorem validate_city_name_idempotent (city c : string) :
  validate_city_name city = Ok c → validate_city_name c = Ok c.
Proof.
  intros H. apply validate_city_name_Ok in H as (_ & -> & Hlen & Hre).
  apply validate_city_name_Ok. rewrite strip_idem.
  repeat split; try assumption; try lia.
  intros E. rewrite E in Hlen. unfold len in Hlen. simpl in Hlen. lia.
Qed.

Lemma validate_city_name_idempotent_witness :
  validate_city_name "O'Brien" = Ok "O'Brien".
Proof.
  apply (validate_city_name_idempotent " O'Brien  "). reflexivity.
Defined.

(** ** [validate_weeks] and [validate_months] *)

(** X3.  With the default bounds [validate_weeks] returns exactly the
    instances of [int] from 1 to 52 and [validate_months] those from 1 to
    24, each unchanged; everything else raises [ValueError].  Unlike
    [validate_days], both reject [None]. *)
Theorem validate_weeks_months_contract (v : pyval) :
  (validate_weeks v default_min_weeks default_max_weeks = Ok v
   ↔ isinstance_int v = true ∧ 1 ≤ int_value v ≤ 52)
  ∧ (validate_months v default_min_months default_max_months = Ok v
     ↔ isinstance_int v = true ∧ 1 ≤ int_value v ≤ 24)
  ∧ (∀ w, validate_weeks v default_min_weeks default_max_weeks = Ok w
          → w = v)
  ∧ (∀ w, validate_months v default_min_months default_max_months = Ok w
          → w = v)
  ∧ raised_class (validate_weeks PyNone default_min_weeks default_max_weeks)
    = Some ValueError
  ∧ raised_class
      (validate_months PyNone default_min_months default_max_months)
    = Some ValueError.
Proof.
  unfold validate_weeks, validate_months, default_min_weeks,
    default_max_weeks, default_min_months, default_max_months, raise.
  repeat split; try reflexivity.
  - destruct (isinstance_int v); simpl; [|discriminate].
    destruct (Z.ltb_spec (int_value v) 1); [discriminate|].
    destruct (Z.gtb_spec (int_value v) 52); [discriminate|]. reflexivity.
  - destruct (isinstance_int v); simpl in *; [|discriminate].
    destruct (Z.ltb_spec (int_value v) 1); [discriminate|]. lia.
  - destruct (isinstance_int v); simpl in *; [|discriminate].
    destruct (Z.ltb_spec (int_value v) 1); [discriminate|].
    destruct (Z.gtb_spec (int_value v) 52); [discriminate|]. lia.
  - intros [-> H]. simpl.
    destruct (Z.ltb_spec (int_value v) 1); [lia|].
    destruct (Z.gtb_spec (int_value v) 52); [lia|]. reflexivity.
  - destruct (isinstance_int v); simpl; [|discriminate].
    destruct (Z.ltb_spec (int_value v) 1); [discriminate|].
    destruct (Z.gtb_spec (int_value v) 24); [discriminate|]. reflexivity.
  - destruct (isinstance_int v); simpl in *; [|discriminate].
    destruct (Z.ltb_spec (int_value v) 1); [discriminate|]. lia.
  - destruct (isinstance_int v); simpl in *; [|discriminate].
    destruct (Z.ltb_spec (int_value v) 1); [discriminate|].
    destruct (Z.gtb_spec (int_value v) 24); [discriminate|]. lia.
  - intros [-> H]. simpl.
    destruct (Z.ltb_spec (int_value v) 1); [lia|].
    destruct (Z.gtb_spec (int_value v) 24); [lia|]. reflexivity.
  - intros w. repeat case_match; intros [=]; done.
  - intros w. repeat case_match; intros [=]; done.
Qed.

Lemma validate_weeks_months_contract_witness :
  validate_weeks (PyInt 52) default_min_weeks default_max_weeks
  = Ok (PyInt 52)
  ∧ validate_months (PyInt 24) default_min_months default_max_months
    = Ok (PyInt 24).
Proof.
  destruct (validate_weeks_months_contract (PyInt 52)) as ([_ H] & _).
  destruct (validate_weeks_months_contract (PyInt 24)) as (_ & [_ H'] & _).
  split; [apply H | apply H']; (split; [reflexivity | simpl; lia]).
Defined.

(** ** [validate_date_format] *)

Lemma code_digit_char (d : Z) : code (digit_char d) = 48 + d mod 10.
Proof.
  unfold digit_char, code.
  assert (H : 0 ≤ d mod 10 < 10) by (apply Z.mod_pos_bound; lia).
  rewrite nat_ascii_embedding by lia. lia.
Qed.

Lemma digit_val_digit_char (d : Z) : digit_val (digit_char d) = d mod 10.
Proof. unfold digit_val. rewrite code_digit_char. lia. Qed.

Lemma parse_year_digits (y : Z) (rest : list ascii) :
  0 ≤ y ≤ 9999 →
  parse_year (digit_char (y / 1000) :: digit_char (y / 100)
              :: digit_char (y / 10) :: digit_char y :: rest)
  = Some (y, rest).
Proof.
  intros Hy. unfold parse_year. rewrite !digit_char_is_digit. simpl.
  rewrite !digit_val_digit_char. do 2 f_equal.
  Z.div_mod_to_equations. lia.
Qed.

Lemma parse_month_pad2 (m : Z) (rest : list ascii) :
  1 ≤ m ≤ 12 →
  parse_month (digit_char (m / 10) :: digit_char m :: rest) = Some (m, rest).
Proof.
  intros Hm.
  assert (H : m = 1 ∨ m = 2 ∨ m = 3 ∨ m = 4 ∨ m = 5 ∨ m = 6 ∨ m = 7 ∨ m = 8
              ∨ m = 9 ∨ m = 10 ∨ m = 11 ∨ m = 12) by lia.
  repeat (destruct H as [->|H]; [reflexivity|]). subst. reflexivity.
Qed.

Lemma parse_day_pad2 (d : Z) :
  1 ≤ d ≤ 31 →
  parse_day [digit_char (d / 10); digit_char d] = Some (d, []).
Proof.
  intros Hd.
  assert (H : ∃ n : nat, (n < 31)%nat ∧ d = 1 + Z.of_nat n).
  { exists (Z.to_nat (d - 1)). lia. }
  destruct H as (n & Hn & ->).
  do 31 (destruct n as [|n]; [reflexivity|]). lia.
Qed.

Lemma valid_date_bounds (y m d : Z) :
  valid_date y m d = true → 1 ≤ y ≤ 9999 ∧ 1 ≤ m ≤ 12 ∧ 1 ≤ d ≤ 31.
Proof.
  unfold valid_date. rewrite !andb_true_iff, !Z.leb_le.
  intros (((((H1 & H2) & H3) & H4) & H5) & H6).
  repeat split; try lia.
  unfold days_in_month in H6. repeat case_match; lia.
Qed.

(** X4.  Parsing inverts printing: for every timestamp from the year 1000
    on, the string that [strftime("%Y-%m-%d")] prints is accepted by
    [validate_date_format], which returns midnight of the same date. *)
Theorem validate_date_format_roundtrip (t : datetime) :
  valid_datetime t = true → 1000 ≤ year t →
  validate_date_format (strftime_ymd t)
  = Ok (MkDatetime (year t) (month t) (day t) 0 0 0 0).
Proof.
  intros Hvalid Hyear.
  assert (Hv : valid_date (year t) (month t) (day t) = true).
  { unfold valid_datetime in Hvalid. rewrite !andb_true_iff in Hvalid. tauto. }
  destruct t as [y m d hh mi ss us]. cbn [year month day] in *.
  destruct (valid_date_bounds y m d Hv) as (Hy & Hm & Hd).
  unfold validate_date_format, strftime_ymd. cbn [year month day].
  assert (E : strptime_ymd (format_ymd y m d) = Some (MkDatetime y m d 0 0 0 0)).
  { unfold strptime_ymd, format_ymd, pad4, pad2.
    cbv [String.append list_ascii_of_string].
    rewrite parse_year_digits by lia. cbn [mbind option_bind expect].
    rewrite bool_decide_eq_true_2 by reflexivity.
    cbn [mbind option_bind].
    rewrite parse_month_pad2 by lia. cbn [mbind option_bind expect].
    rewrite bool_decide_eq_true_2 by reflexivity.
    cbn [mbind option_bind].
    rewrite parse_day_pad2 by lia. cbn [mbind option_bind].
    rewrite Hv. reflexivity. }
  rewrite E. unfold format_ymd, pad4. cbv [String.append].
  rewrite bool_decide_eq_false_2 by discriminate. reflexivity.
Qed.

Lemma validate_date_format_roundtrip_witness :
  validate_date_format "2024-02-29" = Ok (MkDatetime 2024 2 29 0 0 0 0).
Proof.
  apply (validate_date_format_roundtrip (MkDatetime 2024 2 29 13 45 10 0));
    [reflexivity | simpl; lia].
Defined.

(** X5.  Whatever [validate_date_format] accepts is a date of the
    calendar at 00:00:00: the month has that day (no February 30, no
    February 29 outside leap years) and every field of the time of day is
    zero. *)
Theorem validate_date_format_sound (s : string) (t : datetime) :
  validate_date_format s = Ok t →
  valid_datetime t = true
  ∧ day t ≤ days_in_month (year t) (month t)
  ∧ hour t = 0 ∧ minute t = 0 ∧ second t = 0 ∧ microsecond t = 0.
Proof.
  unfold validate_date_format, raise.
  destruct (bool_decide (s = "")); [discriminate|].
  destruct (strptime_ymd s) as [t'|] eqn:E; [|discriminate].
  intros [= <-]. unfold strptime_ymd in E.
  destruct (parse_year (list_ascii_of_string s)) as [[y s1]|];
    [|discriminate].
  cbn [mbind option_bind] in E.
  destruct (expect "-" s1) as [s2|]; [|discriminate].
  cbn [mbind option_bind] in E.
  destruct (parse_month s2) as [[m s3]|]; [|discriminate].
  cbn [mbind option_bind] in E.
  destruct (expect "-" s3) as [s4|]; [|discriminate].
  cbn [mbind option_bind] in E.
  destruct (parse_day s4) as [[d s5]|]; [|discriminate].
  cbn [mbind option_bind] in E.
  destruct s5; [|discriminate].
  destruct (valid_date y m d) eqn:Hv; [|discriminate].
  injection E as <-. unfold valid_datetime. cbn. rewrite Hv.
  split; [reflexivity|]. split; [|repeat split].
  unfold valid_date in Hv. rewrite !andb_true_iff, !Z.leb_le in Hv. lia.
Qed.

Lemma validate_date_format_sound_witness :
  valid_datetime (MkDatetime 2026 1 19 0 0 0 0) = true.
Proof.
  apply (validate_date_format_sound "2026-01-19"). reflexivity.
Defined.

(** ** Sequencing, continued *)

Lemma bind_Ok_inv {A B} (m : result A) (k : A → result B) (b : B) :
  (m ≫= k) = Ok b → ∃ a, m = Ok a ∧ k a = Ok b.
Proof. destruct m as [a|e]; [eauto | discriminate]. Qed.

(** ** Historical export and its endpoint *)

Lemma filter_all {A} (P : A → Prop) `{∀ x, Decision (P x)} (l : list A) :
  Forall P l → filter P l = l.
Proof.
  induction 1 as [|x l Hx Hl IH]; [reflexivity|].
  rewrite filter_cons_True by exact Hx. now rewrite IH.
Qed.

(** X6.  An export without bounds returns the rows of the table whose
    [city_id] is that of the city, each as often as it is stored, in
    ascending order of [recorded_at] and with the fields of the row; an
    export with bounds returns some of these rows. *)
Theorem export_unbounded_complete (db : Session) (city_id : Z) :
  let rows :=
    filter (λ r, WeatherRecord.city_id r = city_id) (weather_records db) in
  export_records db city_id None None ≡ₚ rows
  ∧ Sorted rec_le (export_records db city_id None None)
  ∧ export_historical_data db city_id None None ≡ₚ export_row <$> rows
  ∧ ∀ s e, export_records db city_id s e ⊆+ rows.
Proof.
  intros rows.
  assert (P : ∀ s e, export_records db city_id s e
                     ≡ₚ filter (λ r, in_bounds s e r = true) rows).
  { intros s e. unfold export_records. apply ascending_Permutation. }
  assert (P0 : export_records db city_id None None ≡ₚ rows).
  { rewrite P, filter_all; [reflexivity|].
    apply Forall_forall. intros r _. reflexivity. }
  split; [exact P0|]. split; [apply ascending_Sorted|]. split.
  - unfold export_historical_data. now rewrite P0.
  - intros s e. rewrite P. apply sublist_submseteq, sublist_filter.
Qed.

Lemma str_truthy_Some (s : string) : s ≠ "" → str_truthy (Some s) = Some s.
Proof. destruct s; [done | reflexivity]. Qed.

Lemma validate_date_format_nonempty (s : string) (t : datetime) :
  validate_date_format s = Ok t → s ≠ "".
Proof. intros H ->. discriminate. Qed.

Lemma parse_optional_date_Some (s : string) (t : datetime) :
  validate_date_format s = Ok t → parse_optional_date (Some s) = Ok (Some t).
Proof.
  intros H. unfold parse_optional_date.
  rewrite str_truthy_Some by (eapply validate_date_format_nonempty; eauto).
  now rewrite H.
Qed.

(** X7.  For a city name that passes validation the export endpoint
    answers 400 to a range whose start is after its end, whatever the
    database holds, and 404 when no city has that name. *)
Theorem export_historical_rejections (db : Session) (city c : string) :
  validate_city_name city = Ok c →
  (∀ s e ts te,
     validate_date_format s = Ok ts → validate_date_format e = Ok te →
     dt_gtb ts te = true →
     export_historical db city (Some s) (Some e)
     = HTTPException 400 "start_date must be before or equal to end_date")
  ∧ (city_by_name db c = None →
     export_historical db city None None
     = HTTPException 404 ("City '" +:+ c +:+ "' not found")).
Proof.
  intros Hc. split.
  - intros s e ts te Hs He Hgt.
    unfold export_historical, export_historical_body.
    rewrite Hc, bind_Ok.
    rewrite (parse_optional_date_Some s ts Hs), bind_Ok.
    rewrite (parse_optional_date_Some e te He), bind_Ok.
    rewrite Hgt. reflexivity.
  - intros Hnone. unfold export_historical, export_historical_body.
    rewrite Hc, bind_Ok. cbn [parse_optional_date str_truthy].
    rewrite !bind_Ok. unfold find_city. rewrite Hnone. reflexivity.
Qed.

Lemma export_historical_rejections_witness :
  export_historical sample_db "London" (Some "2026-01-20") (Some "2026-01-19")
  = HTTPException 400 "start_date must be before or equal to end_date"
  ∧ export_historical sample_db "Atlantis" None None
    = HTTPException 404 "City 'Atlantis' not found".
Proof.
  split.
  - apply (proj1 (export_historical_rejections sample_db "London" "London"
                    eq_refl) "2026-01-20" "2026-01-19"
             (MkDatetime 2026 1 20 0 0 0 0) (MkDatetime 2026 1 19 0 0 0 0));
      reflexivity.
  - apply (proj2 (export_historical_rejections sample_db "Atlantis" "Atlantis"
                    eq_refl)). reflexivity.
Defined.

(** ** The comparison endpoint *)

Lemma lstrip_nil_spaces (s : string) :
  lstrip s = "" → string_forallb is_space s = true.
Proof.
  induction s as [|a s IH]; [reflexivity|]. simpl.
  destruct (is_space a); [exact IH | discriminate].
Qed.

Lemma strip_nil_spaces (s : string) :
  strip s = "" → string_forallb is_space s = true.
Proof.
  unfold strip. destruct (lstrip s) as [|c s'] eqn:E.
  - intros _. apply lstrip_nil_spaces. exact E.
  - destruct (rstrip_head c s' (lstrip_head _ _ _ E)) as [r ->].
    discriminate.
Qed.

Lemma split_comma_spaces (s : string) :
  string_forallb is_space s = true → split_comma s = [s].
Proof.
  induction s as [|a s IH]; [reflexivity|]. simpl.
  destruct (is_space a) eqn:Ea; [|discriminate]. intros Hs.
  destruct (bool_decide_reflect (a = ","%char)) as [->|_]; [discriminate|].
  now rewrite (IH Hs).
Qed.

Lemma listed_names_blank (cities : string) :
  cities = "" ∨ strip cities = "" → listed_names cities = [].
Proof.
  intros H. assert (Hs : strip cities = "") by (destruct H as [->|]; auto).
  unfold listed_names.
  rewrite (split_comma_spaces cities (strip_nil_spaces _ Hs)).
  cbn [fmap list_fmap]. rewrite Hs. reflexivity.
Qed.

Lemma validate_compared_spec (n : string) :
  (is_ok (validate_city_name n) = true
   → ∃ c, validate_compared n = Ok c)
  ∧ (is_ok (validate_city_name n) = false
     → ∃ msg, validate_compared n = raise ValidationError msg).
Proof.
  unfold validate_compared.
  destruct (validate_city_name n) as [c|e] eqn:E; simpl.
  - split; [eauto | discriminate].
  - split; [discriminate|]. intros _.
    rewrite (validate_city_name_raises n e E). simpl. eauto.
Qed.

Lemma mapM_validate_compared (l : list string) :
  (Forall (λ n, is_ok (validate_city_name n) = true) l
   → ∃ vs, mapM validate_compared l = Ok vs)
  ∧ (Exists (λ n, is_ok (validate_city_name n) = false) l
     → ∃ msg, mapM validate_compared l = raise ValidationError msg).
Proof.
  induction l as [|n l [IH1 IH2]].
  { split; [eauto|]. intros H. inversion H. }
  destruct (validate_compared_spec n) as [Hok Hbad]. split.
  - intros H. apply Forall_cons in H as [Hn Hl].
    destruct (Hok Hn) as [c Hc]. destruct (IH1 Hl) as [vs Hvs].
    exists (c :: vs). simpl. now rewrite Hc, bind_Ok, Hvs.
  - intros H. simpl. destruct (is_ok (validate_city_name n)) eqn:En.
    + destruct (Hok eq_refl) as [c Hc]. rewrite Hc, bind_Ok.
      apply Exists_cons in H as [H|H]; [congruence|].
      destruct (IH2 H) as [msg ->]. eauto.
    + destruct (Hbad eq_refl) as [msg ->]. eauto.
Qed.

(** X8.  The comparison endpoint answers 400 exactly when the request
    lists no name, lists more than ten names, or lists a name that
    [validate_city_name] rejects; an invalid name is never a 500 here. *)
Theorem compare_cities_endpoint_400 (db : Session) (cities : string) :
  status_code (compare_cities_endpoint db cities) = 400 ↔
  listed_names cities = []
  ∨ (10 < List.length (listed_names cities))%nat
  ∨ Exists (λ n, is_ok (validate_city_name n) = false) (listed_names cities).
Proof.
  unfold compare_cities_endpoint, compare_cities_body.
  destruct (bool_decide (cities = "") || bool_decide (strip cities = ""))
    eqn:Eblank.
  { apply orb_true_iff in Eblank.
    rewrite !bool_decide_eq_true in Eblank.
    split; [intros _; left; apply listed_names_blank; exact Eblank|].
    reflexivity. }
  cbv zeta. fold (listed_names cities).
  destruct (listed_names cities) as [|n0 ns] eqn:En.
  { split; [auto | reflexivity]. }
  rewrite <- En. clear Eblank.
  destruct (Z.ltb_spec 10 (Z.of_nat (List.length (listed_names cities)))).
  { split; [intros _; right; left; lia | reflexivity]. }
  destruct (decide (Exists (λ n, is_ok (validate_city_name n) = false)
                      (listed_names cities))) as [Hex|Hall].
  { destruct (proj2 (mapM_validate_compared _) Hex) as [msg ->].
    split; [auto | reflexivity]. }
  assert (Hno : ¬ (listed_names cities = []
                   ∨ (10 < List.length (listed_names cities))%nat
                   ∨ Exists (λ n, is_ok (validate_city_name n) = false)
                       (listed_names cities))).
  { rewrite En in *. intros [?|[?|?]]; [discriminate | lia | contradiction]. }
  apply not_Exists_Forall in Hall; [|intros ?; apply _].
  destruct (proj1 (mapM_validate_compared (listed_names cities))) as [vs ->].
  { eapply Forall_impl; [exact Hall|]. simpl. intros n Hn.
    destruct (is_ok (validate_city_name n)); congruence. }
  rewrite bind_Ok.
  destruct (compare_cities_lookup db vs) as (m & -> & _). rewrite bind_Ok.
  split; [|tauto]. intros Hs. exfalso.
  destruct (bool_decide (m = ∅)); [discriminate|].
  destruct (bool_decide _); discriminate.
Qed.

(** ** Multi-city comparison, continued *)

(** X9.  The result of a comparison depends only on which names are
    listed: the order of the names and repeated names make no
    difference. *)
Theorem compare_cities_same_names (db : Session) (names names' : list string) :
  (∀ n, n ∈ names ↔ n ∈ names') →
  compare_cities db names = compare_cities db names'.
Proof.
  intros Hsame.
  destruct (compare_cities_lookup db names) as (m & Hm & Hl).
  destruct (compare_cities_lookup db names') as (m' & Hm' & Hl').
  rewrite Hm, Hm'. f_equal. apply map_eq. intros n.
  destruct (Hl n) as [H1 H2]. destruct (Hl' n) as [H1' H2'].
  destruct (decide (n ∈ names)) as [Hin|Hin];
    [destruct (has_data_dec db n) as [Hd|Hd]|].
  - destruct (H1 (conj Hin Hd)) as (c & e & Hc & He & ->).
    destruct (H1' (conj (proj1 (Hsame n) Hin) Hd)) as (c' & e' & Hc' & He' & ->).
    congruence.
  - rewrite H2, H2' by tauto. reflexivity.
  - rewrite H2, H2'; [reflexivity | | tauto].
    intros [Hin' _]. apply Hin, Hsame, Hin'.
Qed.

Lemma compare_cities_same_names_witness :
  compare_cities sample_db ["London"; "Tokyo"; "London"]
  = compare_cities sample_db ["Tokyo"; "London"].
Proof.
  apply compare_cities_same_names. intros n.
  rewrite !elem_of_cons, !elem_of_nil. tauto.
Defined.

(** X10.  The comparison and the patterns operation agree: for every
    city of a comparison the humidity statistics, the pressure statistics
    and the record count are those the patterns operation returns for that
    city. *)
Theorem compare_cities_agrees_with_patterns (db : Session)
  (names : list string) (m : gmap string Comparison.t) (n : string)
  (e : Comparison.t) :
  compare_cities db names = Ok m → m !! n = Some e →
  ∃ c p, city_by_name db n = Some c
         ∧ Comparison.city_id e = City.id c
         ∧ Comparison.country e = City.country c
         ∧ get_humidity_pressure_patterns db (City.id c) = Ok (Some p)
         ∧ Comparison.humidity e = Patterns.humidity p
         ∧ Comparison.pressure e = Patterns.pressure p
         ∧ Comparison.total_records e = Patterns.total_records p.
Proof.
  intros Hm He.
  destruct (compare_cities_lookup db names) as (m' & Hm' & Hl).
  rewrite Hm in Hm'. injection Hm' as <-.
  destruct (Hl n) as [H1 H2].
  destruct (decide (n ∈ names)) as [Hin|Hin];
    [destruct (has_data_dec db n) as [Hd|Hd]|];
    try (rewrite H2 in He by tauto; discriminate).
  destruct (H1 (conj Hin Hd)) as (c & e' & Hc & He' & Hn).
  rewrite He in Hn. injection Hn as <-.
  apply has_data_records_of in Hd as (c' & Hc' & Hne).
  rewrite Hc in Hc'. injection Hc' as <-.
  destruct (patterns_of_spec _ Hne) as (p & Hp & Hh & Hpr & _ & Ht).
  exists c, p. split; [exact Hc|].
  unfold comparison_entry in He'.
  destruct (float_stats_ok
              (truthy_floats
                 (WeatherRecord.temperature <$> records_of db (City.id c))))
    as [t Ht'].
  rewrite Ht', Hh, Hpr, !bind_Ok in He'.
  destruct (records_of db (City.id c)) as [|r0 rs] eqn:Er; [done|].
  destruct (last_record (r0 :: rs)) as [r|err] eqn:El.
  - rewrite !bind_Ok in He'. injection He' as <-.
    repeat split; try reflexivity.
    + unfold get_humidity_pressure_patterns. rewrite Er. exact Hp.
    + rewrite Ht. reflexivity.
  - discriminate.
Qed.

Lemma compare_cities_agrees_with_patterns_witness :
  ∃ m e p, compare_cities sample_db ["Tokyo"] = Ok m
           ∧ m !! "Tokyo" = Some e
           ∧ get_humidity_pressure_patterns sample_db 1 = Ok (Some p)
           ∧ Comparison.humidity e = Patterns.humidity p.
Proof.
  destruct (compare_cities_lookup sample_db ["Tokyo"]) as (m & Hm & Hl).
  destruct (proj1 (Hl "Tokyo")) as (c & e & Hc & _ & He).
  { split; [left|]. apply has_data_records_of. exists tokyo.
    split; [reflexivity|]. vm_compute. discriminate. }
  destruct (compare_cities_agrees_with_patterns sample_db ["Tokyo"] m "Tokyo"
              e Hm He) as (c' & p & Hc' & _ & _ & Hp & Hh & _).
  vm_compute in Hc'. injection Hc' as <-.
  exists m, e, p. repeat split; assumption.
Defined.

(** ** Ingestion, continued *)

Lemma sample_insert_city_appends : appends_city sample_insert_city.
Proof.
  intros db s country lat lon t db' c H. unfold sample_insert_city in H.
  cbn [text_column] in H. rewrite bind_Ok in H.
  apply bind_Ok_inv in H as (co & _ & H).
  apply bind_Ok_inv in H as (la & _ & H).
  apply bind_Ok_inv in H as (lo & _ & H).
  injection H as <- <-. split; reflexivity.
Qed.

(** X11.  Get-or-create never duplicates a city: with a storage engine
    that appends what it inserts, a successful call leaves a database in
    which the name resolves to the returned city; the database is unchanged
    when the name was already known, otherwise exactly one city of that name
    exists afterwards; and a second call returns the same city and changes
    nothing. *)
Theorem get_or_create_city_idempotent
  (insert_city :
     Session → json → json → json → json → datetime → result (Session * City.t))
  (db db' : Session) (city_name lat lon country : json) (now : datetime)
  (c : City.t) :
  appends_city insert_city →
  get_or_create_city insert_city db city_name lat lon country now
  = Ok (db', c) →
  ∃ s, city_name = JStr s
       ∧ city_by_name db' s = Some c
       ∧ (is_Some (city_by_name db s) → db' = db)
       ∧ (city_by_name db s = None → named s (cities db') = [c])
       ∧ ∀ lat' lon' country' now',
           get_or_create_city insert_city db' city_name lat' lon' country' now'
           = Ok (db', c).
Proof.
  intros Happ H. unfold get_or_create_city in H.
  apply bind_Ok_inv in H as (found & Hf & H).
  destruct city_name as [| | | |s| |]; try discriminate.
  cbn [city_lookup] in Hf. injection Hf as <-. exists s.
  split; [reflexivity|].
  assert (Hres : city_by_name db' s = Some c
                 ∧ (is_Some (city_by_name db s) → db' = db)
                 ∧ (city_by_name db s = None → named s (cities db') = [c])).
  { destruct (city_by_name db s) as [c0|] eqn:E.
    - injection H as <- <-. repeat split; auto. discriminate.
    - destruct (Happ _ _ _ _ _ _ _ _ H) as [Hn Hc].
      assert (Hnil : named s (cities db) = []).
      { unfold city_by_name in E. apply head_None in E. exact E. }
      assert (Hnew : named s (cities db') = [c]).
      { unfold named in *. rewrite Hc, filter_app, Hnil.
        rewrite filter_cons_True by exact Hn. reflexivity. }
      split; [unfold city_by_name; fold (named s (cities db'));
              rewrite Hnew; reflexivity|].
      split; [intros [? ?]; discriminate | intros _; exact Hnew]. }
  destruct Hres as (H1 & H2 & H3). repeat split; try assumption.
  intros lat' lon' country' now'. unfold get_or_create_city.
  cbn [city_lookup]. rewrite bind_Ok, H1. reflexivity.
Qed.

Lemma get_or_create_city_idempotent_witness :
  ∃ db' c,
    get_or_create_city sample_insert_city sample_db (JStr "Paris")
      (JFloat 48.85) (JFloat 2.35) (JStr "FR") sample_now
    = Ok (db', c)
    ∧ city_by_name db' "Paris" = Some c
    ∧ get_or_create_city sample_insert_city db' (JStr "Paris") JNull JNull
        JNull sample_now = Ok (db', c).
Proof.
  destruct (get_or_create_city sample_insert_city sample_db (JStr "Paris")
              (JFloat 48.85) (JFloat 2.35) (JStr "FR")
              sample_now) as [[db' c]|e] eqn:E;
    [|vm_compute in E; discriminate].
  exists db', c. split; [reflexivity|].
  destruct (get_or_create_city_idempotent sample_insert_city sample_db db'
              (JStr "Paris") (JFloat 48.85) (JFloat 2.35)
              (JStr "FR") sample_now c sample_insert_city_appends E)
    as (s & Hs & Hc & _ & _ & Hagain).
  injection Hs as <-. split; [exact Hc | apply Hagain].
Defined.

Lemma fetch_and_save_except_Ok {A} (r : result A) (a : A) :
  fetch_and_save_except r = Ok a → r = Ok a.
Proof.
  destruct r as [a'|e]; simpl; [congruence|].
  destruct (_ || _); discriminate.
Qed.

Lemma fetch_except_Ok (r : result json) (data : json) :
  fetch_except r = Ok data → r = Ok data.
Proof.
  destruct r as [d|e]; simpl; [congruence|].
  repeat case_match; discriminate.
Qed.

Lemma require_key_Ok (k : string) (data : json) (u : unit) :
  require_key k data = Ok u → py_contains k data = Ok true.
Proof.
  unfold require_key. destruct (py_contains k data) as [[|]|e];
    [reflexivity | discriminate | discriminate].
Qed.

(** X12.  Nothing is stored for a failed request: whenever
    [fetch_and_save] returns a record, the key was configured, the provider
    answered with a status outside 400..599 and a JSON object that has
    [main], [weather] and a non-empty [name], and the record returned is the
    row the storage engine inserted. *)
Theorem fetch_and_save_success
  (insert_city :
     Session → json → json → json → json → datetime → result (Session * City.t))
  (insert_record :
     Session → Z → json → json → json → json → datetime
     → result (Session * WeatherRecord.t))
  (api_key : option string) (db db' : Session) (city_name : string)
  (r : reply) (now : datetime) (record : WeatherRecord.t) :
  fetch_and_save_weather insert_city insert_record api_key db city_name r now
  = Ok (db', record) →
  is_Some (str_truthy api_key)
  ∧ ∃ status fields name,
      r = Response status (Some (JObj fields))
      ∧ ¬ 400 ≤ status < 600
      ∧ is_Some (obj_lookup "main" fields)
      ∧ is_Some (obj_lookup "weather" fields)
      ∧ obj_lookup "name" fields = Some name ∧ json_truthy name = true
      ∧ ∃ db1 city_id temp humidity pressure weather_main,
          insert_record db1 city_id temp humidity pressure weather_main now
          = Ok (db', record).
Proof.
  intros H. unfold fetch_and_save_weather in H.
  apply fetch_and_save_except_Ok in H. unfold fetch_and_save_try in H.
  apply bind_Ok_inv in H as (data & Hfetch & H).
  unfold fetch_weather_from_api in Hfetch.
  destruct (str_truthy api_key) as [k|] eqn:Hk; [|discriminate].
  split; [eauto|].
  apply fetch_except_Ok in Hfetch. unfold fetch_try in Hfetch.
  destruct r as [e|status body]; [discriminate|].
  destruct (status =? 404); [discriminate|].
  destruct (status =? 401); [discriminate|].
  apply bind_Ok_inv in Hfetch as ([] & Hstatus & Hfetch).
  apply bind_Ok_inv in Hfetch as (data' & Hbody & Hfetch).
  apply bind_Ok_inv in Hfetch as ([] & Hmain & Hfetch).
  apply bind_Ok_inv in Hfetch as ([] & Hweather & Hfetch).
  injection Hfetch as ->.
  destruct body as [d|]; [|discriminate]. injection Hbody as ->.
  apply require_key_Ok in Hmain, Hweather.
  apply bind_Ok_inv in H as (name & Hname & H).
  destruct data as [| | | | | |fields]; try discriminate.
  cbn [py_get] in Hname. injection Hname as Hname.
  apply bind_Ok_inv in H as (coord & _ & H).
  apply bind_Ok_inv in H as (lat & _ & H).
  apply bind_Ok_inv in H as (lon & _ & H).
  apply bind_Ok_inv in H as (sys & _ & H).
  apply bind_Ok_inv in H as (country & _ & H).
  destruct (negb (json_truthy name) || is_JNull lat || is_JNull lon) eqn:Hchk;
    [discriminate|].
  apply orb_false_iff in Hchk as [Hchk _].
  apply orb_false_iff in Hchk as [Hchk _].
  apply negb_false_iff in Hchk.
  apply bind_Ok_inv in H as ([db1 city] & _ & H).
  unfold save_weather_record in H.
  apply bind_Ok_inv in H as (main_data & _ & H).
  apply bind_Ok_inv in H as (weather & _ & H).
  apply bind_Ok_inv in H as (weather_info & _ & H).
  apply bind_Ok_inv in H as (temp & _ & H).
  apply bind_Ok_inv in H as (humidity & _ & H).
  apply bind_Ok_inv in H as (pressure & _ & H).
  apply bind_Ok_inv in H as (weather_main & _ & H).
  exists status, fields, name. split; [reflexivity|].
  split.
  { intros Hs. destruct (proj1 (raise_for_status_spec status) Hs) as [msg E].
    rewrite E in Hstatus. discriminate. }
  cbn [py_contains] in Hmain, Hweather.
  injection Hmain as Hmain. injection Hweather as Hweather.
  apply bool_decide_eq_true in Hmain, Hweather.
  split; [exact Hmain|]. split; [exact Hweather|].
  split.
  { destruct (obj_lookup "name" fields) as [v|]; [congruence|].
    subst name. discriminate. }
  split; [exact Hchk|]. eauto 10.
Qed.

Lemma fetch_and_save_success_witness :
  ∃ db' record,
    fetch_and_save_weather sample_insert_city sample_insert_record
      (Some "key") sample_db "Tokyo" (Response 200 (Some sample_payload))
      sample_now = Ok (db', record)
    ∧ is_Some (str_truthy (Some "key")).
Proof.
  eexists _, _. split; [vm_compute; reflexivity|].
  eapply (fetch_and_save_success sample_insert_city sample_insert_record
            (Some "key") sample_db _ "Tokyo"
            (Response 200 (Some sample_payload)) sample_now).
  vm_compute. reflexivity.
Defined.

Lemma respond_current_503 {A} (r : result A) :
  raised_class r = Some ExternalAPIError →
  status_code (respond_current r) = 503.
Proof.
  destruct r as [a|[c msg]]; [discriminate|]. simpl. intros [= ->].
  reflexivity.
Qed.

(** X13.  For a city name that passes validation, [GET /weather/current]
    answers 400 when the provider does not know the city (status 404), and
    503 when the key is missing, the request raises, the provider answers
    with another status from 400 to 599, or the body is not JSON. *)
Theorem get_current_weather_statuses
  (insert_city :
     Session → json → json → json → json → datetime → result (Session * City.t))
  (insert_record :
     Session → Z → json → json → json → json → datetime
     → result (Session * WeatherRecord.t))
  (api_key : option string) (db : Session) (city c : string) (r : reply)
  (now : datetime) :
  validate_city_name city = Ok c →
  let answer :=
    get_current_weather insert_city insert_record api_key db city r now in
  (is_Some (str_truthy api_key) → (∃ body, r = Response 404 body) →
   status_code answer = 400)
  ∧ (str_truthy api_key = None → status_code answer = 503)
  ∧ ((∃ e, r = GetRaises e ∧ exn_class e ≠ ValidationError)
     ∨ (∃ s body, r = Response s body ∧ 400 ≤ s < 600 ∧ s ≠ 404)
     ∨ (∃ s, r = Response s None ∧ s ≠ 404) →
     status_code answer = 503).
Proof.
  intros Hc answer. unfold answer, get_current_weather,
    get_current_weather_body. rewrite Hc, bind_Ok.
  split; [|split].
  - intros [k Hk] [body ->].
    unfold fetch_and_save_weather, fetch_and_save_try, fetch_weather_from_api.
    rewrite Hk. reflexivity.
  - intros Hk.
    unfold fetch_and_save_weather, fetch_and_save_try, fetch_weather_from_api.
    rewrite Hk. reflexivity.
  - intros Hr.
    destruct (fetch_try_raises c r) as (e & He & Hne).
    { destruct Hr as [?|[?|?]]; auto. }
    destruct (fetch_weather_from_api_raises api_key c r e He Hne)
      as (e' & He' & Hne').
    pose proof (fetch_and_save_try_raises insert_city insert_record api_key db
                  c r now e' He') as Htry.
    pose proof (fetch_and_save_except_wraps _ e' Htry Hne') as Hcls.
    fold (fetch_and_save_weather insert_city insert_record api_key db c r now)
      in Hcls.
    destruct (fetch_and_save_weather insert_city insert_record api_key db c r
                now) as [a|[cl msg]]; [discriminate|].
    simpl in Hcls. injection Hcls as ->. reflexivity.
Qed.

Lemma get_current_weather_statuses_witness :
  status_code
    (get_current_weather sample_insert_city sample_insert_record (Some "key")
       sample_db "Atlantis" (Response 404 None) sample_now) = 400
  ∧ status_code
      (get_current_weather sample_insert_city sample_insert_record (Some "key")
         sample_db "Tokyo" (Response 502 None) sample_now) = 503.
Proof.
  split.
  - apply (get_current_weather_statuses sample_insert_city
             sample_insert_record (Some "key") sample_db "Atlantis" "Atlantis"
             (Response 404 None) sample_now eq_refl);
      [eexists; reflexivity | eexists; reflexivity].
  - apply (get_current_weather_statuses sample_insert_city
             sample_insert_record (Some "key") sample_db "Tokyo" "Tokyo"
             (Response 502 None) sample_now eq_refl).
    right; left. exists 502, None. split; [reflexivity|]. split; [lia|].
    discriminate.
Defined.

(** ** Grouping is a partition *)

Lemma mapM_Ok_Forall2 {A B} (f : A → result B) (l : list A) (ys : list B) :
  mapM f l = Ok ys → Forall2 (λ x y, f x = Ok y) l ys.
Proof.
  revert ys; induction l as [|x l IH]; intros ys; simpl.
  { intros [= <-]. constructor. }
  intros H. apply bind_Ok_inv in H as (y & Hy & H).
  apply bind_Ok_inv in H as (ys' & Hys & H). injection H as <-.
  constructor; auto.
Qed.


Section Partition.
Context {A K : Type} `{EqDecision K} (key : A → K).




End Partition.








(** ** Weekly and monthly averages *)











(** ** Trend analysis, continued *)

Lemma mapM_require_Ok {A} (msg : string) (l : list (option A)) (xs : list A) :
  mapM (require msg) l = Ok xs → l = Some <$> xs.
Proof.
  revert xs; induction l as [|o l IH]; intros xs; simpl.
  { intros [= <-]. reflexivity. }
  intros H. apply bind_Ok_inv in H as (x & Hx & H).
  apply bind_Ok_inv in H as (xs' & Hxs & H). injection H as <-.
  destruct o; [|discriminate]. injection Hx as ->.
  rewrite fmap_cons, (IH xs' Hxs). reflexivity.
Qed.

Lemma trend_of_Ok (records : list WeatherRecord.t) (o : option Trend.t) :
  trend_of records = Ok o →
  match o with
  | None => records = []
  | Some t =>
      records ≠ []
      ∧ Trend.record_count t = Z.of_nat (List.length records)
      ∧ Trend.daily_data t = trend_point <$> records
      ∧ Forall (λ r, is_Some (WeatherRecord.temperature r)) records
  end.
Proof.
  destruct records as [|r0 rs]; [intros [= <-]; reflexivity|].
  unfold trend_of. intros H.
  apply bind_Ok_inv in H as (s & Hs & H).
  apply bind_Ok_inv in H as (avg_temp & _ & H).
  apply bind_Ok_inv in H as (min_temp & _ & H).
  apply bind_Ok_inv in H as (max_temp & _ & H).
  apply bind_Ok_inv in H as (first_avg & _ & H).
  apply bind_Ok_inv in H as (second_avg & _ & H).
  injection H as <-. split; [done|]. split; [reflexivity|].
  split; [reflexivity|].
  unfold py_sum in Hs. apply bind_Ok_inv in Hs as (xs & Hxs & _).
  apply mapM_require_Ok in Hxs.
  assert (Hall : Forall is_Some (WeatherRecord.temperature <$> r0 :: rs)).
  { rewrite Hxs. apply Forall_fmap, Forall_forall. intros x _. simpl. eauto. }
  apply Forall_forall. intros r Hr. rewrite Forall_forall in Hall.
  apply Hall, list_elem_of_fmap. eauto.
Qed.

(** X17.  With [start = now - days] in range, trend analysis returns
    [None] exactly when the city has no record between [start] and [now];
    and whenever it returns a trend, every record of the window has a
    temperature, [record_count] is the number of these records and
    [daily_data] lists them in ascending order of [recorded_at], one entry
    per record. *)
Theorem trend_none_iff_empty (db : Session) (city_id days : Z)
  (now start : datetime) :
  let records := trend_records db city_id start now in
  sub_days now days = Ok start →
  (get_weather_trend db city_id days now = Ok None ↔
   ∀ r, r ∈ weather_records db → WeatherRecord.city_id r = city_id →
        ¬ (dt_le start (WeatherRecord.recorded_at r)
           ∧ dt_le (WeatherRecord.recorded_at r) now))
  ∧ ∀ t, get_weather_trend db city_id days now = Ok (Some t) →
         Sorted rec_le records
         ∧ Trend.record_count t = Z.of_nat (List.length records)
         ∧ 1 ≤ Trend.record_count t
         ∧ Trend.daily_data t = trend_point <$> records
         ∧ Forall (λ r, is_Some (WeatherRecord.temperature r)) records.
Proof.
  intros records Hstart. unfold get_weather_trend.
  rewrite Hstart, bind_Ok. fold records.
  destruct (trend_records_spec db city_id start now) as [Hsorted Hmem].
  fold records in Hsorted, Hmem. split.
  - split.
    + intros H. apply trend_of_Ok in H. intros r Hr Hc Hw.
      assert (Hin : r ∈ records) by (apply Hmem; tauto).
      rewrite H in Hin. inversion Hin.
    + intros H. destruct records as [|r0 rs] eqn:E; [reflexivity|].
      exfalso. assert (Hin : r0 ∈ r0 :: rs) by left.
      apply Hmem in Hin as (H1 & H2 & H3 & H4). eapply H; eauto.
  - intros t H. apply trend_of_Ok in H as (Hne & Hc & Hd & Ht).
    split; [exact Hsorted|]. split; [exact Hc|].
    split; [|split; assumption].
    rewrite Hc. destruct records; [done | simpl; lia].
Qed.

Lemma trend_none_iff_empty_witness :
  get_weather_trend old_db 1 7 sample_now = Ok None.
Proof.
  apply (trend_none_iff_empty old_db 1 7 sample_now (at_time 13 0 0) eq_refl).
  intros r Hr _ [H _].
  apply list_elem_of_singleton in Hr. subst r. vm_compute in H. discriminate.
Defined.

(** ** The endpoints *)

Lemma respond_200 {A} (not_found : list exc_class) (r : result A) (body : A) :
  respond not_found r = Http200 body → r = Ok body.
Proof.
  destruct r as [a|e]; simpl; [congruence|]. repeat case_match; discriminate.
Qed.




(** X19.  For a city name that passes validation, [GET
    /analytics/patterns] answers 200 when the first city of that name has a
    record, with [total_records] the number of its records, and 404
    otherwise (unknown city, or no record). *)
Theorem get_patterns_statuses (db : Session) (city c : string) :
  validate_city_name city = Ok c →
  (has_data db c →
   ∃ city_obj body,
     city_by_name db c = Some city_obj
     ∧ get_patterns db city = Http200 body
     ∧ PatternsResponse.city body = City.name city_obj
     ∧ Patterns.total_records (PatternsResponse.patterns body)
       = Z.of_nat (List.length (records_of db (City.id city_obj))))
  ∧ (¬ has_data db c → status_code (get_patterns db city) = 404).
Proof.
  intros Hc. unfold get_patterns, get_patterns_body.
  rewrite Hc, bind_Ok. unfold find_city. split.
  - intros Hd. apply has_data_records_of in Hd as (city_obj & Hcity & Hne).
    rewrite Hcity, bind_Ok.
    unfold get_humidity_pressure_patterns.
    destruct (patterns_of_spec _ Hne) as (p & -> & _ & _ & _ & Ht).
    rewrite bind_Ok. exists city_obj. eexists.
    split; [reflexivity|]. split; [reflexivity|]. split; [reflexivity|].
    exact Ht.
  - intros Hno. destruct (city_by_name db c) as [city_obj|] eqn:Hcity;
      [|reflexivity].
    rewrite bind_Ok. unfold get_humidity_pressure_patterns.
    destruct (records_of db (City.id city_obj)) as [|r0 rs] eqn:Er;
      [reflexivity|].
    exfalso. apply Hno. apply has_data_records_of.
    exists city_obj. split; [exact Hcity|]. rewrite Er. done.
Qed.

Lemma get_patterns_statuses_witness :
  status_code (get_patterns sample_db "Atlantis") = 404
  ∧ status_code (get_patterns sample_db " Tokyo ") = 200.
Proof.
  split.
  - apply (get_patterns_statuses sample_db "Atlantis" "Atlantis" eq_refl).
    intros (c & r & Hc & _). discriminate.
  - destruct (proj1 (get_patterns_statuses sample_db " Tokyo " "Tokyo"
                       eq_refl)) as (c & body & _ & -> & _); [|reflexivity].
    exists tokyo, (sample_record 1 1 10 40 "Clear" (at_time 19 1 0)).
    split; [reflexivity|]. split; [left | reflexivity].
Defined.

(** X20.  For a city name that passes validation, [GET
    /analytics/daily-average] treats [days=0] like a missing [days] (all
    days are returned, nothing is validated), accepts 1 to 365, and answers
    500, not 400, to a negative value or one above 365. *)
Theorem get_daily_average_days (db : Session) (city c : string)
  (now : datetime) :
  validate_city_name city = Ok c →
  get_daily_average db city (Some 0) now = get_daily_average db city None now
  ∧ (∀ d, 1 ≤ d ≤ 365 → optional_days (Some d) = Ok (Some d))
  ∧ (∀ d, d < 0 ∨ 365 < d →
          status_code (get_daily_average db city (Some d) now) = 500).
Proof.
  intros Hc. split; [reflexivity|]. split.
  - intros d Hd. unfold optional_days.
    replace (int_truthy (Some d)) with (Some d)
      by (destruct d; [lia | reflexivity | reflexivity]).
    unfold validate_days, default_min_days. cbn [isinstance_int negb int_value].
    destruct (Z.ltb_spec d 1); [lia|].
    destruct (Z.gtb_spec d 365); [lia|]. reflexivity.
  - intros d Hd. unfold get_daily_average, get_daily_average_body.
    rewrite Hc, bind_Ok. unfold optional_days.
    replace (int_truthy (Some d)) with (Some d)
      by (destruct d; [lia | reflexivity | reflexivity]).
    unfold validate_days, default_min_days. cbn [isinstance_int negb int_value].
    destruct (Z.ltb_spec d 1); [reflexivity|].
    destruct (Z.gtb_spec d 365); [reflexivity | lia].
Qed.

Lemma get_daily_average_days_witness :
  status_code (get_daily_average sample_db "Tokyo" (Some 366) sample_now) = 500
  ∧ get_daily_average sample_db "Tokyo" (Some 0) sample_now
    = get_daily_average sample_db "Tokyo" None sample_now.
Proof.
  destruct (get_daily_average_days sample_db "Tokyo" "Tokyo" sample_now
              eq_refl) as (H0 & _ & H500).
  split; [apply H500; lia | exact H0].
Defined.

(** ** Binary64: the float nearest to a rational *)

(** Rounding half to even keeps the order and fixes the integers. *)
Lemma round_half_even_mono (x y : Q) :
  (x <= y)%Q → round_half_even x ≤ round_half_even y.
Proof.
  intros Hxy. unfold round_half_even.
  pose proof (Qfloor_resp_le x y Hxy) as Hf.
  pose proof (Qfloor_le x) as Hx1. pose proof (Qlt_floor x) as Hx2.
  pose proof (Qfloor_le y) as Hy1. pose proof (Qlt_floor y) as Hy2.
  rewrite inject_Z_plus in Hx2, Hy2.
  destruct (Z.eq_dec (Qfloor x) (Qfloor y)) as [E|E].
  - rewrite <- E in *.
    destruct (Qcompare_spec (x - inject_Z (Qfloor x)) (1 # 2)) as [H1|H1|H1];
      destruct (Qcompare_spec (y - inject_Z (Qfloor x)) (1 # 2)) as [H2|H2|H2];
      try (destruct (Z.even (Qfloor x))); try lia; exfalso; lra.
  - assert (Hlt : Qfloor x + 1 ≤ Qfloor y) by lia.
    destruct (Qcompare (x - inject_Z (Qfloor x)) (1 # 2));
      destruct (Qcompare (y - inject_Z (Qfloor y)) (1 # 2));
      try (destruct (Z.even (Qfloor x))); try (destruct (Z.even (Qfloor y)));
      lia.
Qed.

Lemma round_half_even_Z (z : Z) : round_half_even (inject_Z z) = z.
Proof.
  unfold round_half_even. rewrite Qfloor_Z.
  destruct (Qcompare_spec (inject_Z z - inject_Z z) (1 # 2)) as [H|H|H];
    [exfalso; lra | reflexivity | exfalso; lra].
Qed.

Lemma round_half_even_ge (z : Z) (x : Q) :
  (inject_Z z <= x)%Q → z ≤ round_half_even x.
Proof.
  intros H. rewrite <- (round_half_even_Z z). now apply round_half_even_mono.
Qed.

Lemma round_half_even_le (z : Z) (x : Q) :
  (x <= inject_Z z)%Q → round_half_even x ≤ z.
Proof.
  intros H. rewrite <- (round_half_even_Z z). now apply round_half_even_mono.
Qed.

(** Powers of two. *)
Lemma Qpow2_pos (z : Z) : (0 < 2 ^ z)%Q.
Proof. apply Qpower_0_lt. reflexivity. Qed.

Lemma Qpow2_plus (a b : Z) : (2 ^ (a + b) == 2 ^ a * 2 ^ b)%Q.
Proof. apply Qpower_plus. discriminate. Qed.

Lemma Qpow2_Z (z : Z) : 0 ≤ z → (inject_Z (2 ^ z) == 2 ^ z)%Q.
Proof. apply (Zpower_Qpower 2). Qed.

Lemma Qpow2_le (a b : Z) : a ≤ b → (2 ^ a <= 2 ^ b)%Q.
Proof. intros H. apply Qpower_le_compat_l; [exact H | discriminate]. Qed.

Lemma Qpow2_le_inv (a b : Z) : (2 ^ a <= 2 ^ b)%Q → a ≤ b.
Proof. intros H. apply (Qpower_le_compat_l_inv 2); [exact H | reflexivity]. Qed.

Lemma Qpow2_lt_inv (a b : Z) : (2 ^ a < 2 ^ b)%Q → a < b.
Proof. intros H. apply (Qpower_lt_compat_l_inv 2); [exact H | reflexivity]. Qed.

Lemma Qdiv_lt_div (a b c d : Q) :
  (0 < b)%Q → (0 < d)%Q → (a * d < c * b)%Q → (a / b < c / d)%Q.
Proof.
  intros Hb Hd H. apply Qlt_shift_div_r; [exact Hb|].
  assert (E : (c / d * b == c * b / d)%Q) by (field; lra).
  rewrite E. apply Qlt_shift_div_l; assumption.
Qed.

Lemma Qdiv_le_div (a b c d : Q) :
  (0 < b)%Q → (0 < d)%Q → (a * d <= c * b)%Q → (a / b <= c / d)%Q.
Proof.
  intros Hb Hd H. apply Qle_shift_div_r; [exact Hb|].
  assert (E : (c / d * b == c * b / d)%Q) by (field; lra).
  rewrite E. apply Qle_shift_div_l; assumption.
Qed.

(** [Qlog2 a] is the exponent of the power of two at or below [a]. *)
Lemma Qlog2_spec (a : Q) :
  (0 < a)%Q → (2 ^ Qlog2 a <= a)%Q ∧ (a < 2 ^ (Qlog2 a + 1))%Q.
Proof.
  intros Ha. destruct a as [n d].
  assert (Hn : 0 < n) by (unfold Qlt in Ha; simpl in Ha; lia).
  unfold Qlog2; cbn [Qnum Qden].
  set (ln := Z.log2 n). set (ld := Z.log2 (Z.pos d)).
  destruct (Z.log2_spec n Hn) as [Hn1 Hn2]. fold ln in Hn1, Hn2.
  destruct (Z.log2_spec (Z.pos d) eq_refl) as [Hd1 Hd2]. fold ld in Hd1, Hd2.
  pose proof (Z.log2_nonneg n) as Hln. fold ln in Hln.
  pose proof (Z.log2_nonneg (Z.pos d)) as Hld. fold ld in Hld.
  rewrite Zle_Qle in Hn1, Hd1. rewrite Zlt_Qlt in Hn2, Hd2.
  rewrite Qpow2_Z in Hn1, Hn2, Hd1, Hd2 by lia.
  pose proof (Qpow2_pos ln) as P1. pose proof (Qpow2_pos ld) as P2.
  pose proof (Qpow2_pos (Z.succ ln)) as P3.
  pose proof (Qpow2_pos (Z.succ ld)) as P4.
  assert (HD : (0 < inject_Z (Z.pos d))%Q) by (rewrite Zlt_Qlt in *; reflexivity).
  destruct (Qle_bool (2 ^ (ln - ld)) (n # d)) eqn:E.
  - apply Qle_bool_iff in E. split; [exact E|].
    rewrite (Qmake_Qdiv n d).
    replace (ln - ld + 1) with (Z.succ ln - ld) by lia.
    rewrite Qpower_minus by discriminate.
    apply Qdiv_lt_div; [exact HD | exact P2 | nra].
  - assert (E' : ¬ (2 ^ (ln - ld) <= n # d)%Q).
    { intros H. apply Qle_bool_iff in H. congruence. }
    apply Qnot_le_lt in E'. split.
    + rewrite (Qmake_Qdiv n d).
      replace (ln - ld - 1) with (ln - Z.succ ld) by lia.
      rewrite Qpower_minus by discriminate.
      apply Qdiv_le_div; [exact P4 | exact HD | nra].
    + replace (ln - ld - 1 + 1) with (ln - ld) by lia. exact E'.
Qed.

(** The number of bits of a mantissa. *)
Lemma digits2_pos_spec (p : positive) :
  2 ^ (Z.pos (SpecFloat.digits2_pos p) - 1) ≤ Z.pos p
  < 2 ^ Z.pos (SpecFloat.digits2_pos p).
Proof.
  induction p as [p IH|p IH|]; cbn [SpecFloat.digits2_pos];
    [| |split; [reflexivity | reflexivity]].
  all: rewrite Pos2Z.inj_succ;
    set (d := Z.pos (SpecFloat.digits2_pos p)) in *;
    replace (Z.succ d - 1) with (Z.succ (d - 1)) by lia;
    replace (Z.succ d) with (Z.succ (Z.succ (d - 1))) by lia;
    replace d with (Z.succ (d - 1)) in IH at 2 by lia;
    rewrite !Z.pow_succ_r in * by lia; lia.
Qed.

Lemma digits2_pos_53 (p : positive) :
  2 ^ 52 ≤ Z.pos p < 2 ^ 53 → Z.pos (SpecFloat.digits2_pos p) = 53.
Proof.
  intros [H1 H2]. destruct (digits2_pos_spec p) as [H3 H4].
  assert (Z.pos (SpecFloat.digits2_pos p) - 1 < 53).
  { apply (Z.pow_lt_mono_r_iff 2); lia. }
  assert (52 < Z.pos (SpecFloat.digits2_pos p)).
  { apply (Z.pow_lt_mono_r_iff 2); lia. }
  lia.
Qed.

Lemma digits2_pos_le_53 (p : positive) :
  Z.pos p ≤ 2 ^ 52 → Z.pos (SpecFloat.digits2_pos p) ≤ 53.
Proof.
  intros H1. destruct (digits2_pos_spec p) as [H3 H4].
  assert (Z.pos (SpecFloat.digits2_pos p) - 1 ≤ 52).
  { apply (Z.pow_le_mono_r_iff 2); lia. }
  lia.
Qed.

(** The mantissa that [nearest] rounds to has at most 53 bits, and exactly
    53 above the subnormal numbers. *)
Lemma nearest_mantissa (a : Q) :
  (0 < a)%Q →
  let u := Z.max (Qlog2 a - 52) (-1074) in
  let m := round_half_even (a / 2 ^ u) in
  0 ≤ m ≤ 2 ^ 53
  ∧ (-1074 ≤ Qlog2 a - 52 → 2 ^ 52 ≤ m)
  ∧ (Qlog2 a - 52 < -1074 → m ≤ 2 ^ 52).
Proof.
  intros Ha u m. destruct (Qlog2_spec a Ha) as [H1 H2].
  pose proof (Qpow2_pos u) as Pu.
  assert (Hu : Qlog2 a - 52 ≤ u) by lia.
  split; [split|split].
  - apply round_half_even_ge. apply Qle_shift_div_l; [exact Pu|].
    change (inject_Z 0) with 0%Q. lra.
  - apply round_half_even_le. rewrite Qpow2_Z by lia.
    apply Qle_shift_div_r; [exact Pu|]. rewrite <- Qpow2_plus.
    apply Qlt_le_weak. eapply Qlt_le_trans; [exact H2|].
    apply Qpow2_le. lia.
  - intros Hn. apply round_half_even_ge. rewrite Qpow2_Z by lia.
    apply Qle_shift_div_l; [exact Pu|]. rewrite <- Qpow2_plus.
    eapply Qle_trans; [|exact H1]. apply Qpow2_le. lia.
  - intros Hs. apply round_half_even_le. rewrite Qpow2_Z by lia.
    apply Qle_shift_div_r; [exact Pu|]. rewrite <- Qpow2_plus.
    apply Qlt_le_weak. eapply Qlt_le_trans; [exact H2|].
    apply Qpow2_le. lia.
Qed.

Lemma nearest_eq (s : bool) (a : Q) :
  (0 < a)%Q →
  let u := Z.max (Qlog2 a - 52) (-1074) in
  let m := round_half_even (a / 2 ^ u) in
  nearest s a
  = if m =? 2 ^ 53
    then (if u + 1 <=? 971
          then SpecFloat.S754_finite s 4503599627370496 (u + 1)
          else SpecFloat.S754_infinity s)
    else match m with
         | Z.pos p =>
             if u <=? 971 then SpecFloat.S754_finite s p u
             else SpecFloat.S754_infinity s
         | _ => SpecFloat.S754_zero s
         end.
Proof.
  intros Ha u m. unfold nearest.
  assert (E : Qle_bool a 0 = false).
  { destruct (Qle_bool a 0) eqn:E; [|reflexivity].
    apply Qle_bool_iff in E. exfalso. lra. }
  rewrite E. fold u. fold m. destruct (m =? 2 ^ 53); reflexivity.
Qed.

(** [nearest] yields a binary64 number: [SF2Prim] loses nothing of it. *)
Lemma nearest_valid (s : bool) (a : Q) :
  SpecFloat.valid_binary FloatOps.prec FloatOps.emax (nearest s a) = true.
Proof.
  destruct (Qlt_le_dec 0 a) as [Ha|Ha].
  2: { unfold nearest. apply Qle_bool_iff in Ha. rewrite Ha. reflexivity. }
  rewrite (nearest_eq s a Ha).
  destruct (nearest_mantissa a Ha) as ([Hm0 Hm1] & Hn & Hs).
  set (u := Z.max (Qlog2 a - 52) (-1074)) in *.
  set (m := round_half_even (a / 2 ^ u)) in *.
  destruct (m =? 2 ^ 53) eqn:E.
  - destruct (u + 1 <=? 971) eqn:E1; [|reflexivity].
    apply Z.leb_le in E1. cbn [SpecFloat.valid_binary].
    unfold SpecFloat.bounded, SpecFloat.canonical_mantissa, SpecFloat.fexp,
      SpecFloat.emin, FloatOps.prec, FloatOps.emax.
    rewrite (digits2_pos_53 4503599627370496) by (split; [reflexivity | reflexivity]).
    apply andb_true_intro. split; [apply Z.eqb_eq | apply Z.leb_le]; lia.
  - apply Z.eqb_neq in E. destruct m as [|p|p] eqn:Em; [reflexivity| |reflexivity].
    destruct (u <=? 971) eqn:E1; [|reflexivity].
    apply Z.leb_le in E1. cbn [SpecFloat.valid_binary].
    unfold SpecFloat.bounded, SpecFloat.canonical_mantissa, SpecFloat.fexp,
      SpecFloat.emin, FloatOps.prec, FloatOps.emax.
    apply andb_true_intro. split; [apply Z.eqb_eq | apply Z.leb_le; lia].
    destruct (Z_le_dec (-1074) (Qlog2 a - 52)) as [Hc|Hc].
    + rewrite (digits2_pos_53 p) by (split; [auto | lia]). lia.
    + pose proof (digits2_pos_le_53 p (Hs ltac:(lia))). lia.
Qed.

Lemma Qpow2_inv (u : Z) : (/ 2 ^ u == 2 ^ (- u))%Q.
Proof. symmetry. apply Qpower_opp. Qed.

(** Scaling by a power of two, for a last bit worth [2 ^ u <= 1]. *)
Lemma scaled_ge (u A m : Z) (a : Q) :
  u ≤ 0 → (inject_Z A <= a)%Q → m = round_half_even (a / 2 ^ u) →
  (inject_Z A <= inject_Z m * 2 ^ u)%Q.
Proof.
  intros Hu HA ->. pose proof (Qpow2_pos u) as Pu.
  pose proof (Qpow2_pos (- u)) as Pw.
  assert (E1 : (a / 2 ^ u == a * 2 ^ (- u))%Q).
  { unfold Qdiv. now rewrite Qpow2_inv. }
  assert (E2 : (2 ^ (- u) * 2 ^ u == 1)%Q).
  { rewrite <- Qpow2_plus. replace (- u + u) with 0 by lia. reflexivity. }
  assert (H : A * 2 ^ (- u) ≤ round_half_even (a / 2 ^ u)).
  { apply round_half_even_ge. rewrite E1, inject_Z_mult, Qpow2_Z by lia.
    apply Qmult_le_compat_r; [exact HA | lra]. }
  rewrite Zle_Qle, inject_Z_mult, Qpow2_Z in H by lia.
  assert (E3 : (inject_Z A == inject_Z A * 2 ^ (- u) * 2 ^ u)%Q).
  { rewrite <- Qmult_assoc, E2. ring. }
  rewrite E3. apply Qmult_le_compat_r; [exact H | lra].
Qed.

Lemma scaled_le (u B m : Z) (a : Q) :
  u ≤ 0 → (a <= inject_Z B)%Q → m = round_half_even (a / 2 ^ u) →
  (inject_Z m * 2 ^ u <= inject_Z B)%Q.
Proof.
  intros Hu HB ->. pose proof (Qpow2_pos u) as Pu.
  pose proof (Qpow2_pos (- u)) as Pw.
  assert (E1 : (a / 2 ^ u == a * 2 ^ (- u))%Q).
  { unfold Qdiv. now rewrite Qpow2_inv. }
  assert (E2 : (2 ^ (- u) * 2 ^ u == 1)%Q).
  { rewrite <- Qpow2_plus. replace (- u + u) with 0 by lia. reflexivity. }
  assert (H : round_half_even (a / 2 ^ u) ≤ B * 2 ^ (- u)).
  { apply round_half_even_le. rewrite E1, inject_Z_mult, Qpow2_Z by lia.
    apply Qmult_le_compat_r; [exact HB | lra]. }
  rewrite Zle_Qle, inject_Z_mult, Qpow2_Z in H by lia.
  assert (E3 : (inject_Z B == inject_Z B * 2 ^ (- u) * 2 ^ u)%Q).
  { rewrite <- Qmult_assoc, E2. ring. }
  rewrite E3. apply Qmult_le_compat_r; [exact H | lra].
Qed.

(** Below [2 ^ 1023] the result of [nearest] is finite and its value is
    the rounded mantissa times the weight of the last bit. *)
Lemma nearest_value (s : bool) (a : Q) :
  (0 < a)%Q → (a < 2 ^ 1023)%Q →
  let u := Z.max (Qlog2 a - 52) (-1074) in
  let m := round_half_even (a / 2 ^ u) in
  (SF2Q (nearest s a)
   == if s then - (inject_Z m * 2 ^ u) else inject_Z m * 2 ^ u)%Q
  ∧ SF_finite (nearest s a) = true.
Proof.
  intros Ha Hmax u m.
  destruct (Qlog2_spec a Ha) as [H1 _].
  assert (He : Qlog2 a < 1023).
  { apply Qpow2_lt_inv. eapply Qle_lt_trans; [exact H1 | exact Hmax]. }
  pose proof (nearest_eq s a Ha) as En.
  pose proof (nearest_mantissa a Ha) as ([Hm0 Hm1] & _).
  cbv zeta in En, Hm0, Hm1. fold u in En, Hm0, Hm1. fold m in En, Hm0, Hm1.
  rewrite En. clear En.
  assert (Hu : u ≤ 970) by (subst u; lia).
  clearbody m. clearbody u.
  destruct (m =? 2 ^ 53) eqn:E.
  - apply Z.eqb_eq in E.
    replace (u + 1 <=? 971) with true by (symmetry; apply Z.leb_le; lia).
    split; [|reflexivity].
    cbn [SF2Q]. rewrite E, Qpow2_plus.
    change (2 ^ 1)%Q with 2%Q.
    change (inject_Z (2 ^ 53)) with (inject_Z 4503599627370496 * 2)%Q.
    destruct s; ring.
  - destruct m as [|p|p];
      [split; [destruct s; cbn [SF2Q]; ring | reflexivity] | | lia].
    replace (u <=? 971) with true by (symmetry; apply Z.leb_le; lia).
    split; [|reflexivity]. cbn [SF2Q]. destruct s; ring.
Qed.

Lemma round_half_even_error (x : Q) :
  (Qabs (inject_Z (round_half_even x) - x) <= 1 # 2)%Q.
Proof.
  unfold round_half_even.
  pose proof (Qfloor_le x) as H1. pose proof (Qlt_floor x) as H2.
  rewrite inject_Z_plus in H2. change (inject_Z 1) with 1%Q in H2.
  apply Qabs_Qle_condition.
  destruct (Qcompare_spec (x - inject_Z (Qfloor x)) (1 # 2)) as [H|H|H];
    try (destruct (Z.even (Qfloor x)));
    rewrite ?inject_Z_plus; change (inject_Z 1) with 1%Q; split; lra.
Qed.

(** [nearest] errs by at most half the weight of the last bit. *)
Lemma nearest_error (a : Q) :
  (0 < a)%Q → (a < 2 ^ 1023)%Q →
  (Qabs (SF2Q (nearest false a) - a)
   <= 2 ^ Z.max (Qlog2 a - 52) (-1074) * (1 # 2))%Q.
Proof.
  intros Ha Hmax. destruct (nearest_value false a Ha Hmax) as [E _].
  cbv zeta in E. rewrite E.
  set (u := Z.max (Qlog2 a - 52) (-1074)).
  pose proof (Qpow2_pos u) as Pu.
  pose proof (round_half_even_error (a / 2 ^ u)) as Herr.
  apply Qabs_Qle_condition in Herr as [Hl Hr].
  assert (Ea : (a == a / 2 ^ u * 2 ^ u)%Q) by (field; lra).
  set (r := inject_Z (round_half_even (a / 2 ^ u))) in *.
  set (t := (a / 2 ^ u)%Q) in *. set (P := (2 ^ u)%Q) in *.
  clearbody r t P.
  apply Qabs_Qle_condition. split; nra.
Qed.

(** Up to [2 ^ 52] the float nearest to [a] lies between the integers
    that [a] lies between. *)
Lemma nearest_magnitude (s : bool) (a : Q) (A B : Z) :
  (0 < a)%Q → (a <= 2 ^ 52)%Q →
  (inject_Z A <= a)%Q → (a <= inject_Z B)%Q →
  ∃ v : Q, (SF2Q (nearest s a) == if s then - v else v)%Q
           ∧ (inject_Z A <= v)%Q ∧ (v <= inject_Z B)%Q
           ∧ SF_finite (nearest s a) = true.
Proof.
  intros Ha Hmax HA HB.
  destruct (Qlog2_spec a Ha) as [H1 _].
  assert (He : Qlog2 a ≤ 52).
  { apply Qpow2_le_inv. eapply Qle_trans; [exact H1 | exact Hmax]. }
  destruct (nearest_value s a Ha) as [Ev Hf].
  { eapply Qle_lt_trans; [exact Hmax|]. reflexivity. }
  cbv zeta in Ev.
  set (u := Z.max (Qlog2 a - 52) (-1074)) in *.
  assert (Hu : u ≤ 0) by lia.
  exists (inject_Z (round_half_even (a / 2 ^ u)) * 2 ^ u)%Q.
  split; [exact Ev|]. split; [|split; [|exact Hf]].
  - now apply (scaled_ge u A _ a).
  - now apply (scaled_le u B _ a).
Qed.

(** The same with the sign: the float nearest to a rational between two
    integers of at most 53 bits lies between them. *)
Lemma nearest_between (s : bool) (a : Q) (lo hi : Z) :
  (0 <= a)%Q → - 2 ^ 52 ≤ lo → hi ≤ 2 ^ 52 →
  (inject_Z lo <= if s then - a else a)%Q →
  ((if s then - a else a) <= inject_Z hi)%Q →
  (inject_Z lo <= SF2Q (nearest s a))%Q
  ∧ (SF2Q (nearest s a) <= inject_Z hi)%Q
  ∧ SF_finite (nearest s a) = true.
Proof.
  intros Ha Hlo Hhi H1 H2.
  destruct (Qlt_le_dec 0 a) as [Hpos|Hz].
  - rewrite Zle_Qle, inject_Z_opp, Qpow2_Z in Hlo by lia.
    rewrite Zle_Qle, Qpow2_Z in Hhi by lia.
    destruct s.
    + destruct (nearest_magnitude true a (- hi) (- lo) Hpos)
        as (v & Ev & Hv1 & Hv2 & Hf);
        rewrite ?inject_Z_opp; try lra.
      rewrite inject_Z_opp in Hv1, Hv2. rewrite Ev.
      split; [lra | split; [lra | exact Hf]].
    + destruct (nearest_magnitude false a lo hi Hpos)
        as (v & Ev & Hv1 & Hv2 & Hf); try lra.
      rewrite Ev. split; [lra | split; [lra | exact Hf]].
  - unfold nearest. apply Qle_bool_iff in Hz as Hb. rewrite Hb. cbn [SF2Q SF_finite].
    split; [|split; [|reflexivity]]; destruct s; lra.
Qed.

Lemma float_value_nearest (s : bool) (a : Q) :
  float_value (FloatOps.SF2Prim (nearest s a)) = SF2Q (nearest s a)
  ∧ float_finite (FloatOps.SF2Prim (nearest s a)) = SF_finite (nearest s a).
Proof.
  unfold float_value, float_finite.
  rewrite FloatAxioms.Prim2SF_SF2Prim by apply nearest_valid. done.
Qed.

(** [a / b] on ints lies between the integers the quotient lies between. *)
Lemma int_truediv_between (a b lo hi : Z) :
  0 < b → - 2 ^ 52 ≤ lo → hi ≤ 2 ^ 52 → lo * b ≤ a ≤ hi * b →
  ∃ x, int_truediv a b = Ok x
       ∧ (inject_Z lo <= float_value x)%Q ∧ (float_value x <= inject_Z hi)%Q
       ∧ float_finite x = true.
Proof.
  intros Hb Hlo Hhi [H1 H2]. unfold int_truediv.
  replace (b =? 0) with false by (symmetry; apply Z.eqb_neq; lia).
  replace (b <? 0) with false by (symmetry; apply Z.ltb_ge; lia).
  rewrite xorb_false_r.
  eexists. split; [reflexivity|].
  destruct (float_value_nearest (a <? 0) (Qabs (inject_Z a / inject_Z b)))
    as [-> ->].
  assert (HB : (0 < inject_Z b)%Q).
  { change 0%Q with (inject_Z 0). now rewrite <- Zlt_Qlt. }
  set (q := (inject_Z a / inject_Z b)%Q).
  assert (Hq1 : (inject_Z lo <= q)%Q).
  { apply Qle_shift_div_l; [exact HB|].
    now rewrite <- inject_Z_mult, <- Zle_Qle. }
  assert (Hq2 : (q <= inject_Z hi)%Q).
  { apply Qle_shift_div_r; [exact HB|].
    now rewrite <- inject_Z_mult, <- Zle_Qle. }
  assert (E : ((if a <? 0 then - Qabs q else Qabs q) == q)%Q).
  { destruct (a <? 0) eqn:Ea.
    - apply Z.ltb_lt in Ea. rewrite Qabs_neg; [ring|].
      apply Qle_shift_div_r; [exact HB|].
      rewrite Qmult_0_l. change 0%Q with (inject_Z 0).
      rewrite <- Zle_Qle. lia.
    - apply Z.ltb_ge in Ea. rewrite Qabs_pos; [reflexivity|].
      apply Qle_shift_div_l; [exact HB|].
      rewrite Qmult_0_l. change 0%Q with (inject_Z 0).
      rewrite <- Zle_Qle. lia. }
  apply nearest_between; [apply Qabs_nonneg | exact Hlo | exact Hhi | | ];
    rewrite E; assumption.
Qed.

(** [round(x, 2)] does not leave an interval of integers. *)
Lemma round2_between (x : float) (lo hi : Z) :
  - 2 ^ 52 ≤ lo → hi ≤ 2 ^ 52 →
  (inject_Z lo <= float_value x)%Q → (float_value x <= inject_Z hi)%Q →
  float_finite x = true →
  (inject_Z lo <= float_value (round2 x))%Q
  ∧ (float_value (round2 x) <= inject_Z hi)%Q
  ∧ float_finite (round2 x) = true.
Proof.
  intros Hlo Hhi H1 H2 Hf. unfold round2.
  unfold float_value, float_finite in H1, H2, Hf.
  destruct (FloatOps.Prim2SF x) as [s0|s0| |s m e] eqn:E;
    try discriminate;
    [unfold float_value, float_finite; rewrite E; auto|].
  cbn [SF2Q] in H1, H2.
  assert (Ev : ((if s then -1 else 1) * inject_Z (Z.pos m) * 2 ^ e
                == if s then - (inject_Z (Z.pos m) * 2 ^ e)
                   else inject_Z (Z.pos m) * 2 ^ e)%Q)
    by (destruct s; ring).
  rewrite Ev in H1, H2. clear Ev.
  set (v := (inject_Z (Z.pos m) * 2 ^ e)%Q) in *.
  assert (Hv : (0 < v)%Q).
  { apply Qmult_lt_0_compat; [reflexivity | apply Qpow2_pos]. }
  set (n := round_half_even (v * 100)).
  destruct (float_value_nearest s (inject_Z n / 100)) as [-> ->].
  assert (Hn : 0 ≤ n).
  { apply round_half_even_ge. change (inject_Z 0) with 0%Q. lra. }
  assert (H100 : ∀ z, (inject_Z (z * 100) == inject_Z z * 100)%Q).
  { intros z. now rewrite inject_Z_mult. }
  apply nearest_between; try assumption.
  - apply Qle_shift_div_l; [reflexivity|]. rewrite Qmult_0_l.
    change 0%Q with (inject_Z 0). now rewrite <- Zle_Qle.
  - destruct s.
    + assert (G : n ≤ (- lo) * 100).
      { apply round_half_even_le. rewrite H100, inject_Z_opp. lra. }
      rewrite Zle_Qle, H100, inject_Z_opp in G. 
      assert (G' : (inject_Z n / 100 <= - inject_Z lo)%Q).
      { apply Qle_shift_div_r; [reflexivity | exact G]. }
      lra.
    + assert (G : lo * 100 ≤ n).
      { apply round_half_even_ge. rewrite H100. lra. }
      rewrite Zle_Qle, H100 in G.
      apply Qle_shift_div_l; [reflexivity | exact G].
  - destruct s.
    + assert (G : (- hi) * 100 ≤ n).
      { apply round_half_even_ge. rewrite H100, inject_Z_opp. lra. }
      rewrite Zle_Qle, H100, inject_Z_opp in G.
      assert (G' : (- inject_Z hi <= inject_Z n / 100)%Q).
      { apply Qle_shift_div_l; [reflexivity | exact G]. }
      lra.
    + assert (G : n ≤ hi * 100).
      { apply round_half_even_le. rewrite H100. lra. }
      rewrite Zle_Qle, H100 in G.
      apply Qle_shift_div_r; [reflexivity | exact G].
Qed.

(** ** The statistics of an integer column are ordered *)

Lemma Zsum_bounds (l : list Z) (lo hi : Z) :
  (∀ y, y ∈ l → lo ≤ y ≤ hi) →
  lo * Z.of_nat (List.length l) ≤ Zsum l ≤ hi * Z.of_nat (List.length l).
Proof.
  unfold Zsum. intros H.
  assert (G : ∀ acc,
             acc + lo * Z.of_nat (List.length l) ≤ foldl Z.add acc l
             ≤ acc + hi * Z.of_nat (List.length l)).
  { induction l as [|x l IH]; intros acc; [simpl; lia|].
    pose proof (H x ltac:(left)) as Hx.
    pose proof (IH (λ y Hy, H y ltac:(right; exact Hy)) (acc + x)) as IH'.
    cbn [foldl List.length]. rewrite Nat2Z.inj_succ. lia. }
  pose proof (G 0). lia.
Qed.

Lemma describes_ordered (xs : list Z) (st : IntStats.t) :
  xs ≠ [] → (∀ x, x ∈ xs → - 2 ^ 31 ≤ x < 2 ^ 31) → describes xs st →
  (inject_Z (IntStats.min st) <= float_value (IntStats.average st))%Q
  ∧ (float_value (IntStats.average st) <= inject_Z (IntStats.max st))%Q
  ∧ float_finite (IntStats.average st) = true.
Proof.
  intros Hne Hr ((mean & Hmean & Ha) & Hmin_in & Hmin & Hmax_in & Hmax).
  pose proof (Hr _ Hmin_in) as R1. pose proof (Hr _ Hmax_in) as R2.
  destruct (int_truediv_between (Zsum xs) (Z.of_nat (List.length xs))
              (IntStats.min st) (IntStats.max st))
    as (x & Hx & H1 & H2 & Hf); try lia.
  { destruct xs; [done | simpl; lia]. }
  { apply Zsum_bounds. intros y Hy. split; [apply Hmin | apply Hmax]; exact Hy. }
  rewrite Hmean in Hx. injection Hx as <-. rewrite Ha.
  apply round2_between; try assumption; lia.
Qed.

(** X22.  When the humidities and the pressures of the city are 32-bit
    values, as an [Integer] column holds them, the humidity and the pressure
    statistics of every result of the patterns operation are ordered,
    [min <= average <= max] on the exact values, also when they are the zero
    placeholder; [min] is 0 only in the placeholder; and the averages are
    finite. *)
Theorem patterns_statistics_ordered (db : Session) (city_id : Z)
  (p : Patterns.t) :
  (∀ r, r ∈ weather_records db → WeatherRecord.city_id r = city_id →
        int32 (WeatherRecord.humidity r) ∧ int32 (WeatherRecord.pressure r)) →
  get_humidity_pressure_patterns db city_id = Ok (Some p) →
  (inject_Z (IntStats.min (Patterns.humidity p))
   <= float_value (IntStats.average (Patterns.humidity p)))%Q
  ∧ (float_value (IntStats.average (Patterns.humidity p))
     <= inject_Z (IntStats.max (Patterns.humidity p)))%Q
  ∧ (inject_Z (IntStats.min (Patterns.pressure p))
     <= float_value (IntStats.average (Patterns.pressure p)))%Q
  ∧ (float_value (IntStats.average (Patterns.pressure p))
     <= inject_Z (IntStats.max (Patterns.pressure p)))%Q
  ∧ (IntStats.min (Patterns.humidity p) = 0
     → Patterns.humidity p = IntStats.mk 0%float 0 0)
  ∧ float_finite (IntStats.average (Patterns.humidity p)) = true
  ∧ float_finite (IntStats.average (Patterns.pressure p)) = true.
Proof.
  intros Hrange. unfold get_humidity_pressure_patterns. intros H.
  destruct (records_of db city_id) as [|r0 rs] eqn:Er; [discriminate|].
  destruct (patterns_of_spec (r0 :: rs) ltac:(done))
    as (p' & Hp & Hh & Hpr & _).
  rewrite H in Hp. injection Hp as <-.
  assert (Hrows : ∀ r, r ∈ r0 :: rs →
            int32 (WeatherRecord.humidity r) ∧ int32 (WeatherRecord.pressure r)).
  { intros r Hr. rewrite <- Er in Hr. apply elem_of_records_of in Hr as [Hin Hc].
    auto. }
  assert (G : ∀ (col : WeatherRecord.t → option Z) st,
              (∀ r, r ∈ r0 :: rs → int32 (col r)) →
              int_stats (truthy_ints (col <$> r0 :: rs)) = Ok st →
              ((inject_Z (IntStats.min st) <= float_value (IntStats.average st))%Q
               ∧ (float_value (IntStats.average st) <= inject_Z (IntStats.max st))%Q
               ∧ float_finite (IntStats.average st) = true)
              ∧ (IntStats.min st = 0 → st = IntStats.mk 0%float 0 0)).
  { intros col st Hcol Hst.
    destruct (int_stats_spec (truthy_ints (col <$> r0 :: rs)))
      as (st' & Hst' & H0 & Hd).
    rewrite Hst in Hst'. injection Hst' as <-.
    destruct (truthy_ints (col <$> r0 :: rs)) as [|x l] eqn:El.
    - rewrite (H0 eq_refl).
      split; [split; [|split]; reflexivity || (vm_compute; discriminate)
             | intros _; reflexivity].
    - specialize (Hd ltac:(done)). split.
      + apply (describes_ordered (x :: l)); [done | | exact Hd].
        intros y Hy. rewrite <- El in Hy.
        apply elem_of_truthy_ints in Hy as [Hy _].
        apply list_elem_of_fmap in Hy as (r & Hr1 & Hr2).
        apply (Hcol r Hr2 y). congruence.
      + intros Hz. destruct Hd as (_ & Hin & _).
        rewrite Hz, <- El in Hin.
        apply elem_of_truthy_ints in Hin as [_ Hnz]. done. }
  destruct (G WeatherRecord.humidity _ (λ r Hr, proj1 (Hrows r Hr)) Hh)
    as [(H1 & H2 & H3) H4].
  destruct (G WeatherRecord.pressure _ (λ r Hr, proj2 (Hrows r Hr)) Hpr)
    as [(H5 & H6 & H7) _].
  repeat split; assumption.
Qed.

Lemma patterns_statistics_ordered_witness :
  ∃ p, get_humidity_pressure_patterns humid_db 1 = Ok (Some p)
       ∧ (inject_Z (IntStats.min (Patterns.humidity p))
          <= float_value (IntStats.average (Patterns.humidity p)))%Q.
Proof.
  destruct (get_humidity_pressure_patterns humid_db 1) as [[p|]|e] eqn:E;
    [|vm_compute in E; discriminate|vm_compute in E; discriminate].
  exists p. split; [reflexivity|].
  apply (patterns_statistics_ordered humid_db 1 p); [|exact E].
  intros r Hr _. unfold humid_db, sample_session, weather_records in Hr.
  repeat (apply elem_of_cons in Hr as [->|Hr];
          [split; intros z Hz; cbn in Hz; injection Hz as <-; lia|]).
  inversion Hr.
Defined.

(** [float(n)] is exact up to 53 bits. *)
Lemma float_of_Z_exact (n : Z) :
  - 2 ^ 52 ≤ n ≤ 2 ^ 52 →
  (float_value (float_of_Z n) == inject_Z n)%Q
  ∧ float_finite (float_of_Z n) = true.
Proof.
  intros [H1 H2]. unfold float_of_Z.
  destruct (float_value_nearest (n <? 0) (inject_Z (Z.abs n))) as [-> ->].
  assert (E : ((if n <? 0 then - inject_Z (Z.abs n) else inject_Z (Z.abs n))
               == inject_Z n)%Q).
  { destruct (n <? 0) eqn:En.
    - apply Z.ltb_lt in En. rewrite <- inject_Z_opp.
      now replace (- Z.abs n) with n by lia.
    - apply Z.ltb_ge in En. now replace (Z.abs n) with n by lia. }
  destruct (nearest_between (n <? 0) (inject_Z (Z.abs n)) n n)
    as (G1 & G2 & G3); try lia; try (rewrite E; apply Qle_refl).
  { change 0%Q with (inject_Z 0). rewrite <- Zle_Qle. lia. }
  split; [apply Qle_antisym; assumption | exact G3].
Qed.

(** Beyond 53 bits the order is lost: the average of the single value
    [2 ^ 53 + 1] is [2 ^ 53]. *)
Lemma patterns_statistics_range :
  ∃ p, get_humidity_pressure_patterns (humidity_db [9007199254740993]) 1
       = Ok (Some p)
       ∧ IntStats.min (Patterns.humidity p) = 9007199254740993
       ∧ (float_value (IntStats.average (Patterns.humidity p))
          == inject_Z 9007199254740992)%Q.
Proof.
  eexists. split; [vm_compute; reflexivity|]. split; vm_compute; reflexivity.
Qed.

(** ** Rounding and the order of the temperature statistics *)

(** X21.  The rounded statistics of a trend need not be ordered: three
    records of 15.105 degrees have the mean 15.104999999999999 in double
    precision, so that [avg_temperature] is 15.1 while [min_temperature] and
    [max_temperature] are 15.11. *)
Theorem trend_statistics_rounding :
  ∃ t, get_weather_trend (temperature_db [15.105; 15.105; 15.105]%float) 1 7
         sample_now = Ok (Some t)
       ∧ Trend.avg_temperature t = 15.1%float
       ∧ Trend.min_temperature t = 15.11%float
       ∧ Trend.max_temperature t = 15.11%float
       ∧ (Trend.avg_temperature t <? Trend.min_temperature t)%float = true.
Proof.
  eexists. split; [vm_compute; reflexivity|].
  repeat split; vm_compute; reflexivity.
Qed.

(** X23.  The same three records give the weekly and the monthly average
    one bucket whose [avg_temperature] 15.1 is below its [min_temperature]
    15.11. *)
Theorem bucket_statistics_rounding :
  get_weekly_average_temperature
    (temperature_db [15.105; 15.105; 15.105]%float) 1 4 sample_now
  = Ok [ WeeklyAverage.mk "2026-01-19" 15.1%float 15.11%float 15.11%float 3 ]
  ∧ get_monthly_average_temperature
      (temperature_db [15.105; 15.105; 15.105]%float) 1 12 sample_now
    = Ok [ MonthlyAverage.mk "2026-01" 15.1%float 15.11%float 15.11%float 3 ]
  ∧ (15.1 <? 15.11)%float = true.
Proof. repeat split; vm_compute; reflexivity. Qed.

(** X24.  The same three records give the comparison a temperature
    average 15.1 below the temperature minimum 15.11. *)
Theorem comparison_statistics_rounding :
  ∃ m e, compare_cities (temperature_db [15.105; 15.105; 15.105]%float)
           ["Tokyo"] = Ok m
         ∧ m !! "Tokyo" = Some e
         ∧ Comparison.temperature e
           = FloatStats.mk 15.1%float 15.11%float 15.11%float
         ∧ (FloatStats.average (Comparison.temperature e)
            <? FloatStats.min (Comparison.temperature e))%float = true.
Proof.
  set (db := temperature_db [15.105; 15.105; 15.105]%float).
  destruct (compare_cities_lookup db ["Tokyo"]) as (m & Hm & Hl).
  destruct (Hl "Tokyo") as [H1 _].
  destruct H1 as (c & e & Hc & He & Hn).
  { split; [left|]. apply has_data_records_of. exists tokyo.
    split; [reflexivity|]. vm_compute. discriminate. }
  exists m, e. split; [exact Hm|]. split; [exact Hn|].
  vm_compute in Hc. injection Hc as <-.
  vm_compute in He. injection He as <-.
  split; reflexivity.
Qed.

(** ** The trend, weekly and monthly endpoints *)

Lemma validate_days_int (d : Z) :
  (1 ≤ d ≤ 365 → validate_days (PyInt d) default_min_days 365 = Ok (PyInt d))
  ∧ (d < 1 ∨ 365 < d →
     ∃ msg, validate_days (PyInt d) default_min_days 365
            = raise ValueError msg).
Proof.
  unfold validate_days, default_min_days. cbn [isinstance_int negb int_value].
  destruct (Z.ltb_spec d 1); [split; [lia | eauto]|].
  destruct (Z.gtb_spec d 365); [split; [lia | eauto]|].
  split; [reflexivity | lia].
Qed.

(** X25.  For a city name that passes validation, [GET /analytics/trend]
    answers 500 to [days] below 1 or above 365; for [days] from 1 to 365 and
    a known city it answers 404, naming the city and the number of days,
    when the window holds no record; and a trend returned with status 200
    has a temperature, a humidity and a pressure in every entry of its
    [daily_data]. *)
Theorem get_trend_statuses (db : Session) (city c : string) (days : Z)
  (now : datetime) :
  validate_city_name city = Ok c →
  (days < 1 ∨ 365 < days → status_code (get_trend db city days now) = 500)
  ∧ (∀ city_obj start,
       1 ≤ days ≤ 365 → city_by_name db c = Some city_obj →
       sub_days now days = Ok start →
       trend_records db (City.id city_obj) start now = [] →
       get_trend db city days now
       = HTTPException 404
           ("No weather records found for '" +:+ c +:+ "' in the last " +:+
            pretty days +:+ " days"))
  ∧ (∀ body,
       get_trend db city days now = Http200 body →
       1 ≤ TrendResponse.period_days body ≤ 365
       ∧ Forall (λ p, is_Some (TrendPoint.temperature p)
                      ∧ is_Some (TrendPoint.humidity p)
                      ∧ is_Some (TrendPoint.pressure p))
           (Trend.daily_data (TrendResponse.trend body))).
Proof.
  intros Hc. unfold get_trend, get_trend_body. rewrite Hc, bind_Ok.
  destruct (validate_days_int days) as [Hin Hout].
  split; [|split].
  - intros Hd. destruct (Hout Hd) as [msg ->]. reflexivity.
  - intros city_obj start Hd Hcity Hstart Hnil.
    rewrite (Hin Hd), !bind_Ok. cbn [int_value].
    unfold find_city. rewrite Hcity, bind_Ok.
    unfold get_weather_trend. rewrite Hstart, bind_Ok, Hnil. reflexivity.
  - intros body H. apply respond_200 in H.
    apply bind_Ok_inv in H as (d & Hd & H).
    apply bind_Ok_inv in Hd as (v & Hv & Hd). injection Hd as <-.
    assert (Hrange : 1 ≤ days ≤ 365).
    { destruct (Z.le_gt_cases 1 days), (Z.le_gt_cases days 365); try lia;
        destruct Hout as [msg E]; try lia; rewrite E in Hv; discriminate. }
    rewrite (Hin Hrange) in Hv. injection Hv as <-. cbn [int_value] in H.
    apply bind_Ok_inv in H as (city_obj & _ & H).
    apply bind_Ok_inv in H as (trend_data & _ & H).
    destruct trend_data as [t|]; [|discriminate].
    apply bind_Ok_inv in H as (ps & Hps & H). injection H as <-.
    split; [exact Hrange|]. cbn [TrendResponse.trend].
    apply Forall_forall. intros p Hp.
    apply mapM_Ok_Forall2 in Hps.
    apply list_elem_of_lookup in Hp as [i Hi].
    destruct (Forall2_lookup_l _ _ _ _ _ Hps Hi) as (q & _ & Hq).
    unfold daily_trend_data in Hq.
    destruct (bool_decide (is_Some (TrendPoint.temperature p))) eqn:E1;
      [|discriminate].
    destruct (bool_decide (is_Some (TrendPoint.humidity p))) eqn:E2;
      [|discriminate].
    destruct (bool_decide (is_Some (TrendPoint.pressure p))) eqn:E3;
      [|discriminate].
    apply bool_decide_eq_true in E1, E2, E3. auto.
Qed.

Lemma get_trend_statuses_witness :
  status_code (get_trend sample_db "Tokyo" 0 sample_now) = 500
  ∧ get_trend old_db "Tokyo" 7 sample_now
    = HTTPException 404
        "No weather records found for 'Tokyo' in the last 7 days".
Proof.
  destruct (get_trend_statuses sample_db "Tokyo" "Tokyo" 0 sample_now eq_refl)
    as (H500 & _).
  destruct (get_trend_statuses old_db "Tokyo" "Tokyo" 7 sample_now eq_refl)
    as (_ & H404 & _).
  split; [apply H500; lia|].
  apply (H404 tokyo (at_time 13 0 0)); [lia | reflexivity | reflexivity |].
  reflexivity.
Defined.

(** X26.  For a city name that passes validation, the weekly endpoint
    answers 500 to [weeks] outside 1..52 and the monthly endpoint answers 500
    to [months] outside 1..24; within these bounds both answer 404 when no
    city has that name. *)
Theorem weekly_monthly_endpoint_bounds (db : Session) (city c : string)
  (n : Z) (now : datetime) :
  validate_city_name city = Ok c →
  (n < 1 ∨ 52 < n → status_code (get_weekly_average db city n now) = 500)
  ∧ (n < 1 ∨ 24 < n → status_code (get_monthly_average db city n now) = 500)
  ∧ (city_by_name db c = None →
     (1 ≤ n ≤ 52 → status_code (get_weekly_average db city n now) = 404)
     ∧ (1 ≤ n ≤ 24 → status_code (get_monthly_average db city n now) = 404)).
Proof.
  intros Hc.
  unfold get_weekly_average, get_weekly_average_body, get_monthly_average,
    get_monthly_average_body.
  rewrite Hc, !bind_Ok.
  unfold validate_weeks, validate_months, default_min_weeks,
    default_min_months, find_city.
  cbn [isinstance_int negb int_value].
  split; [|split; [|intros Hnone; rewrite Hnone; split]]; intros Hn.
  - destruct (Z.ltb_spec n 1); [reflexivity|].
    destruct (Z.gtb_spec n 52); [reflexivity | lia].
  - destruct (Z.ltb_spec n 1); [reflexivity|].
    destruct (Z.gtb_spec n 24); [reflexivity | lia].
  - destruct (Z.ltb_spec n 1); [lia|].
    destruct (Z.gtb_spec n 52); [lia | reflexivity].
  - destruct (Z.ltb_spec n 1); [lia|].
    destruct (Z.gtb_spec n 24); [lia | reflexivity].
Qed.

Lemma weekly_monthly_endpoint_bounds_witness :
  status_code (get_weekly_average sample_db "Tokyo" 53 sample_now) = 500
  ∧ status_code (get_monthly_average sample_db "Atlantis" 12 sample_now) = 404.
Proof.
  split.
  - apply (weekly_monthly_endpoint_bounds sample_db "Tokyo" "Tokyo" 53
             sample_now eq_refl). lia.
  - apply (weekly_monthly_endpoint_bounds sample_db "Atlantis" "Atlantis" 12
             sample_now eq_refl); [reflexivity | lia].
Defined.
